(** * mediacopy: image representations and their upload

    A shallow embedding of [mediacopy.py]: the content-type table, the
    validated [ImageRepresentation], the [ImageRepresentations] set with its
    identity-driven inclusion mask, the link resolution of [create_reps] and
    the hash-verified upload loop, followed by the properties proved of them.

    Python values are modelled as follows: [int] as [Z], [bytes] as a list of
    [byte], [str] as [string] (code points below 256), a [dict] as an
    association list in insertion order, an object whose identity matters as
    a record carrying its identity, and raising code as a state-and-error
    monad over the [world] the program runs in. *)

From Stdlib Require Import String Ascii NArith ZArith Lia Bool List.
From Stdlib Require Import DecimalString Permutation.
From Stdlib.Strings Require Import Byte.
Import ListNotations.
Open Scope string_scope.
Open Scope list_scope.

(** * Byte strings and text *)

Definition bytes := list byte.

Definition byte_of_N (n : N) : byte :=
  match Byte.of_N (n mod 256) with
  | Some b => b
  | None => x00
  end.

Definition byte_of_Z (z : Z) : byte := byte_of_N (Z.to_N z).

Definition ascii_of_code (n : N) : ascii := ascii_of_N n.

Definition str1 (n : N) : string := String (ascii_of_code n) EmptyString.

Definition codes (s : string) : list N := map N_of_ascii (list_ascii_of_string s).

Definition bytes_of_str (s : string) : bytes := map byte_of_N (codes s).

Definition str_of_bytes (b : bytes) : string :=
  string_of_list_ascii (map (fun c => ascii_of_code (Byte.to_N c)) b).

(** [read(n)] on a file yields successive pieces of at most [n] bytes; the
    recursion is bounded by the length of what is left. *)
Fixpoint chunks_fuel {A} (fuel n : nat) (l : list A) : list (list A) :=
  match fuel with
  | O => []
  | S fuel' =>
      match l with
      | [] => []
      | _ :: _ => firstn n l :: chunks_fuel fuel' n (skipn n l)
      end
  end.

Definition chunks {A} (n : nat) (l : list A) : list (list A) :=
  chunks_fuel (length l) n l.

Definition hex_digit (n : N) : ascii :=
  ascii_of_code (if (n <? 10)%N then 48 + n else 87 + n)%N.

Definition hex2 (n : N) : string :=
  String (hex_digit (n / 16)) (String (hex_digit (n mod 16)) EmptyString).

(** [bytes.hex()] *)
Definition hex (bs : bytes) : string :=
  fold_right (fun b s => append (hex2 (Byte.to_N b)) s) EmptyString bs.

(** [s1 in s2] on [str] *)
Fixpoint contains (needle hay : string) : bool :=
  prefix needle hay
  || match hay with
     | EmptyString => false
     | String _ hay' => contains needle hay'
     end.

(** * The digests of hashlib *)

Module Hashlib.
Local Open Scope N_scope.

Definition mask32 : N := 0xFFFFFFFF.
Definition add32 (x y : N) : N := N.land (x + y) mask32.
Definition not32 (x : N) : N := N.lxor x mask32.
Definition rotr32 (n x : N) : N :=
  N.lor (N.shiftr x n) (N.land (N.shiftl x (32 - n)) mask32).
Definition rotl32 (n x : N) : N :=
  N.lor (N.land (N.shiftl x n) mask32) (N.shiftr x (32 - n)).

Definition be_to_N (bs : bytes) : N :=
  fold_left (fun acc b => acc * 256 + Byte.to_N b) bs 0.
Definition le_to_N (bs : bytes) : N :=
  fold_right (fun b acc => Byte.to_N b + 256 * acc) 0 bs.
Fixpoint N_to_le (len : nat) (n : N) : bytes :=
  match len with
  | O => []
  | S len' => byte_of_N n :: N_to_le len' (n / 256)
  end.
Definition N_to_be (len : nat) (n : N) : bytes := rev (N_to_le len n).

Definition pad_zeros (len : nat) : nat :=
  Nat.modulo (64 - Nat.modulo (len + 9) 64) 64.

Definition nthN (l : list N) (i : nat) : N := nth i l 0.

(** SHA-256 (FIPS 180-4). *)

(** The first 32 bits of the fractional part of the [k]-th root of [p]: the
    integer [k]-th root of [p * 2 ^ (32 * k)], found bit by bit, modulo
    [2 ^ 32]. *)
Fixpoint iroot (k : N) (bits : nat) (n r : N) : N :=
  match bits with
  | O => r
  | S bits' =>
      let c := r + 2 ^ N.of_nat bits' in
      iroot k bits' n (if c ^ k <=? n then c else r)
  end.

Definition root_fraction (k p : N) : N :=
  iroot k 36 (p * 2 ^ (32 * k)) 0 mod 2 ^ 32.

Definition is_prime (n : nat) : bool :=
  forallb (fun d => negb (Nat.eqb (Nat.modulo n d) 0)) (seq 2 (n - 2)).

Definition first_primes (count : nat) : list N :=
  map N.of_nat (firstn count (filter is_prime (seq 2 310))).

(** The round constants come from the cube roots of the first 64 primes, the
    initial hash value from the square roots of the first 8. *)
Definition sha256_K : list N :=
  Eval vm_compute in map (root_fraction 3) (first_primes 64).

Definition sha256_H0 : list N :=
  Eval vm_compute in map (root_fraction 2) (first_primes 8).

Definition sha256_pad (msg : bytes) : bytes :=
  msg ++ [x80] ++ repeat x00 (pad_zeros (length msg))
      ++ N_to_be 8 (8 * N.of_nat (length msg)).

(** The message schedule, latest word first. *)
Fixpoint sha256_schedule (n : nat) (rw : list N) : list N :=
  match n with
  | O => rw
  | S n' =>
      let s0 := N.lxor (N.lxor (rotr32 7 (nthN rw 14)) (rotr32 18 (nthN rw 14)))
                       (N.shiftr (nthN rw 14) 3) in
      let s1 := N.lxor (N.lxor (rotr32 17 (nthN rw 1)) (rotr32 19 (nthN rw 1)))
                       (N.shiftr (nthN rw 1) 10) in
      sha256_schedule n'
        (add32 (add32 (add32 s1 (nthN rw 6)) s0) (nthN rw 15) :: rw)
  end.

Definition sha256_round (st : list N) (kw : N * N) : list N :=
  match st with
  | [a; b; c; d; e; f; g; h] =>
      let S1 := N.lxor (N.lxor (rotr32 6 e) (rotr32 11 e)) (rotr32 25 e) in
      let ch := N.lxor (N.land e f) (N.land (not32 e) g) in
      let t1 := add32 (add32 (add32 (add32 h S1) ch) (fst kw)) (snd kw) in
      let S0 := N.lxor (N.lxor (rotr32 2 a) (rotr32 13 a)) (rotr32 22 a) in
      let maj := N.lxor (N.lxor (N.land a b) (N.land a c)) (N.land b c) in
      [add32 t1 (add32 S0 maj); a; b; c; add32 d t1; e; f; g]
  | _ => st
  end.

Definition sha256_block (st : list N) (block : bytes) : list N :=
  let w := rev (sha256_schedule 48 (rev (map be_to_N (chunks 4 block)))) in
  map (fun p => add32 (fst p) (snd p))
      (combine st (fold_left sha256_round (combine sha256_K w) st)).

Definition sha256 (msg : bytes) : bytes :=
  flat_map (N_to_be 4)
           (fold_left sha256_block (chunks 64 (sha256_pad msg)) sha256_H0).

(** MD5 (RFC 1321). *)

Definition md5_T : list N :=
  [0xd76aa478; 0xe8c7b756; 0x242070db; 0xc1bdceee; 0xf57c0faf; 0x4787c62a;
   0xa8304613; 0xfd469501; 0x698098d8; 0x8b44f7af; 0xffff5bb1; 0x895cd7be;
   0x6b901122; 0xfd987193; 0xa679438e; 0x49b40821; 0xf61e2562; 0xc040b340;
   0x265e5a51; 0xe9b6c7aa; 0xd62f105d; 0x02441453; 0xd8a1e681; 0xe7d3fbc8;
   0x21e1cde6; 0xc33707d6; 0xf4d50d87; 0x455a14ed; 0xa9e3e905; 0xfcefa3f8;
   0x676f02d9; 0x8d2a4c8a; 0xfffa3942; 0x8771f681; 0x6d9d6122; 0xfde5380c;
   0xa4beea44; 0x4bdecfa9; 0xf6bb4b60; 0xbebfbc70; 0x289b7ec6; 0xeaa127fa;
   0xd4ef3085; 0x04881d05; 0xd9d4d039; 0xe6db99e5; 0x1fa27cf8; 0xc4ac5665;
   0xf4292244; 0x432aff97; 0xab9423a7; 0xfc93a039; 0x655b59c3; 0x8f0ccc92;
   0xffeff47d; 0x85845dd1; 0x6fa87e4f; 0xfe2ce6e0; 0xa3014314; 0x4e0811a1;
   0xf7537e82; 0xbd3af235; 0x2ad7d2bb; 0xeb86d391].

Definition md5_S : list N :=
  [7; 12; 17; 22; 7; 12; 17; 22; 7; 12; 17; 22; 7; 12; 17; 22;
   5; 9; 14; 20; 5; 9; 14; 20; 5; 9; 14; 20; 5; 9; 14; 20;
   4; 11; 16; 23; 4; 11; 16; 23; 4; 11; 16; 23; 4; 11; 16; 23;
   6; 10; 15; 21; 6; 10; 15; 21; 6; 10; 15; 21; 6; 10; 15; 21].

Definition md5_A0 : list N := [0x67452301; 0xefcdab89; 0x98badcfe; 0x10325476].

Definition md5_pad (msg : bytes) : bytes :=
  msg ++ [x80] ++ repeat x00 (pad_zeros (length msg))
      ++ N_to_le 8 (8 * N.of_nat (length msg)).

Definition md5_step (m : list N) (st : list N) (i : nat) : list N :=
  match st with
  | [a; b; c; d] =>
      let fg :=
        match Nat.div i 16 with
        | 0%nat => (N.lor (N.land b c) (N.land (not32 b) d), i)
        | 1%nat => (N.lor (N.land d b) (N.land (not32 d) c),
                    Nat.modulo (5 * i + 1) 16)
        | 2%nat => (N.lxor (N.lxor b c) d, Nat.modulo (3 * i + 5) 16)
        | _ => (N.lxor c (N.lor b (not32 d)), Nat.modulo (7 * i) 16)
        end in
      let f := add32 (add32 (add32 (fst fg) a) (nthN md5_T i)) (nthN m (snd fg)) in
      [d; add32 b (rotl32 (nthN md5_S i) f); b; c]
  | _ => st
  end.

Definition md5_block (st : list N) (block : bytes) : list N :=
  let m := map le_to_N (chunks 4 block) in
  map (fun p => add32 (fst p) (snd p))
      (combine st (fold_left (md5_step m) (seq 0 64) st)).

Definition md5 (msg : bytes) : bytes :=
  flat_map (N_to_le 4) (fold_left md5_block (chunks 64 (md5_pad msg)) md5_A0).

End Hashlib.

(** * Exceptions and results *)

(** The key a [KeyError] carries. *)
Inductive pykey :=
| KStr (s : string)
| KInt (z : Z).

(** The exceptions the program can raise.  [ExceptionFrom msg cause] is
    [raise Exception(msg) from cause]. *)
Inductive exn :=
| ValueError (msg : string)
| KeyError (key : pykey)
| IndexError
| StructError
| UnicodeEncodeError
| UnicodeDecodeError
| FileNotFoundError (path : bytes)
| ClientError
| Exception (msg : string)
| ExceptionFrom (msg : string) (cause : exn).

Inductive result (A : Type) :=
| Ok (a : A)
| Raise (e : exn).
Arguments Ok {A} a.
Arguments Raise {A} e.

Definition rbind {A B} (r : result A) (k : A -> result B) : result B :=
  match r with
  | Ok a => k a
  | Raise e => Raise e
  end.

Declare Scope result_scope.
Delimit Scope result_scope with res.
Notation "x <-! c ;; k" := (rbind c (fun x => k))
  (at level 61, c at next level, right associativity) : result_scope.

(** * Builtins of Python the program calls *)

Module Py.

(** [str(n)] for an [int]: decimal digits with a leading minus sign. *)
Definition str_of_int (z : Z) : string := NilZero.string_of_int (Z.to_int z).

(** The quote [repr] wraps a [str] or [bytes] in: a double quote when the
    text has a single quote and no double quote, a single quote otherwise. *)
Definition repr_quote (cs : list N) : N :=
  if existsb (N.eqb 39) cs && negb (existsb (N.eqb 34) cs) then 34%N else 39%N.

Definition escape_common (quote c : N) : option string :=
  if (c =? quote)%N || (c =? 92)%N then Some (String "\" (str1 c))
  else if (c =? 9)%N then Some "\t"
  else if (c =? 10)%N then Some "\n"
  else if (c =? 13)%N then Some "\r"
  else if (c <? 32)%N || (c =? 127)%N then Some (append "\x" (hex2 c))
  else None.

(** [repr(b)] for [bytes]: every byte from 0x7f up is written in hex. *)
Definition repr_bytes_char (quote c : N) : string :=
  match escape_common quote c with
  | Some s => s
  | None => if (127 <=? c)%N then append "\x" (hex2 c) else str1 c
  end.

Definition repr_bytes (b : bytes) : string :=
  let cs := map Byte.to_N b in
  let q := repr_quote cs in
  append "b" (append (str1 q)
    (fold_right (fun c s => append (repr_bytes_char q c) s) (str1 q) cs)).

(** [repr(s)] for [str]: of the code points 0x80 to 0xff the controls, the
    no-break space and the soft hyphen are not printable. *)
Definition printable (c : N) : bool :=
  ((32 <=? c)%N && (c <? 127)%N)
  || ((161 <=? c)%N && negb (c =? 173)%N).

Definition repr_str_char (quote c : N) : string :=
  match escape_common quote c with
  | Some s => s
  | None => if printable c then str1 c else append "\x" (hex2 c)
  end.

Definition repr_str (s : string) : string :=
  let cs := codes s in
  let q := repr_quote cs in
  append (str1 q)
    (fold_right (fun c t => append (repr_str_char q c) t) (str1 q) cs).

(** [repr(d)] for a [dict], given the [repr] of its keys and values. *)
Definition repr_dict {K V} (rk : K -> string) (rv : V -> string)
    (d : list (K * V)) : string :=
  let item kv := append (rk (fst kv)) (append ": " (rv (snd kv))) in
  append "{" (append (String.concat ", " (map item d)) "}").

(** [s.encode("ascii")] and [b.decode("ascii")] *)
Definition encode_ascii (s : string) : result bytes :=
  if forallb (fun c => (c <? 128)%N) (codes s)
  then Ok (bytes_of_str s) else Raise UnicodeEncodeError.

Definition decode_ascii (b : bytes) : result string :=
  if forallb (fun c => (Byte.to_N c <? 128)%N) b
  then Ok (str_of_bytes b) else Raise UnicodeDecodeError.

(** [s[i:j]] for [0 <= i <= j] *)
Definition slice (i j : nat) (s : string) : string := substring i (j - i) s.

(** [b.rstrip(b"=")] *)
Definition rstrip (c : byte) (b : bytes) : bytes :=
  fold_right (fun x acc =>
                match acc with
                | [] => if Byte.eqb x c then [] else [x]
                | _ :: _ => x :: acc
                end) [] b.

(** [bytes(ints)]: every item must be in [range(256)]. *)
Fixpoint bytes_of_ints (l : list Z) : result bytes :=
  match l with
  | [] => Ok []
  | z :: l' =>
      if (0 <=? z)%Z && (z <? 256)%Z
      then match bytes_of_ints l' with
           | Ok b => Ok (byte_of_Z z :: b)
           | Raise e => Raise e
           end
      else Raise (ValueError "bytes must be in range(0, 256)")
  end.

(** [t[i]] for a tuple: a negative index counts from the end. *)
Definition tuple_get {A} (t : list A) (i : Z) : result A :=
  let j := if (i <? 0)%Z then (i + Z.of_nat (length t))%Z else i in
  if (j <? 0)%Z then Raise IndexError
  else match nth_error t (Z.to_nat j) with
       | Some a => Ok a
       | None => Raise IndexError
       end.

(** [struct.pack(">HH", a, b)]: two unsigned 16-bit fields, big-endian. *)
Definition pack_H (z : Z) : result bytes :=
  if (0 <=? z)%Z && (z <=? 65535)%Z
  then Ok [byte_of_Z (Z.shiftr z 8); byte_of_Z (Z.land z 255)]
  else Raise StructError.

Definition struct_pack_HH (a b : Z) : result bytes :=
  match pack_H a with
  | Ok x => match pack_H b with
            | Ok y => Ok (x ++ y)
            | Raise e => Raise e
            end
  | Raise e => Raise e
  end.

(** [os.path.join(a, *p)] of [posixpath], on [bytes]. *)
Definition startswith_sep (b : bytes) : bool :=
  match b with
  | c :: _ => Byte.eqb c x2f
  | [] => false
  end.

Definition endswith_sep (b : bytes) : bool := startswith_sep (rev b).

Definition path_join (a : bytes) (p : list bytes) : bytes :=
  fold_left (fun path b =>
               if startswith_sep b then b
               else match path with
                    | [] => b
                    | _ :: _ => if endswith_sep path then path ++ b
                                else path ++ x2f :: b
                    end) p a.

(** [base64.b64encode]: three bytes become four characters of the standard
    alphabet, a last group of one or two bytes is padded with [=]. *)
Definition b64_alphabet : string :=
  "ABCDEFGHIJKLMNOPQRSTUVWXYZabcdefghijklmnopqrstuvwxyz0123456789+/".

Definition b64_char (alphabet : string) (n : N) : byte :=
  match get (N.to_nat n) alphabet with
  | Some c => byte_of_N (N_of_ascii c)
  | None => x3d
  end.

Definition sextets3 (a b c : byte) : list N :=
  let n := (Byte.to_N a * 65536 + Byte.to_N b * 256 + Byte.to_N c)%N in
  [N.shiftr n 18; N.land (N.shiftr n 12) 63; N.land (N.shiftr n 6) 63;
   N.land n 63].

Fixpoint b64encode (s : bytes) : bytes :=
  match s with
  | [] => []
  | [a] => map (b64_char b64_alphabet) (firstn 2 (sextets3 a x00 x00))
           ++ [x3d; x3d]
  | [a; b] => map (b64_char b64_alphabet) (firstn 3 (sextets3 a b x00))
              ++ [x3d]
  | a :: b :: c :: s' => map (b64_char b64_alphabet) (sextets3 a b c)
                         ++ b64encode s'
  end.

(** [base64.urlsafe_b64encode]: the standard encoding with [+] and [/]
    translated to [-] and [_]. *)
Definition urlsafe_translate (c : byte) : byte :=
  if Byte.eqb c x2b then x2d else if Byte.eqb c x2f then x5f else c.

Definition urlsafe_b64encode (s : bytes) : bytes :=
  map urlsafe_translate (b64encode s).

End Py.

(** * Dictionaries

    A [dict] keeps its items in insertion order; assigning to a key that is
    present replaces the value in place. *)

Class Key (K : Type) := {
  key_eqb : K -> K -> bool;
  key_eqb_eq : forall a b, key_eqb a b = true <-> a = b;
  key_repr : K -> string;
  key_py : K -> pykey
}.

#[export] Instance Key_str : Key string := {
  key_eqb := String.eqb;
  key_eqb_eq := String.eqb_eq;
  key_repr := Py.repr_str;
  key_py := KStr
}.

#[export] Instance Key_int : Key Z := {
  key_eqb := Z.eqb;
  key_eqb_eq := Z.eqb_eq;
  key_repr := Py.str_of_int;
  key_py := KInt
}.

Definition dict (K V : Type) := list (K * V).

Section Dict.
Context {K V : Type} `{Key K}.

Fixpoint dict_get (k : K) (d : dict K V) : option V :=
  match d with
  | [] => None
  | (k', v) :: d' => if key_eqb k' k then Some v else dict_get k d'
  end.

(** [k in d] *)
Definition dict_mem (k : K) (d : dict K V) : bool :=
  match dict_get k d with
  | Some _ => true
  | None => false
  end.

(** [d[k]] *)
Definition dict_getitem (k : K) (d : dict K V) : result V :=
  match dict_get k d with
  | Some v => Ok v
  | None => Raise (KeyError (key_py k))
  end.

(** [d[k] = v] *)
Fixpoint dict_set (k : K) (v : V) (d : dict K V) : dict K V :=
  match d with
  | [] => [(k, v)]
  | (k', v') :: d' =>
      if key_eqb k' k then (k', v) :: d' else (k', v') :: dict_set k v d'
  end.

Definition dict_keys (d : dict K V) : list K := map fst d.
Definition dict_values (d : dict K V) : list V := map snd d.
End Dict.

(** * The world the program runs in *)

(** The keyword arguments of one [bucket.put_object] call. *)
Record put_object_args := {
  Body : bytes;
  CacheControl : string;
  ContentMD5 : string;
  ContentLength : Z;
  ContentType : string;
  Key_ : string
}.

Record world := {
  MEDIA_ROOT : bytes;                 (* os.environb[b"MEDIA_ROOT"] *)
  files : bytes -> option bytes;      (* the files that can be opened, by path *)
  entropy : nat -> byte;              (* the bytes secrets.token_bytes draws *)
  drawn : nat;                        (* how many of them were drawn *)
  next_id : nat;                      (* identity of the next object created *)
  store_accepts : nat -> bool;        (* whether the n-th put_object succeeds *)
  put_calls : list put_object_args    (* the put_object calls made so far *)
}.

Definition M (A : Type) := world -> result A * world.

Definition ret {A} (a : A) : M A := fun w => (Ok a, w).

Definition raise {A} (e : exn) : M A := fun w => (Raise e, w).

Definition bind {A B} (c : M A) (k : A -> M B) : M B :=
  fun w =>
    match c w with
    | (Ok a, w') => k a w'
    | (Raise e, w') => (Raise e, w')
    end.

Definition lift {A} (r : result A) : M A := fun w => (r, w).

Declare Scope monad_scope.
Delimit Scope monad_scope with M.
Notation "x <- c ;; k" := (bind c (fun x => k))
  (at level 61, c at next level, right associativity) : monad_scope.
Notation "c ;;; k" := (bind c (fun _ => k))
  (at level 61, right associativity) : monad_scope.

(** [for x in l: body(x)] *)
Fixpoint for_each {A} (l : list A) (body : A -> M unit) : M unit :=
  match l with
  | [] => ret tt
  | x :: l' => (body x ;;; for_each l' body)%M
  end.

(** [secrets.token_bytes(n)] *)
Definition token_bytes (n : nat) : M bytes :=
  fun w =>
    (Ok (map (entropy w) (seq (drawn w) n)),
     {| MEDIA_ROOT := MEDIA_ROOT w; files := files w; entropy := entropy w;
        drawn := drawn w + n; next_id := next_id w;
        store_accepts := store_accepts w; put_calls := put_calls w |}).

(** The identity a newly created object gets. *)
Definition fresh_id : M nat :=
  fun w =>
    (Ok (next_id w),
     {| MEDIA_ROOT := MEDIA_ROOT w; files := files w; entropy := entropy w;
        drawn := drawn w; next_id := S (next_id w);
        store_accepts := store_accepts w; put_calls := put_calls w |}).

(** [open(path, "rb")], the whole content of the file *)
Definition open_rb (path : bytes) : M bytes :=
  fun w =>
    match files w path with
    | Some content => (Ok content, w)
    | None => (Raise (FileNotFoundError path), w)
    end.

(** [bucket.put_object] with its keyword arguments *)
Definition put_object (args : put_object_args) : M unit :=
  fun w =>
    let w' :=
      {| MEDIA_ROOT := MEDIA_ROOT w; files := files w; entropy := entropy w;
         drawn := drawn w; next_id := next_id w;
         store_accepts := store_accepts w;
         put_calls := put_calls w ++ [args] |} in
    if store_accepts w (length (put_calls w)) then (Ok tt, w')
    else (Raise ClientError, w').

(** * The program *)

Definition YEAR_SECONDS : Z := 365 * 24 * 3600.
Definition FILE_KEY_LENGTH : nat := 16.
Definition CHUNK_SIZE : Z := 8192.

Definition _IMAGE_MEDIA_TYPES : list string :=
  ["image/png"; "image/jpeg"; "image/gif"; "image/webp"].
Definition _IMAGE_EXTENSIONS : list string := [".png"; ".jpg"; ".gif"; ".webp"].

Module ImageContentType.

(** The format a static image is stored in. *)
Inductive t := PNG | JPEG | GIF_STATIC | WEBP_STATIC.

Definition value (self : t) : Z :=
  match self with
  | PNG => 1
  | JPEG => 2
  | GIF_STATIC => 3
  | WEBP_STATIC => 4
  end.

Definition serialize_to (self : t) (f : bytes) : result bytes :=
  (b <-! Py.bytes_of_ints [value self] ;; Ok (f ++ b))%res.

Definition media_type (self : t) : result string :=
  Py.tuple_get _IMAGE_MEDIA_TYPES (value self - 1).

Definition extension (self : t) : result string :=
  Py.tuple_get _IMAGE_EXTENSIONS (value self - 1).

End ImageContentType.

Module ImageRepresentation.

(** [oid] is the identity of the object, what [is] compares. *)
Record t := {
  oid : nat;
  content_type : ImageContentType.t;
  file_key : bytes;
  width : Z;
  height : Z
}.

Definition init (content_type : ImageContentType.t) (file_key : bytes)
    (width height : Z) : M t :=
  if negb ((1 <=? width)%Z && (width <=? 16383)%Z) then
    raise (ValueError (append "Image width out of range: "
                              (Py.str_of_int width)))
  else if negb ((1 <=? height)%Z && (height <=? 16383)%Z) then
    raise (ValueError (append "Image height out of range: "
                              (Py.str_of_int height)))
  else if negb (length file_key =? FILE_KEY_LENGTH)%nat then
    raise (ValueError (append "Invalid file key: " (Py.repr_bytes file_key)))
  else
    (self <- fresh_id ;;
     ret {| oid := self; content_type := content_type;
            file_key := file_key; width := width; height := height |})%M.

Definition serialize_to (self : t) (f : bytes) : result bytes :=
  (f <-! ImageContentType.serialize_to (content_type self) f ;;
   let f := f ++ file_key self in
   b <-! Py.struct_pack_HH (width self) (height self) ;;
   Ok (f ++ b))%res.

(** [a is b] *)
Definition is_ (a b : t) : bool := (oid a =? oid b)%nat.

End ImageRepresentation.

Module ImageRepresentations.

(** Representations (e.g. crops/resizes) of a static image. *)
Record t := {
  original : ImageRepresentation.t;
  cover : ImageRepresentation.t;
  thumbnail_custom : option ImageRepresentation.t;
  thumbnail_generated : ImageRepresentation.t;
  thumbnail_generated_webp : option ImageRepresentation.t
}.

Definition init (original : ImageRepresentation.t)
    (cover thumbnail_custom thumbnail_generated thumbnail_generated_webp :
       option ImageRepresentation.t) : t :=
  let cover :=
    match cover with
    | None => original
    | Some c => c
    end in
  let thumbnail_generated :=
    match thumbnail_generated with
    | None => cover
    | Some g => g
    end in
  {| original := original; cover := cover;
     thumbnail_custom := thumbnail_custom;
     thumbnail_generated := thumbnail_generated;
     thumbnail_generated_webp := thumbnail_generated_webp |}.

(** [x is not None] *)
Definition is_not_None {A} (x : option A) : bool :=
  match x with
  | Some _ => true
  | None => false
  end.

Definition included_mask (self : t) : Z :=
  Z.lor
    (Z.lor
       (Z.lor
          (Z.b2z (negb (ImageRepresentation.is_ (cover self) (original self))))
          (Z.shiftl
             (Z.b2z (negb (ImageRepresentation.is_ (thumbnail_generated self)
                                                   (cover self)))) 1))
       (Z.shiftl (Z.b2z (is_not_None (thumbnail_custom self))) 2))
    (Z.shiftl (Z.b2z (is_not_None (thumbnail_generated_webp self))) 5).

Definition serialize_to (self : t) (f : bytes) : result bytes :=
  (m <-! Py.bytes_of_ints [included_mask self] ;;
   let f := f ++ m in
   f <-! ImageRepresentation.serialize_to (original self) f ;;
   f <-! (if negb (ImageRepresentation.is_ (cover self) (original self))
          then ImageRepresentation.serialize_to (cover self) f
          else Ok f) ;;
   f <-! (if negb (ImageRepresentation.is_ (thumbnail_generated self)
                                           (cover self))
          then ImageRepresentation.serialize_to (thumbnail_generated self) f
          else Ok f) ;;
   f <-! match thumbnail_custom self with
         | Some c => ImageRepresentation.serialize_to c f
         | None => Ok f
         end ;;
   match thumbnail_generated_webp self with
   | Some c => ImageRepresentation.serialize_to c f
   | None => Ok f
   end)%res.

End ImageRepresentations.

(** A mapping from a media file_type representing a static image to its
    ImageContentType. *)
Definition IMAGE_CONTENT_TYPES : dict string ImageContentType.t :=
  [("gif", ImageContentType.GIF_STATIC);
   ("jpg", ImageContentType.JPEG);
   ("png", ImageContentType.PNG);
   ("webp", ImageContentType.WEBP_STATIC)].

(** A row's link: the JSON object the query builds for one media link.
    [attributes] holds the numbers of the media's attributes object. *)
Record link := {
  link_type : string;
  mediaid : Z;
  sha256 : string;
  file_type : string;
  attributes : dict string Z
}.

(** What [create_reps] keeps of a link in [media_by_mediaid]:
    [subdict(link, ["sha256", "file_type", "attributes"])]. *)
Record media := {
  media_sha256 : string;
  media_file_type : string;
  media_attributes : dict string Z
}.

Definition subdict_media (l : link) : media :=
  {| media_sha256 := sha256 l; media_file_type := file_type l;
     media_attributes := attributes l |}.

(** [repr] of a link; the keys come in the order PostgreSQL writes the keys
    of a jsonb object, shorter keys first. *)
Definition repr_link (l : link) : string :=
  String.concat EmptyString
    ["{'sha256': "; Py.repr_str (sha256 l);
     ", 'mediaid': "; Py.str_of_int (mediaid l);
     ", 'file_type': "; Py.repr_str (file_type l);
     ", 'link_type': "; Py.repr_str (link_type l);
     ", 'attributes': ";
     Py.repr_dict Py.repr_str Py.str_of_int (attributes l); "}"].

Definition repr_links (links : dict string link) : string :=
  Py.repr_dict Py.repr_str repr_link links.

(** Get an ImageRepresentation from a media dict representing a static
    image. *)
Definition rep_from_media (m : media) : M ImageRepresentation.t :=
  (content_type <- lift (dict_getitem (media_file_type m) IMAGE_CONTENT_TYPES) ;;
   file_key <- token_bytes FILE_KEY_LENGTH ;;
   width <- lift (dict_getitem "width" (media_attributes m)) ;;
   height <- lift (dict_getitem "height" (media_attributes m)) ;;
   ImageRepresentation.init content_type file_key width height)%M.

Definition get_bucket_key (rep : ImageRepresentation.t) : result string :=
  (base <-! Py.decode_ascii
              (Py.rstrip x3d
                 (Py.urlsafe_b64encode (ImageRepresentation.file_key rep))) ;;
   ext <-! ImageContentType.extension (ImageRepresentation.content_type rep) ;;
   Ok (append base ext))%res.

Section Helpers.
Context {K : Type} `{Key K}.

Fixpoint lookup_by_from {X} (iterable : list X) (key_func : X -> K)
    (res : dict K X) : result (dict K X) :=
  match iterable with
  | [] => Ok res
  | x :: rest =>
      let key := key_func x in
      if dict_mem key res then
        Raise (ValueError (append "Unexpected duplicate key " (key_repr key)))
      else lookup_by_from rest key_func (dict_set key x res)
  end.

Definition lookup_by {X} (iterable : list X) (key_func : X -> K) :
    result (dict K X) :=
  lookup_by_from iterable key_func [].

(** One turn of the comprehension of [subdict]: [k] is taken when it is in
    [d]. *)
Definition subdict_step {V} (d : dict K V) (acc : dict K V) (k : K) :
    dict K V :=
  match dict_get k d with
  | Some v => dict_set k v acc
  | None => acc
  end.

Definition subdict {V} (d : dict K V) (keys : list K) : dict K V :=
  fold_left (subdict_step d) keys [].

Fixpoint map_values_from {V W} (func : V -> M W) (items : list (K * V))
    (acc : dict K W) : M (dict K W) :=
  match items with
  | [] => ret acc
  | (k, v) :: rest =>
      (y <- func v ;; map_values_from func rest (dict_set k y acc))%M
  end.

Definition map_values {V W} (func : V -> M W) (d : dict K V) : M (dict K W) :=
  map_values_from func d [].
End Helpers.

Definition known_link_types : list string :=
  ["submission"; "cover"; "thumbnail-custom"; "thumbnail-generated";
   "thumbnail-generated-webp"].

(** The links of a row that [create_reps] keeps, by link type. *)
Definition retained_links (row_links : list link) : result (dict string link) :=
  (by_type <-! lookup_by row_links link_type ;;
   Ok (subdict by_type known_link_types))%res.

Definition media_by_mediaid_of (links : dict string link) : dict Z media :=
  fold_left (fun acc l => dict_set (mediaid l) (subdict_media l) acc)
            (dict_values links) [].

(** The result of [get_rep] can be [None] only when [missing_ok] is set. *)
Definition get_rep_result (missing_ok : bool) : Type :=
  if missing_ok then option ImageRepresentation.t else ImageRepresentation.t.

Definition get_rep (links : dict string link)
    (rep_by_mediaid : dict Z ImageRepresentation.t)
    (link_type : string) (missing_ok : bool) :
    result (get_rep_result missing_ok) :=
  match dict_get link_type links with
  | None =>
      match missing_ok return result (get_rep_result missing_ok) with
      | true => Ok None
      | false =>
          Raise (ExceptionFrom
                   (append "Required key not found in " (repr_links links))
                   (KeyError (KStr link_type)))
      end
  | Some l =>
      match dict_getitem (mediaid l) rep_by_mediaid with
      | Ok rep =>
          Ok (match missing_ok return get_rep_result missing_ok with
              | true => Some rep
              | false => rep
              end)
      | Raise e => Raise e
      end
  end.

(** What the loop over the reads of [CHUNK_SIZE] bytes, which ends at the
    first empty read, has done so far: the bytes fed to each digest, the
    length counted and the position of the file. *)
Record reading := {
  md5_fed : bytes;
  sha256_fed : bytes;
  content_length : Z;
  position : nat
}.

Fixpoint read_loop (fuel : nat) (media_file : bytes) (st : reading) : reading :=
  match fuel with
  | O => st
  | S fuel' =>
      match firstn (Z.to_nat CHUNK_SIZE) (skipn (position st) media_file) with
      | [] => st
      | chunk =>
          read_loop fuel' media_file
            {| md5_fed := md5_fed st ++ chunk;
               sha256_fed := sha256_fed st ++ chunk;
               content_length := content_length st + Z.of_nat (length chunk);
               position := position st + length chunk |}
      end
  end.

(** Every turn of the loop reads at least one byte, so it ends within as many
    turns as the file has bytes, plus the empty read. *)
Definition read_all (media_file : bytes) : reading :=
  read_loop (S (length media_file)) media_file
    {| md5_fed := []; sha256_fed := []; content_length := 0; position := 0 |}.

(** Where the bytes of a media item are kept under [MEDIA_ROOT]: three
    directories named by the first three pairs of characters of its sha256,
    then the sha256 with the file type as extension. *)
Definition file_path_of (root : bytes) (m : media) : result bytes :=
  (p1 <-! Py.encode_ascii (Py.slice 0 2 (media_sha256 m)) ;;
   p2 <-! Py.encode_ascii (Py.slice 2 4 (media_sha256 m)) ;;
   p3 <-! Py.encode_ascii (Py.slice 4 6 (media_sha256 m)) ;;
   p4 <-! Py.encode_ascii
            (append (media_sha256 m) (append "." (media_file_type m))) ;;
   Ok (Py.path_join root [p1; p2; p3; p4]))%res.

(** The body of the loop that uploads each created representation. *)
Definition upload (media_by_mediaid : dict Z media)
    (item : Z * ImageRepresentation.t) : M unit :=
  let (mediaid, rep) := item in
  (m <- lift (dict_getitem mediaid media_by_mediaid) ;;
   root <- (fun w => (Ok (MEDIA_ROOT w), w)) ;;
   file_path <- lift (file_path_of root m) ;;
   media_file <- open_rb file_path ;;
   let st := read_all media_file in
   let hexdigest := hex (Hashlib.sha256 (sha256_fed st)) in
   if negb (String.eqb hexdigest (media_sha256 m)) then
     raise (Exception
              (String.concat EmptyString
                 ["SHA-256 mismatch: got "; Py.repr_str hexdigest;
                  " for "; Py.repr_bytes file_path]))
   else
     content_md5 <- lift (Py.decode_ascii
                            (Py.b64encode (Hashlib.md5 (md5_fed st)))) ;;
     content_type <- lift (ImageContentType.media_type
                             (ImageRepresentation.content_type rep)) ;;
     key <- lift (get_bucket_key rep) ;;
     put_object
       {| Body := media_file;
          CacheControl :=
            String.concat EmptyString
              ["public, max-age="; Py.str_of_int YEAR_SECONDS; ", immutable"];
          ContentMD5 := content_md5;
          ContentLength := content_length st;
          ContentType := content_type;
          Key_ := key |})%M.

Definition create_reps (row_links : list link) :
    M (ImageRepresentations.t * nat) :=
  (links <- lift (retained_links row_links) ;;
   let media_by_mediaid := media_by_mediaid_of links in
   (* create a representation for each distinct media item *)
   rep_by_mediaid <- map_values rep_from_media media_by_mediaid ;;
   original <- lift (get_rep links rep_by_mediaid "submission" false) ;;
   cover <- lift (get_rep links rep_by_mediaid "cover" false) ;;
   thumbnail_custom <-
     lift (get_rep links rep_by_mediaid "thumbnail-custom" true) ;;
   thumbnail_generated <-
     lift (get_rep links rep_by_mediaid "thumbnail-generated" false) ;;
   thumbnail_generated_webp <-
     lift (get_rep links rep_by_mediaid "thumbnail-generated-webp" true) ;;
   let reps :=
     ImageRepresentations.init original (Some cover) thumbnail_custom
       (Some thumbnail_generated) thumbnail_generated_webp in
   (* upload each created representation to bucket *)
   for_each rep_by_mediaid (upload media_by_mediaid) ;;;
   ret (reps, length rep_by_mediaid))%M.

(** * Definitions the statements use *)

(** The invariant the constructor of [ImageRepresentation] establishes. *)
Definition valid_representation (r : ImageRepresentation.t) : Prop :=
  (1 <= ImageRepresentation.width r <= 16383)%Z
  /\ (1 <= ImageRepresentation.height r <= 16383)%Z
  /\ length (ImageRepresentation.file_key r) = 16.

(** The bytes [serialize_to] writes for a representation. *)
Definition rep_bytes (r : ImageRepresentation.t) : bytes :=
  match ImageRepresentation.serialize_to r [] with
  | Ok b => b
  | Raise _ => []
  end.

(** A representation of 800 by 600 pixels and one of 200 by 150, as two
    distinct objects. *)
Definition rep_A : ImageRepresentation.t :=
  {| ImageRepresentation.oid := 0;
     ImageRepresentation.content_type := ImageContentType.PNG;
     ImageRepresentation.file_key := map byte_of_N (map N.of_nat (seq 0 16));
     ImageRepresentation.width := 800;
     ImageRepresentation.height := 600 |}.

Definition rep_B : ImageRepresentation.t :=
  {| ImageRepresentation.oid := 1;
     ImageRepresentation.content_type := ImageContentType.JPEG;
     ImageRepresentation.file_key := map byte_of_N (map N.of_nat (seq 16 16));
     ImageRepresentation.width := 200;
     ImageRepresentation.height := 150 |}.

(** The set of the end-to-end scenario: the original also serves as cover,
    the generated thumbnail is another object, and there is neither a custom
    thumbnail nor a webp one. *)
Definition reps_AB : ImageRepresentations.t :=
  ImageRepresentations.init rep_A None None (Some rep_B) None.

Definition valid_representations (rs : ImageRepresentations.t) : Prop :=
  valid_representation (ImageRepresentations.original rs)
  /\ valid_representation (ImageRepresentations.cover rs)
  /\ valid_representation (ImageRepresentations.thumbnail_generated rs)
  /\ (forall c, ImageRepresentations.thumbnail_custom rs = Some c ->
                valid_representation c)
  /\ (forall c, ImageRepresentations.thumbnail_generated_webp rs = Some c ->
                valid_representation c).

Definition opt_rep_bytes (o : option ImageRepresentation.t) : bytes :=
  match o with
  | Some r => rep_bytes r
  | None => []
  end.

(** Bit [i] of a byte, bit 0 being the least significant. *)
Definition byte_bit (b : byte) (i : N) : bool := N.testbit (Byte.to_N b) i.

(** URL-safe base64 without padding (RFC 4648, section 5, the padding left
    out): three bytes give four characters of the URL-safe alphabet, a last
    group of one byte gives two and one of two bytes gives three. *)
Definition urlsafe_alphabet : string :=
  "ABCDEFGHIJKLMNOPQRSTUVWXYZabcdefghijklmnopqrstuvwxyz0123456789-_".

Fixpoint urlsafe_base64_no_padding (s : bytes) : bytes :=
  match s with
  | [] => []
  | [a] => map (Py.b64_char urlsafe_alphabet) (firstn 2 (Py.sextets3 a x00 x00))
  | [a; b] => map (Py.b64_char urlsafe_alphabet) (firstn 3 (Py.sextets3 a b x00))
  | a :: b :: c :: s' =>
      map (Py.b64_char urlsafe_alphabet) (Py.sextets3 a b c)
      ++ urlsafe_base64_no_padding s'
  end.

(** Letters, digits, [-] and [_]. *)
Definition urlsafe_char (c : byte) : bool :=
  let n := Byte.to_N c in
  ((65 <=? n) && (n <=? 90) || (97 <=? n) && (n <=? 122)
   || (48 <=? n) && (n <=? 57) || (n =? 45) || (n =? 95))%N.

Definition sextet_ok (n : N) : bool :=
  let c := Py.b64_char urlsafe_alphabet n in
  Byte.eqb (Py.urlsafe_translate (Py.b64_char Py.b64_alphabet n)) c
  && negb (Byte.eqb c x3d) && urlsafe_char c && (Byte.to_N c <? 128)%N.

(** The media record [m] with [s] as its sha256. *)
Definition with_sha256 (s : string) (m : media) : media :=
  {| media_sha256 := s; media_file_type := media_file_type m;
     media_attributes := media_attributes m |}.

(** Two worlds with the same files, the same store and the same calls made
    to it. *)
Definition same_store (st st' : world) : Prop :=
  put_calls st' = put_calls st /\ MEDIA_ROOT st' = MEDIA_ROOT st
  /\ files st' = files st /\ store_accepts st' = store_accepts st
  /\ entropy st' = entropy st.

(** The distinct media ids among the links kept. *)
Definition distinct_mediaids (links : dict string link) : list Z :=
  nodup Z.eq_dec (map mediaid (dict_values links)).

(** The message of the exception raised on a digest that differs. *)
Definition mismatch_message (hexdigest : string) (file_path : bytes) : string :=
  String.concat EmptyString
    ["SHA-256 mismatch: got "; Py.repr_str hexdigest;
     " for "; Py.repr_bytes file_path].

(** A [put_object] call made for the media [k] and its representation: the
    body is the file of the media, its SHA-256 is the one the media record
    expects, and the key is the name made from the representation. *)
Definition verified_call (st : world) (media_by_mediaid : dict Z media)
    (k : Z) (rep : ImageRepresentation.t) (args : put_object_args) : Prop :=
  exists m path,
    dict_get k media_by_mediaid = Some m
    /\ file_path_of (MEDIA_ROOT st) m = Ok path
    /\ files st path = Some (Body args)
    /\ hex (Hashlib.sha256 (Body args)) = media_sha256 m
    /\ get_bucket_key rep = Ok (Key_ args)
    /\ ContentLength args = Z.of_nat (length (Body args))
    /\ ImageContentType.media_type (ImageRepresentation.content_type rep)
       = Ok (ContentType args).

(** The second world is the first one after the calls [calls] to
    [put_object]. *)
Definition after_puts (st st' : world) (calls : list put_object_args) : Prop :=
  put_calls st' = put_calls st ++ calls
  /\ MEDIA_ROOT st' = MEDIA_ROOT st /\ files st' = files st
  /\ store_accepts st' = store_accepts st /\ entropy st' = entropy st.

(** The slot of a set that a link type fills. *)
Definition slot (reps : ImageRepresentations.t) (role : string) :
    option ImageRepresentation.t :=
  if String.eqb role "submission" then Some (ImageRepresentations.original reps)
  else if String.eqb role "cover" then Some (ImageRepresentations.cover reps)
  else if String.eqb role "thumbnail-custom"
       then ImageRepresentations.thumbnail_custom reps
  else if String.eqb role "thumbnail-generated"
       then Some (ImageRepresentations.thumbnail_generated reps)
  else if String.eqb role "thumbnail-generated-webp"
       then ImageRepresentations.thumbnail_generated_webp reps
  else None.

(** A file system given as the list of its files, each with its path. *)
Fixpoint bytes_eqb (a b : bytes) : bool :=
  match a, b with
  | [], [] => true
  | x :: a', y :: b' => Byte.eqb x y && bytes_eqb a' b'
  | _, _ => false
  end.

Definition files_of (fs : list (bytes * bytes)) (path : bytes) : option bytes :=
  option_map snd (find (fun kv => bytes_eqb (fst kv) path) fs).

(** The SHA-256 of the empty file and of the file [abc]. *)
Definition sha256_empty : string :=
  "e3b0c44298fc1c149afbf4c8996fb92427ae41e4649b934ca495991b7852b855".
Definition sha256_abc : string :=
  "ba7816bf8f01cfea414140de5dae2223b00361a396177a9cb410ff61f20015ad".

(** A media store holding the empty file as a PNG and [abc] as a JPEG, an
    entropy source that counts up from zero and a bucket that takes every
    object. *)
Definition example_files : bytes -> option bytes :=
  files_of
    [(bytes_of_str (append "/media/e3/b0/c4/" (append sha256_empty ".png")), []);
     (bytes_of_str (append "/media/ba/78/16/" (append sha256_abc ".jpg")),
      [x61; x62; x63])].

Definition example_world : world :=
  {| MEDIA_ROOT := bytes_of_str "/media";
     files := example_files;
     entropy := fun n => byte_of_N (N.of_nat n);
     drawn := 0;
     next_id := 0;
     store_accepts := fun _ => true;
     put_calls := [] |}.

(** Media 1 is 800 by 600 and a PNG, media 2 is 200 by 150 and a JPEG. *)
Definition link_M1 (role : string) : link :=
  {| link_type := role; mediaid := 1; sha256 := sha256_empty;
     file_type := "png"; attributes := [("width", 800%Z); ("height", 600%Z)] |}.

Definition link_M2 (role : string) : link :=
  {| link_type := role; mediaid := 2; sha256 := sha256_abc;
     file_type := "jpg"; attributes := [("width", 200%Z); ("height", 150%Z)] |}.

(** The row of the end-to-end scenario. *)
Definition example_row : list link :=
  [link_M1 "submission"; link_M1 "cover"; link_M2 "thumbnail-generated"].

(** The world of the example with the file of media 2 damaged: it holds
    [abd] where the record expects the SHA-256 of [abc]. *)
Definition damaged_world : world :=
  {| MEDIA_ROOT := bytes_of_str "/media";
     files :=
       files_of
         [(bytes_of_str
             (append "/media/e3/b0/c4/" (append sha256_empty ".png")), []);
          (bytes_of_str
             (append "/media/ba/78/16/" (append sha256_abc ".jpg")),
           [x61; x62; x64])];
     entropy := fun n => byte_of_N (N.of_nat n);
     drawn := 0;
     next_id := 0;
     store_accepts := fun _ => true;
     put_calls := [] |}.

(** The row of the example without its cover link. *)
Definition row_without_cover : list link :=
  [link_M1 "submission"; link_M2 "thumbnail-generated"].

(** The mapping [rep_by_mediaid] that a run of [create_reps] builds; it is
    local to the function. *)
Definition rep_by_mediaid_of (row : list link) :
    M (dict Z ImageRepresentation.t) :=
  (links <- lift (retained_links row) ;;
   map_values rep_from_media (media_by_mediaid_of links))%M.

(** Two rows that differ in the id of their one media item only. *)
Definition row_on_media (id : Z) : list link :=
  map (fun role =>
         {| link_type := role; mediaid := id; sha256 := sha256_empty;
            file_type := "png";
            attributes := [("width", 800%Z); ("height", 600%Z)] |})
      ["submission"; "cover"; "thumbnail-generated"].

(** The dictionary [lookup_by] builds when no key comes twice: every item
    under its key, in the order of the items. *)
Definition keyed {K X} (key_func : X -> K) (iterable : list X) : list (K * X) :=
  map (fun x => (key_func x, x)) iterable.

(** Whether the role of a link is one of those [create_reps] knows. *)
Definition known_link (l : link) : bool :=
  existsb (String.eqb (link_type l)) known_link_types.

(** A row with a role that [create_reps] does not know, given twice. *)
Definition row_with_repeated_unknown : list link :=
  example_row ++ [link_M2 "banner"; link_M1 "banner"].

(** How many of the four optional parts of a set are written. *)
Definition included_count (rs : ImageRepresentations.t) : nat :=
  Nat.b2n (negb (ImageRepresentation.is_ (ImageRepresentations.cover rs)
                                         (ImageRepresentations.original rs)))
  + Nat.b2n (negb (ImageRepresentation.is_
                     (ImageRepresentations.thumbnail_generated rs)
                     (ImageRepresentations.cover rs)))
  + Nat.b2n (ImageRepresentations.is_not_None
               (ImageRepresentations.thumbnail_custom rs))
  + Nat.b2n (ImageRepresentations.is_not_None
               (ImageRepresentations.thumbnail_generated_webp rs)).

(** A name of ASCII characters none of which is the separator of paths. *)
Definition plain_name (s : string) : bool :=
  forallb (fun c => (c <? 128)%N && negb (c =? 47)%N) (codes s).

Definition ascii_only (s : string) : bool :=
  forallb (fun c => (c <? 128)%N) (codes s).

(** [b"/"] after a path that does not end with it, as [os.path.join] puts
    it. *)
Definition sep_after (path : bytes) : bytes :=
  if Py.endswith_sep path then [] else [x2f].

(** What every call of [put_object] declares of its body. *)
Definition call_headers (args : put_object_args) : Prop :=
  CacheControl args = "public, max-age=31536000, immutable"
  /\ Py.decode_ascii (Py.b64encode (Hashlib.md5 (Body args)))
     = Ok (ContentMD5 args)
  /\ String.length (ContentMD5 args) = 24
  /\ ContentLength args = Z.of_nat (length (Body args))
  /\ In (ContentType args) _IMAGE_MEDIA_TYPES.

(** A media record from which a representation can be made: its file type
    is one of the four, and it has a width and a height within the bounds
    of the constructor. *)
Definition media_usable (m : media) : bool :=
  match dict_get (media_file_type m) IMAGE_CONTENT_TYPES,
        dict_get "width" (media_attributes m),
        dict_get "height" (media_attributes m) with
  | Some _, Some w, Some h =>
      ((1 <=? w)%Z && (w <=? 16383)%Z) && ((1 <=? h)%Z && (h <=? 16383)%Z)
  | _, _, _ => false
  end.

(** The example row with a generated thumbnail that is a bitmap. *)
Definition row_with_bitmap : list link :=
  [link_M1 "submission"; link_M1 "cover";
   {| link_type := "thumbnail-generated"; mediaid := 2; sha256 := sha256_abc;
      file_type := "bmp";
      attributes := [("width", 200%Z); ("height", 150%Z)] |}].

(** A row without a cover link whose submission is a bitmap. *)
Definition row_bitmap_without_cover : list link :=
  [{| link_type := "submission"; mediaid := 1; sha256 := sha256_empty;
      file_type := "bmp";
      attributes := [("width", 800%Z); ("height", 600%Z)] |};
   link_M2 "thumbnail-generated"].

(** A row with a WebP thumbnail and no generated thumbnail. *)
Definition row_without_generated : list link :=
  [link_M1 "submission"; link_M1 "cover"; link_M2 "thumbnail-generated-webp"].

(** * Bytes and their numeric value *)

Lemma to_N_byte_of_N (n : N) : (n < 256)%N -> Byte.to_N (byte_of_N n) = n.
Proof.
  intros Hn. unfold byte_of_N. rewrite N.mod_small by exact Hn.
  destruct (Byte.of_N n) as [b|] eqn:E.
  - now apply Byte.to_of_N.
  - apply Byte.of_N_None_iff in E. lia.
Qed.

Lemma to_N_byte_of_Z (z : Z) :
  (0 <= z < 256)%Z -> Z.of_N (Byte.to_N (byte_of_Z z)) = z.
Proof.
  intros Hz. unfold byte_of_Z. rewrite to_N_byte_of_N by lia. lia.
Qed.

Lemma bytes_of_ints_one (z : Z) :
  (0 <= z < 256)%Z -> Py.bytes_of_ints [z] = Ok [byte_of_Z z].
Proof.
  intros Hz. cbn.
  destruct (0 <=? z)%Z eqn:E1; [|lia].
  destruct (z <? 256)%Z eqn:E2; [|lia]. reflexivity.
Qed.

Lemma pack_H_big_endian (z : Z) :
  (0 <= z <= 65535)%Z ->
  exists hi lo,
    Py.pack_H z = Ok [hi; lo]
    /\ (Z.of_N (Byte.to_N hi) * 256 + Z.of_N (Byte.to_N lo))%Z = z.
Proof.
  intros Hz. unfold Py.pack_H.
  destruct (0 <=? z)%Z eqn:E1; [|lia].
  destruct (z <=? 65535)%Z eqn:E2; [|lia]. cbn [andb].
  exists (byte_of_Z (Z.shiftr z 8)), (byte_of_Z (Z.land z 255)).
  split; [reflexivity|].
  rewrite Z.shiftr_div_pow2 by lia.
  change 255%Z with (Z.ones 8). rewrite Z.land_ones by lia.
  change (2 ^ 8)%Z with 256%Z.
  assert (0 <= z / 256 < 256)%Z.
  { split; [apply Z.div_pos; lia | apply Z.div_lt_upper_bound; lia]. }
  assert (0 <= z mod 256 < 256)%Z by (apply Z.mod_pos_bound; lia).
  rewrite !to_N_byte_of_Z by assumption.
  pose proof (Z.div_mod z 256). lia.
Qed.

Lemma struct_pack_HH_big_endian (a b : Z) :
  (0 <= a <= 65535)%Z -> (0 <= b <= 65535)%Z ->
  exists ah al bh bl,
    Py.struct_pack_HH a b = Ok [ah; al; bh; bl]
    /\ (Z.of_N (Byte.to_N ah) * 256 + Z.of_N (Byte.to_N al))%Z = a
    /\ (Z.of_N (Byte.to_N bh) * 256 + Z.of_N (Byte.to_N bl))%Z = b.
Proof.
  intros Ha Hb.
  destruct (pack_H_big_endian a Ha) as (ah & al & Ea & Va).
  destruct (pack_H_big_endian b Hb) as (bh & bl & Eb & Vb).
  exists ah, al, bh, bl. unfold Py.struct_pack_HH. rewrite Ea, Eb.
  repeat split; assumption.
Qed.

(** * The fixed layout of one representation *)

Lemma content_type_byte (ct : ImageContentType.t) (f : bytes) :
  ImageContentType.serialize_to ct f =
  Ok (f ++ [match ct with
            | ImageContentType.PNG => x01
            | ImageContentType.JPEG => x02
            | ImageContentType.GIF_STATIC => x03
            | ImageContentType.WEBP_STATIC => x04
            end]).
Proof. destruct ct; reflexivity. Qed.

(** C2, as amended.  For every valid representation, [serialize_to] appends
    exactly 21 bytes to the buffer (1 + 16 + 2 + 2, not 20): one byte holding
    the 1-based ordinal of the content type (PNG 1, JPEG 2, GIF_STATIC 3,
    WEBP_STATIC 4), the 16 bytes of the file key as they are, the width as two
    bytes, most significant first, and the height likewise; nothing comes
    before, between or after them. *)
Theorem representation_layout (r : ImageRepresentation.t) (f : bytes) :
  valid_representation r ->
  exists ct wh wl hh hl,
    ImageRepresentation.serialize_to r f =
      Ok (f ++ [ct] ++ ImageRepresentation.file_key r ++ [wh; wl; hh; hl])
    /\ length ([ct] ++ ImageRepresentation.file_key r ++ [wh; wl; hh; hl]) = 21
    /\ ct = match ImageRepresentation.content_type r with
            | ImageContentType.PNG => x01
            | ImageContentType.JPEG => x02
            | ImageContentType.GIF_STATIC => x03
            | ImageContentType.WEBP_STATIC => x04
            end
    /\ Z.of_N (Byte.to_N ct)
       = ImageContentType.value (ImageRepresentation.content_type r)
    /\ (Z.of_N (Byte.to_N wh) * 256 + Z.of_N (Byte.to_N wl))%Z
       = ImageRepresentation.width r
    /\ (Z.of_N (Byte.to_N hh) * 256 + Z.of_N (Byte.to_N hl))%Z
       = ImageRepresentation.height r.
Proof.
  intros (Hw & Hh & Hk).
  destruct (struct_pack_HH_big_endian (ImageRepresentation.width r)
              (ImageRepresentation.height r))
    as (wh & wl & hh & hl & E & Vw & Vh); [lia|lia|].
  eexists _, wh, wl, hh, hl.
  split; [|split; [|split; [reflexivity|split; [|split; assumption]]]].
  - unfold ImageRepresentation.serialize_to. rewrite content_type_byte.
    rewrite E. cbn [rbind].
    rewrite <- !app_assoc. reflexivity.
  - rewrite !length_app, Hk. cbn. reflexivity.
  - destruct (ImageRepresentation.content_type r); reflexivity.
Qed.

Lemma representation_layout_witness :
  exists ct wh wl hh hl,
    ImageRepresentation.serialize_to
      {| ImageRepresentation.oid := 0;
         ImageRepresentation.content_type := ImageContentType.JPEG;
         ImageRepresentation.file_key := repeat xab 16;
         ImageRepresentation.width := 800;
         ImageRepresentation.height := 16383 |} [xff] =
      Ok ([xff] ++ [ct] ++ repeat xab 16 ++ [wh; wl; hh; hl])
    /\ length ([ct] ++ repeat xab 16 ++ [wh; wl; hh; hl]) = 21
    /\ ct = x02
    /\ Z.of_N (Byte.to_N ct) = 2%Z
    /\ (Z.of_N (Byte.to_N wh) * 256 + Z.of_N (Byte.to_N wl))%Z = 800%Z
    /\ (Z.of_N (Byte.to_N hh) * 256 + Z.of_N (Byte.to_N hl))%Z = 16383%Z.
Proof.
  apply (representation_layout
           {| ImageRepresentation.oid := 0;
              ImageRepresentation.content_type := ImageContentType.JPEG;
              ImageRepresentation.file_key := repeat xab 16;
              ImageRepresentation.width := 800;
              ImageRepresentation.height := 16383 |} [xff]).
  unfold valid_representation; cbn. repeat split; lia.
Defined.

Lemma serialize_to_buffer (r : ImageRepresentation.t) (f : bytes) :
  ImageRepresentation.serialize_to r f =
  match ImageRepresentation.serialize_to r [] with
  | Ok b => Ok (f ++ b)
  | Raise e => Raise e
  end.
Proof.
  unfold ImageRepresentation.serialize_to. rewrite !content_type_byte.
  cbn [rbind app].
  destruct (Py.struct_pack_HH _ _) as [b|e]; cbn [rbind]; [|reflexivity].
  rewrite <- !app_assoc. reflexivity.
Qed.

Lemma serialize_rep_bytes (r : ImageRepresentation.t) (f : bytes) :
  valid_representation r ->
  ImageRepresentation.serialize_to r f = Ok (f ++ rep_bytes r)
  /\ length (rep_bytes r) = 21.
Proof.
  intros (Hw & Hh & Hk).
  destruct (struct_pack_HH_big_endian (ImageRepresentation.width r)
              (ImageRepresentation.height r))
    as (wh & wl & hh & hl & E & _ & _); [lia|lia|].
  rewrite serialize_to_buffer. unfold rep_bytes.
  unfold ImageRepresentation.serialize_to. rewrite content_type_byte, E.
  cbn [rbind]. split; [reflexivity|].
  rewrite !length_app, Hk. reflexivity.
Qed.

(** C2, the claim as stated fails: a valid representation is written as 21
    bytes, one more than the 20 the claim counts. *)
Lemma representation_not_20_bytes :
  valid_representation rep_A
  /\ ImageRepresentation.serialize_to rep_A [] =
       Ok ([x01] ++ ImageRepresentation.file_key rep_A ++ [x03; x20; x02; x58])
  /\ length ([x01] ++ ImageRepresentation.file_key rep_A ++ [x03; x20; x02; x58])
     = 21
  /\ length ([x01] ++ ImageRepresentation.file_key rep_A ++ [x03; x20; x02; x58])
     <> 20.
Proof.
  split; [unfold valid_representation; cbn; lia|].
  split; [reflexivity|]. split; [reflexivity|]. cbn. lia.
Qed.

(** * Construction of a representation *)

(** C3.  Constructing a representation succeeds for every width and height
    from 1 to 16383 and every key of 16 bytes, whatever the content type;
    otherwise it raises a ValueError whose message names the first offending
    field (width, then height, then the file key) and gives its value, and
    nothing is created: the world is left as it was. *)
Theorem representation_construction (ct : ImageContentType.t) (fk : bytes)
    (w h : Z) (st : world) :
  ((1 <= w <= 16383)%Z -> (1 <= h <= 16383)%Z -> length fk = 16 ->
   exists st',
     ImageRepresentation.init ct fk w h st =
       (Ok {| ImageRepresentation.oid := next_id st;
              ImageRepresentation.content_type := ct;
              ImageRepresentation.file_key := fk;
              ImageRepresentation.width := w;
              ImageRepresentation.height := h |}, st')
     /\ next_id st' = S (next_id st))
  /\ (~ (1 <= w <= 16383)%Z ->
      ImageRepresentation.init ct fk w h st =
        (Raise (ValueError (append "Image width out of range: "
                                   (Py.str_of_int w))), st))
  /\ ((1 <= w <= 16383)%Z -> ~ (1 <= h <= 16383)%Z ->
      ImageRepresentation.init ct fk w h st =
        (Raise (ValueError (append "Image height out of range: "
                                   (Py.str_of_int h))), st))
  /\ ((1 <= w <= 16383)%Z -> (1 <= h <= 16383)%Z -> length fk <> 16 ->
      ImageRepresentation.init ct fk w h st =
        (Raise (ValueError (append "Invalid file key: " (Py.repr_bytes fk))),
         st))
  /\ (~ ((1 <= w <= 16383)%Z /\ (1 <= h <= 16383)%Z /\ length fk = 16) ->
      exists msg,
        ImageRepresentation.init ct fk w h st = (Raise (ValueError msg), st)).
Proof.
  unfold ImageRepresentation.init, FILE_KEY_LENGTH.
  destruct ((1 <=? w)%Z && (w <=? 16383)%Z) eqn:Ew; cbn [negb].
  2:{ assert (Hw : ~ (1 <= w <= 16383)%Z).
      { apply andb_false_iff in Ew. rewrite !Z.leb_gt in Ew. lia. }
      split; [intros; contradiction|].
      split; [reflexivity|].
      split; [intros; contradiction|].
      split; [intros; contradiction|]. intros _. eexists. reflexivity. }
  assert (Hw : (1 <= w <= 16383)%Z).
  { apply andb_true_iff in Ew. rewrite !Z.leb_le in Ew. lia. }
  destruct ((1 <=? h)%Z && (h <=? 16383)%Z) eqn:Eh; cbn [negb].
  2:{ assert (Hh : ~ (1 <= h <= 16383)%Z).
      { apply andb_false_iff in Eh. rewrite !Z.leb_gt in Eh. lia. }
      split; [intros; contradiction|].
      split; [intros; contradiction|].
      split; [reflexivity|].
      split; [intros; contradiction|]. intros _. eexists. reflexivity. }
  assert (Hh : (1 <= h <= 16383)%Z).
  { apply andb_true_iff in Eh. rewrite !Z.leb_le in Eh. lia. }
  destruct (length fk =? 16)%nat eqn:Ek;
    [apply Nat.eqb_eq in Ek | apply Nat.eqb_neq in Ek]; cbn [negb].
  - split; [intros; eexists; split; reflexivity|].
    split; [intros; contradiction|].
    split; [intros; contradiction|].
    split; [intros; contradiction|]. intros Hn. exfalso. tauto.
  - split; [intros; contradiction|].
    split; [intros; contradiction|].
    split; [intros; contradiction|].
    split; [reflexivity|]. intros _. eexists. reflexivity.
Qed.

Lemma representation_construction_witness :
  (exists st',
     ImageRepresentation.init ImageContentType.PNG
       (ImageRepresentation.file_key rep_A) 800 600
       {| MEDIA_ROOT := []; files := fun _ => None; entropy := fun _ => x00;
          drawn := 0; next_id := 0; store_accepts := fun _ => true;
          put_calls := [] |} = (Ok rep_A, st')
     /\ next_id st' = 1)
  /\ ImageRepresentation.init ImageContentType.PNG
       (ImageRepresentation.file_key rep_A) 0 600
       {| MEDIA_ROOT := []; files := fun _ => None; entropy := fun _ => x00;
          drawn := 0; next_id := 0; store_accepts := fun _ => true;
          put_calls := [] |}
     = (Raise (ValueError "Image width out of range: 0"),
        {| MEDIA_ROOT := []; files := fun _ => None; entropy := fun _ => x00;
           drawn := 0; next_id := 0; store_accepts := fun _ => true;
           put_calls := [] |})
  /\ ImageRepresentation.init ImageContentType.PNG
       (ImageRepresentation.file_key rep_A) 800 16384
       {| MEDIA_ROOT := []; files := fun _ => None; entropy := fun _ => x00;
          drawn := 0; next_id := 0; store_accepts := fun _ => true;
          put_calls := [] |}
     = (Raise (ValueError "Image height out of range: 16384"),
        {| MEDIA_ROOT := []; files := fun _ => None; entropy := fun _ => x00;
           drawn := 0; next_id := 0; store_accepts := fun _ => true;
           put_calls := [] |})
  /\ ImageRepresentation.init ImageContentType.PNG [x00; x41] 800 600
       {| MEDIA_ROOT := []; files := fun _ => None; entropy := fun _ => x00;
          drawn := 0; next_id := 0; store_accepts := fun _ => true;
          put_calls := [] |}
     = (Raise (ValueError "Invalid file key: b'\x00A'"),
        {| MEDIA_ROOT := []; files := fun _ => None; entropy := fun _ => x00;
           drawn := 0; next_id := 0; store_accepts := fun _ => true;
           put_calls := [] |}).
Proof.
  split; [|split; [|split]].
  - apply (representation_construction ImageContentType.PNG
             (ImageRepresentation.file_key rep_A) 800 600);
      [lia|lia|reflexivity].
  - apply (representation_construction ImageContentType.PNG
             (ImageRepresentation.file_key rep_A) 0 600). lia.
  - apply (representation_construction ImageContentType.PNG
             (ImageRepresentation.file_key rep_A) 800 16384); lia.
  - apply (representation_construction ImageContentType.PNG
             [x00; x41] 800 600); [lia|lia|cbn; lia].
Defined.

(** * Defaults of a set of representations *)

(** C4.  [ImageRepresentations] resolves the default of [cover] first and
    that of [thumbnail_generated] after it: an absent cover is the original
    itself, an absent generated thumbnail is the resolved cover, so with both
    absent the three slots hold one object and bits 0 and 1 of the mask are
    zero; a cover or generated thumbnail that is given is kept;
    [thumbnail_custom] and [thumbnail_generated_webp] are stored as given and
    stay absent when absent. *)
Theorem representations_defaults (o : ImageRepresentation.t)
    (c tc tg tw : option ImageRepresentation.t) :
  ImageRepresentations.original (ImageRepresentations.init o c tc tg tw) = o
  /\ ImageRepresentations.cover (ImageRepresentations.init o None tc tg tw) = o
  /\ (forall c', ImageRepresentations.cover
                   (ImageRepresentations.init o (Some c') tc tg tw) = c')
  /\ ImageRepresentations.thumbnail_generated
       (ImageRepresentations.init o c tc None tw)
     = ImageRepresentations.cover (ImageRepresentations.init o c tc None tw)
  /\ (forall g, ImageRepresentations.thumbnail_generated
                  (ImageRepresentations.init o c tc (Some g) tw) = g)
  /\ ImageRepresentations.cover (ImageRepresentations.init o None tc None tw) = o
  /\ ImageRepresentations.thumbnail_generated
       (ImageRepresentations.init o None tc None tw) = o
  /\ Z.testbit (ImageRepresentations.included_mask
                  (ImageRepresentations.init o None tc None tw)) 0 = false
  /\ Z.testbit (ImageRepresentations.included_mask
                  (ImageRepresentations.init o None tc None tw)) 1 = false
  /\ ImageRepresentations.thumbnail_custom
       (ImageRepresentations.init o c tc tg tw) = tc
  /\ ImageRepresentations.thumbnail_generated_webp
       (ImageRepresentations.init o c tc tg tw) = tw
  /\ ImageRepresentations.thumbnail_custom
       (ImageRepresentations.init o c None tg tw) = None
  /\ ImageRepresentations.thumbnail_generated_webp
       (ImageRepresentations.init o c tc tg None) = None.
Proof.
  repeat split; try reflexivity;
    unfold ImageRepresentations.included_mask, ImageRepresentations.init,
      ImageRepresentation.is_; cbn;
    rewrite Nat.eqb_refl; destruct tc, tw; reflexivity.
Qed.

(** * The inclusion mask *)

Lemma included_mask_cases (rs : ImageRepresentations.t) :
  ImageRepresentations.included_mask rs =
  (Z.b2z (negb (ImageRepresentation.is_ (ImageRepresentations.cover rs)
                                        (ImageRepresentations.original rs)))
   + 2 * Z.b2z (negb (ImageRepresentation.is_
                        (ImageRepresentations.thumbnail_generated rs)
                        (ImageRepresentations.cover rs)))
   + 4 * Z.b2z (ImageRepresentations.is_not_None
                  (ImageRepresentations.thumbnail_custom rs))
   + 32 * Z.b2z (ImageRepresentations.is_not_None
                   (ImageRepresentations.thumbnail_generated_webp rs)))%Z.
Proof.
  unfold ImageRepresentations.included_mask.
  destruct (negb _), (negb _), (ImageRepresentations.is_not_None _),
    (ImageRepresentations.is_not_None _); reflexivity.
Qed.

Lemma included_mask_in (rs : ImageRepresentations.t) :
  In (ImageRepresentations.included_mask rs)
     [0; 1; 2; 3; 4; 5; 6; 7; 32; 33; 34; 35; 36; 37; 38; 39]%Z.
Proof.
  rewrite included_mask_cases.
  destruct (negb _), (negb _), (ImageRepresentations.is_not_None _),
    (ImageRepresentations.is_not_None _); cbn; tauto.
Qed.

Lemma included_mask_range (rs : ImageRepresentations.t) :
  (0 <= ImageRepresentations.included_mask rs <= 39)%Z.
Proof. pose proof (included_mask_in rs) as Hin. cbn in Hin. lia. Qed.

(** C10.  The mask of every set of representations has bits 3, 4, 6 and 7
    (and every higher bit) equal to zero: it is one of the sixteen values made
    of bits 0, 1, 2 and 5, so at most 39, it fits the one byte written for it
    and that byte is what [serialize_to] writes first. *)
Theorem included_mask_bits (rs : ImageRepresentations.t) :
  Z.testbit (ImageRepresentations.included_mask rs) 3 = false
  /\ Z.testbit (ImageRepresentations.included_mask rs) 4 = false
  /\ Z.testbit (ImageRepresentations.included_mask rs) 6 = false
  /\ Z.testbit (ImageRepresentations.included_mask rs) 7 = false
  /\ (forall n, (6 <= n)%Z ->
        Z.testbit (ImageRepresentations.included_mask rs) n = false)
  /\ Z.land (ImageRepresentations.included_mask rs) 39
     = ImageRepresentations.included_mask rs
  /\ In (ImageRepresentations.included_mask rs)
        [0; 1; 2; 3; 4; 5; 6; 7; 32; 33; 34; 35; 36; 37; 38; 39]%Z
  /\ (0 <= ImageRepresentations.included_mask rs <= 39)%Z
  /\ Py.bytes_of_ints [ImageRepresentations.included_mask rs]
     = Ok [byte_of_Z (ImageRepresentations.included_mask rs)]
  /\ Z.of_N (Byte.to_N (byte_of_Z (ImageRepresentations.included_mask rs)))
     = ImageRepresentations.included_mask rs
  /\ (forall f out, ImageRepresentations.serialize_to rs f = Ok out ->
        exists rest,
          out = f ++ byte_of_Z (ImageRepresentations.included_mask rs) :: rest).
Proof.
  pose proof (included_mask_in rs) as Hin.
  pose proof (included_mask_range rs) as Hb.
  assert (Hhigh : forall n, (6 <= n)%Z ->
            Z.testbit (ImageRepresentations.included_mask rs) n = false).
  { intros n Hn. apply Z.bits_above_log2; [lia|].
    destruct (Z.eq_dec (ImageRepresentations.included_mask rs) 0) as [E|E].
    - rewrite E. cbn. lia.
    - apply Z.log2_lt_pow2; [lia|].
      apply Z.lt_le_trans with (2 ^ 6)%Z; [cbn; lia|].
      apply Z.pow_le_mono_r; lia. }
  assert (Hlow : Z.testbit (ImageRepresentations.included_mask rs) 3 = false
                 /\ Z.testbit (ImageRepresentations.included_mask rs) 4 = false
                 /\ Z.land (ImageRepresentations.included_mask rs) 39
                    = ImageRepresentations.included_mask rs).
  { cbn in Hin.
    repeat (destruct Hin as [<-|Hin]; [repeat split; reflexivity|]).
    contradiction. }
  destruct Hlow as (H3 & H4 & Hland).
  split; [exact H3|]. split; [exact H4|].
  split; [apply Hhigh; lia|]. split; [apply Hhigh; lia|].
  split; [exact Hhigh|]. split; [exact Hland|].
  split; [exact Hin|]. split; [exact Hb|].
  split; [apply bytes_of_ints_one; lia|].
  split; [apply to_N_byte_of_Z; lia|].
  - intros f out. unfold ImageRepresentations.serialize_to.
    rewrite bytes_of_ints_one by lia. cbn [rbind].
    rewrite serialize_to_buffer.
    destruct (ImageRepresentation.serialize_to _ []) as [b0|]; [|discriminate].
    cbn [rbind].
    assert (Hstep : forall (g : bytes) (r : ImageRepresentation.t) (cond : bool)
                      (g' : bytes),
               (exists rest, g = f ++ byte_of_Z (ImageRepresentations.included_mask rs) :: rest) ->
               (if cond then ImageRepresentation.serialize_to r g else Ok g) = Ok g' ->
               exists rest, g' = f ++ byte_of_Z (ImageRepresentations.included_mask rs) :: rest).
    { intros g r cond g' [rest ->] Hs. destruct cond.
      - rewrite serialize_to_buffer in Hs.
        destruct (ImageRepresentation.serialize_to r []) as [b|]; [|discriminate].
        injection Hs as <-. exists (rest ++ b).
        rewrite <- app_assoc. reflexivity.
      - injection Hs as <-. eauto. }
    assert (H0 : exists rest, (f ++ [byte_of_Z (ImageRepresentations.included_mask rs)]) ++ b0
                              = f ++ byte_of_Z (ImageRepresentations.included_mask rs) :: rest).
    { exists b0. rewrite <- app_assoc. reflexivity. }
    revert H0. generalize ((f ++ [byte_of_Z (ImageRepresentations.included_mask rs)]) ++ b0).
    intros g1 H1.
    destruct (if negb (ImageRepresentation.is_ (ImageRepresentations.cover rs) _)
              then _ else _) as [g2|] eqn:E2; [|discriminate].
    apply Hstep in E2; [|exact H1]. cbn [rbind].
    destruct (if negb (ImageRepresentation.is_ (ImageRepresentations.thumbnail_generated rs) _)
              then _ else _) as [g3|] eqn:E3; [|discriminate].
    apply Hstep in E3; [|exact E2]. cbn [rbind].
    destruct (ImageRepresentations.thumbnail_custom rs) as [c|].
    + destruct (ImageRepresentation.serialize_to c g3) as [g4|] eqn:E4;
        [|discriminate].
      apply (Hstep g3 c true) in E4; [|exact E3]. cbn [rbind].
      destruct (ImageRepresentations.thumbnail_generated_webp rs) as [d|].
      * intros E5. apply (Hstep g4 d true) in E5; assumption.
      * intros E5. injection E5 as <-. exact E4.
    + cbn [rbind].
      destruct (ImageRepresentations.thumbnail_generated_webp rs) as [d|].
      * intros E5. apply (Hstep g3 d true) in E5; assumption.
      * intros E5. injection E5 as <-. exact E3.
Qed.

Lemma included_mask_bits_witness :
  ImageRepresentations.included_mask reps_AB = 2%Z
  /\ exists rest,
       [x02] ++ rep_bytes rep_A ++ rep_bytes rep_B
       = [] ++ byte_of_Z (ImageRepresentations.included_mask reps_AB) :: rest.
Proof.
  split; [reflexivity|].
  apply (included_mask_bits reps_AB). reflexivity.
Defined.

(** * The layout of a set of representations *)

(** C1, as amended.  For every set of valid representations, [serialize_to]
    appends exactly: one mask byte whose bit 0 says that the cover is another
    object than the original, bit 1 that the generated thumbnail is another
    object than the cover, bit 2 that there is a custom thumbnail, bits 3 and
    4 zero, bit 5 that there is a webp generated thumbnail; then the 21 bytes
    of the original; then, in this order, the 21 bytes of the cover if and
    only if bit 0 is set, of the generated thumbnail iff bit 1 is set, of the
    custom thumbnail iff bit 2 is set, of the webp thumbnail iff bit 5 is
    set.  When the cover is the original itself, the generated thumbnail is
    another object and the two optional slots are empty, the mask byte is 2
    and 43 bytes are written. *)
Theorem representations_layout (rs : ImageRepresentations.t) (f : bytes) :
  valid_representations rs ->
  exists mask : byte,
    ImageRepresentations.serialize_to rs f =
      Ok (f ++ [mask]
            ++ rep_bytes (ImageRepresentations.original rs)
            ++ (if byte_bit mask 0
                then rep_bytes (ImageRepresentations.cover rs) else [])
            ++ (if byte_bit mask 1
                then rep_bytes (ImageRepresentations.thumbnail_generated rs)
                else [])
            ++ (if byte_bit mask 2
                then opt_rep_bytes (ImageRepresentations.thumbnail_custom rs)
                else [])
            ++ (if byte_bit mask 5
                then opt_rep_bytes
                       (ImageRepresentations.thumbnail_generated_webp rs)
                else []))
    /\ byte_bit mask 0
       = negb (ImageRepresentation.is_ (ImageRepresentations.cover rs)
                                       (ImageRepresentations.original rs))
    /\ byte_bit mask 1
       = negb (ImageRepresentation.is_
                 (ImageRepresentations.thumbnail_generated rs)
                 (ImageRepresentations.cover rs))
    /\ byte_bit mask 2
       = ImageRepresentations.is_not_None
           (ImageRepresentations.thumbnail_custom rs)
    /\ byte_bit mask 3 = false
    /\ byte_bit mask 4 = false
    /\ byte_bit mask 5
       = ImageRepresentations.is_not_None
           (ImageRepresentations.thumbnail_generated_webp rs)
    /\ length (rep_bytes (ImageRepresentations.original rs)) = 21
    /\ length (rep_bytes (ImageRepresentations.cover rs)) = 21
    /\ length (rep_bytes (ImageRepresentations.thumbnail_generated rs)) = 21
    /\ (forall c, ImageRepresentations.thumbnail_custom rs = Some c ->
          length (opt_rep_bytes (ImageRepresentations.thumbnail_custom rs)) = 21)
    /\ (forall c, ImageRepresentations.thumbnail_generated_webp rs = Some c ->
          length (opt_rep_bytes
                    (ImageRepresentations.thumbnail_generated_webp rs)) = 21)
    /\ (ImageRepresentation.is_ (ImageRepresentations.cover rs)
                                (ImageRepresentations.original rs) = true ->
        ImageRepresentation.is_ (ImageRepresentations.thumbnail_generated rs)
                                (ImageRepresentations.cover rs) = false ->
        ImageRepresentations.thumbnail_custom rs = None ->
        ImageRepresentations.thumbnail_generated_webp rs = None ->
        mask = x02
        /\ ImageRepresentations.serialize_to rs f =
             Ok (f ++ [x02]
                   ++ rep_bytes (ImageRepresentations.original rs)
                   ++ rep_bytes (ImageRepresentations.thumbnail_generated rs))
        /\ length ([x02]
                     ++ rep_bytes (ImageRepresentations.original rs)
                     ++ rep_bytes (ImageRepresentations.thumbnail_generated rs))
           = 43).
Proof.
  intros (Ho & Hc & Hg & Htc & Htw).
  destruct (serialize_rep_bytes _ [] Ho) as [_ Lo].
  destruct (serialize_rep_bytes _ [] Hc) as [_ Lc].
  destruct (serialize_rep_bytes _ [] Hg) as [_ Lg].
  assert (Ltc : forall c, ImageRepresentations.thumbnail_custom rs = Some c ->
                  length (opt_rep_bytes (ImageRepresentations.thumbnail_custom rs)) = 21).
  { intros c E. rewrite E. cbn. apply (serialize_rep_bytes c []). auto. }
  assert (Ltw : forall c, ImageRepresentations.thumbnail_generated_webp rs = Some c ->
                  length (opt_rep_bytes (ImageRepresentations.thumbnail_generated_webp rs)) = 21).
  { intros c E. rewrite E. cbn. apply (serialize_rep_bytes c []). auto. }
  exists (byte_of_Z (ImageRepresentations.included_mask rs)).
  unfold ImageRepresentations.serialize_to.
  rewrite bytes_of_ints_one by (pose proof (included_mask_range rs); lia).
  cbn [rbind]. rewrite included_mask_cases.
  rewrite (proj1 (serialize_rep_bytes _ _ Ho)). cbn [rbind].
  destruct (ImageRepresentation.is_ (ImageRepresentations.cover rs) _) eqn:E0;
    cbn [negb];
    [|rewrite (proj1 (serialize_rep_bytes _ _ Hc))]; cbn [rbind];
    (destruct (ImageRepresentation.is_
                 (ImageRepresentations.thumbnail_generated rs) _) eqn:E1;
     cbn [negb];
     [|rewrite (proj1 (serialize_rep_bytes _ _ Hg))]; cbn [rbind];
     (destruct (ImageRepresentations.thumbnail_custom rs) as [tc|] eqn:E2;
      [rewrite (proj1 (serialize_rep_bytes tc _ (Htc tc eq_refl)))|];
      cbn [rbind];
      (destruct (ImageRepresentations.thumbnail_generated_webp rs) as [tw|] eqn:E5;
       [rewrite (proj1 (serialize_rep_bytes tw _ (Htw tw eq_refl)))|];
       cbn [rbind];
       (split;
        [cbn; rewrite <- ?app_assoc; cbn; rewrite ?app_nil_r; reflexivity|]);
       repeat (split; [first [reflexivity | assumption]|]);
       try (intros; discriminate)))).
  split; [cbn; rewrite <- ?app_assoc; reflexivity|].
  cbn [app length]. rewrite length_app, Lo, Lg. reflexivity.
Qed.

Lemma representations_layout_witness :
  exists mask : byte,
    ImageRepresentations.serialize_to reps_AB [] =
      Ok ([] ++ [mask]
            ++ rep_bytes rep_A
            ++ (if byte_bit mask 0 then rep_bytes rep_A else [])
            ++ (if byte_bit mask 1 then rep_bytes rep_B else [])
            ++ (if byte_bit mask 2 then [] else [])
            ++ (if byte_bit mask 5 then [] else []))
    /\ byte_bit mask 0 = false
    /\ byte_bit mask 1 = true
    /\ byte_bit mask 2 = false
    /\ byte_bit mask 3 = false
    /\ byte_bit mask 4 = false
    /\ byte_bit mask 5 = false
    /\ length (rep_bytes rep_A) = 21
    /\ length (rep_bytes rep_A) = 21
    /\ length (rep_bytes rep_B) = 21.
Proof.
  destruct (representations_layout reps_AB []) as (mask & H).
  - unfold valid_representations, valid_representation; cbn.
    repeat split; try lia; intros; discriminate.
  - exists mask.
    destruct H as (H0 & H1 & H2 & H3 & H4 & H5 & H6 & H7 & H8 & H9 & _).
    repeat split; assumption.
Defined.

(** C1, the claim as stated fails: the set with the original as its cover, a
    distinct generated thumbnail and no optional slot is written as 43 bytes
    with mask byte 2, each representation taking 21 bytes; the claim counts
    20 bytes for each and 41 in all. *)
Lemma representations_not_41_bytes :
  valid_representations reps_AB
  /\ ImageRepresentations.serialize_to reps_AB [] =
       Ok ([x02] ++ rep_bytes rep_A ++ rep_bytes rep_B)
  /\ length (rep_bytes rep_A) = 21
  /\ length (rep_bytes rep_B) = 21
  /\ length ([x02] ++ rep_bytes rep_A ++ rep_bytes rep_B) = 43
  /\ length ([x02] ++ rep_bytes rep_A ++ rep_bytes rep_B) <> 41.
Proof.
  split.
  - unfold valid_representations, valid_representation; cbn.
    repeat split; try lia; intros; discriminate.
  - repeat split; try reflexivity. cbn. lia.
Qed.

(** * The name of an object in the bucket *)

Lemma sextets3_small (a b c : byte) :
  Forall (fun n => (n < 64)%N) (Py.sextets3 a b c).
Proof.
  unfold Py.sextets3.
  pose proof (Byte.to_N_bounded a). pose proof (Byte.to_N_bounded b).
  pose proof (Byte.to_N_bounded c).
  set (n := (Byte.to_N a * 65536 + Byte.to_N b * 256 + Byte.to_N c)%N).
  assert (Hand : forall x, (N.land x 63 < 64)%N).
  { intros x. change 63%N with (N.ones 6). rewrite N.land_ones.
    apply N.mod_lt. discriminate. }
  repeat constructor; try apply Hand.
  rewrite N.shiftr_div_pow2. apply N.Div0.div_lt_upper_bound.
  change (2 ^ 18 * 64)%N with 16777216%N. subst n. lia.
Qed.

Lemma sextet_ok_all (n : N) : (n < 64)%N -> sextet_ok n = true.
Proof.
  intros Hn.
  assert (Hall : forallb sextet_ok (map N.of_nat (seq 0 64)) = true)
    by (vm_compute; reflexivity).
  rewrite forallb_forall in Hall. apply Hall.
  rewrite <- (N2Nat.id n). apply in_map. apply in_seq. lia.
Qed.

Lemma byte_eqb_eq (a b : byte) : Byte.eqb a b = true <-> a = b.
Proof.
  split.
  - apply Byte.byte_dec_bl.
  - apply Byte.byte_dec_lb.
Qed.

Lemma sextets_translate (l : list N) :
  Forall (fun n => (n < 64)%N) l ->
  map Py.urlsafe_translate (map (Py.b64_char Py.b64_alphabet) l)
  = map (Py.b64_char urlsafe_alphabet) l.
Proof.
  induction 1 as [|n l Hn _ IH]; [reflexivity|].
  cbn [map]. rewrite IH. f_equal.
  pose proof (sextet_ok_all n Hn) as Hok. unfold sextet_ok in Hok.
  rewrite !andb_true_iff in Hok. apply byte_eqb_eq. tauto.
Qed.

Lemma sextets_chars (l : list N) :
  Forall (fun n => (n < 64)%N) l ->
  Forall (fun c => c <> x3d /\ urlsafe_char c = true /\ (Byte.to_N c < 128)%N)
         (map (Py.b64_char urlsafe_alphabet) l).
Proof.
  induction 1 as [|n l Hn _ IH]; constructor; [|exact IH].
  pose proof (sextet_ok_all n Hn) as Hok. unfold sextet_ok in Hok.
  rewrite !andb_true_iff in Hok. destruct Hok as [[[_ Hne] Hu] Hlt].
  repeat split; [|exact Hu|now apply N.ltb_lt].
  intros E. rewrite E in Hne. discriminate.
Qed.

Lemma Forall_firstn {A} (P : A -> Prop) (n : nat) (l : list A) :
  Forall P l -> Forall P (firstn n l).
Proof.
  intros H. revert n.
  induction H as [|x l Hx _ IH]; intros [|n]; cbn; constructor; auto.
Qed.

(** Induction on a byte string by groups of three. *)
Lemma list_ind3 {A} (P : list A -> Prop) :
  P [] -> (forall a, P [a]) -> (forall a b, P [a; b]) ->
  (forall a b c l, P l -> P (a :: b :: c :: l)) ->
  forall l, P l.
Proof.
  intros H0 H1 H2 H3.
  fix IH 1.
  intros [|a [|b [|c l]]];
    [exact H0 | apply H1 | apply H2 | apply H3; apply IH].
Qed.

Lemma no_padding_chars (s : bytes) :
  Forall (fun c => c <> x3d /\ urlsafe_char c = true /\ (Byte.to_N c < 128)%N)
         (urlsafe_base64_no_padding s).
Proof.
  induction s as [|a|a b|a b c s IH] using list_ind3;
    cbn [urlsafe_base64_no_padding].
  - constructor.
  - apply sextets_chars, Forall_firstn, sextets3_small.
  - apply sextets_chars, Forall_firstn, sextets3_small.
  - apply Forall_app. split; [|exact IH].
    apply sextets_chars, sextets3_small.
Qed.

Lemma urlsafe_b64encode_padding (s : bytes) :
  exists k, Py.urlsafe_b64encode s
            = urlsafe_base64_no_padding s ++ repeat x3d k.
Proof.
  unfold Py.urlsafe_b64encode.
  induction s as [|a|a b|a b c s IH] using list_ind3;
    cbn [Py.b64encode urlsafe_base64_no_padding].
  - exists 0. reflexivity.
  - exists 2. rewrite map_app, sextets_translate
      by apply Forall_firstn, sextets3_small. reflexivity.
  - exists 1. rewrite map_app, sextets_translate
      by apply Forall_firstn, sextets3_small. reflexivity.
  - destruct IH as [k IH]. exists k.
    rewrite map_app, sextets_translate by apply sextets3_small.
    rewrite IH, app_assoc. reflexivity.
Qed.

Lemma rstrip_cons (c x : byte) (l : bytes) :
  x <> c -> Py.rstrip c (x :: l) = x :: Py.rstrip c l.
Proof.
  intros Hx. unfold Py.rstrip. cbn [fold_right].
  destruct (fold_right _ [] l); [|reflexivity].
  destruct (Byte.eqb x c) eqn:E; [|reflexivity].
  apply byte_eqb_eq in E. contradiction.
Qed.

Lemma rstrip_padding (c : byte) (l : bytes) (k : nat) :
  Forall (fun x => x <> c) l -> Py.rstrip c (l ++ repeat c k) = l.
Proof.
  induction 1 as [|x l Hx _ IH].
  - induction k as [|k IHk]; [reflexivity|].
    cbn [app repeat] in *. unfold Py.rstrip in *. cbn [fold_right].
    rewrite IHk.
    destruct (Byte.eqb c c) eqn:E; [reflexivity|].
    assert (Byte.eqb c c = true) by now apply byte_eqb_eq. congruence.
  - cbn [app]. rewrite rstrip_cons by exact Hx. now rewrite IH.
Qed.

Lemma no_padding_length (s : bytes) :
  length (urlsafe_base64_no_padding s) = Nat.div (4 * length s + 2) 3.
Proof.
  induction s as [|a|a b|a b c s IH] using list_ind3; try reflexivity.
  cbn [urlsafe_base64_no_padding]. rewrite length_app, IH.
  cbn [length Py.sextets3 map].
  replace (4 * S (S (S (length s))) + 2) with ((4 * length s + 2) + 4 * 3) by lia.
  rewrite Nat.div_add by discriminate. lia.
Qed.

Lemma str_of_bytes_length (b : bytes) :
  String.length (str_of_bytes b) = length b.
Proof.
  unfold str_of_bytes. induction b as [|c b IH]; [reflexivity|].
  cbn. now rewrite IH.
Qed.

(** C9.  For every representation the object name is the URL-safe base64
    encoding of its file key with the padding characters removed, followed
    by the extension of its content type with its dot ([.png], [.jpg],
    [.gif], [.webp]); a key of 16 bytes gives 22 characters, all of them
    letters, digits, [-] or [_].  The name is made of the key and the content
    type only, and the representation of a media item does not depend on the
    item's sha256, so the content hash has no part in the name. *)
Theorem bucket_key_name (rep : ImageRepresentation.t) :
  get_bucket_key rep =
    Ok (append
          (str_of_bytes
             (urlsafe_base64_no_padding (ImageRepresentation.file_key rep)))
          (match ImageRepresentation.content_type rep with
           | ImageContentType.PNG => ".png"
           | ImageContentType.JPEG => ".jpg"
           | ImageContentType.GIF_STATIC => ".gif"
           | ImageContentType.WEBP_STATIC => ".webp"
           end))
  /\ Forall (fun c => c <> x3d /\ urlsafe_char c = true)
            (urlsafe_base64_no_padding (ImageRepresentation.file_key rep))
  /\ (length (ImageRepresentation.file_key rep) = 16 ->
      String.length
        (str_of_bytes
           (urlsafe_base64_no_padding (ImageRepresentation.file_key rep)))
      = 22)
  /\ (forall rep',
        ImageRepresentation.file_key rep' = ImageRepresentation.file_key rep ->
        ImageRepresentation.content_type rep'
        = ImageRepresentation.content_type rep ->
        get_bucket_key rep' = get_bucket_key rep)
  /\ (forall (m : media) (s : string) (st : world),
        rep_from_media (with_sha256 s m) st = rep_from_media m st).
Proof.
  pose proof (no_padding_chars (ImageRepresentation.file_key rep)) as Hch.
  split; [|split; [|split; [|split]]].
  - unfold get_bucket_key.
    destruct (urlsafe_b64encode_padding (ImageRepresentation.file_key rep))
      as [k ->].
    rewrite rstrip_padding
      by (eapply Forall_impl; [|exact Hch]; cbn; tauto).
    unfold Py.decode_ascii.
    replace (forallb _ _) with true.
    2:{ symmetry. apply forallb_forall. intros c Hc.
        rewrite Forall_forall in Hch. apply N.ltb_lt. now apply Hch. }
    cbn [rbind].
    destruct (ImageRepresentation.content_type rep); reflexivity.
  - eapply Forall_impl; [|exact Hch]. cbn. tauto.
  - intros Hk. rewrite str_of_bytes_length, no_padding_length, Hk. reflexivity.
  - intros rep' Ek Ec. unfold get_bucket_key. now rewrite Ek, Ec.
  - intros m s st. reflexivity.
Qed.

Lemma bucket_key_name_witness :
  get_bucket_key rep_A = Ok "AAECAwQFBgcICQoLDA0ODw.png"
  /\ String.length
       (str_of_bytes
          (urlsafe_base64_no_padding (ImageRepresentation.file_key rep_A)))
     = 22.
Proof.
  destruct (bucket_key_name rep_A) as (H1 & _ & H3 & _).
  split; [exact H1 | apply H3; reflexivity].
Defined.

(** * Facts about dictionaries *)

Section DictFacts.
Context {K V : Type} `{Key K}.
Implicit Types (k : K) (v : V) (d : dict K V).

Lemma key_eqb_refl k : key_eqb k k = true.
Proof. now apply key_eqb_eq. Qed.

Lemma key_eqb_neq k k' : k <> k' -> key_eqb k k' = false.
Proof.
  intros Hn. destruct (key_eqb k k') eqn:E; [|reflexivity].
  apply key_eqb_eq in E. contradiction.
Qed.

Lemma key_eq_dec k k' : {k = k'} + {k <> k'}.
Proof.
  destruct (key_eqb k k') eqn:E.
  - left. now apply key_eqb_eq.
  - right. intros ->. rewrite key_eqb_refl in E. discriminate.
Qed.

Lemma dict_get_In k v d : dict_get k d = Some v -> In (k, v) d.
Proof.
  induction d as [|[k' v'] d IH]; cbn; [discriminate|].
  destruct (key_eqb k' k) eqn:E.
  - apply key_eqb_eq in E. intros [= ->]. left. now rewrite E.
  - auto.
Qed.

Lemma dict_get_None k d : dict_get k d = None <-> ~ In k (dict_keys d).
Proof.
  induction d as [|[k' v'] d IH]; cbn.
  - tauto.
  - destruct (key_eqb k' k) eqn:E.
    + apply key_eqb_eq in E. split; [discriminate|]. intros Hn. tauto.
    + rewrite IH. split; [|tauto].
      intros Hn [->|Hin]; [|tauto]. rewrite key_eqb_refl in E. discriminate.
Qed.

Lemma dict_get_Some_In k d :
  (exists v, dict_get k d = Some v) <-> In k (dict_keys d).
Proof.
  destruct (dict_get k d) as [v|] eqn:E.
  - split; [|eauto]. intros _. apply dict_get_In in E.
    apply (in_map fst) in E. exact E.
  - split; [intros [v [=]]|]. intros Hin. apply dict_get_None in E. tauto.
Qed.

Lemma dict_get_NoDup k v d :
  NoDup (dict_keys d) -> In (k, v) d -> dict_get k d = Some v.
Proof.
  induction d as [|[k' v'] d IH]; cbn; [tauto|].
  intros Hnd [[= -> ->]|Hin].
  - now rewrite key_eqb_refl.
  - inversion Hnd as [|? ? Hnot Hnd']; subst.
    destruct (key_eqb k' k) eqn:E; [|auto].
    apply key_eqb_eq in E. subst. exfalso. apply Hnot.
    apply (in_map fst) in Hin. exact Hin.
Qed.

Lemma dict_set_new k v d : dict_get k d = None -> dict_set k v d = d ++ [(k, v)].
Proof.
  induction d as [|[k' v'] d IH]; cbn; [reflexivity|].
  destruct (key_eqb k' k); [discriminate|]. intros E. now rewrite IH.
Qed.

Lemma dict_set_keys k v v0 d :
  dict_get k d = Some v0 -> dict_keys (dict_set k v d) = dict_keys d.
Proof.
  unfold dict_keys.
  induction d as [|[k' v'] d IH]; cbn; [discriminate|].
  destruct (key_eqb k' k); [reflexivity|]. intros E. cbn. now rewrite IH.
Qed.

Lemma dict_get_set_same k v d : dict_get k (dict_set k v d) = Some v.
Proof.
  induction d as [|[k' v'] d IH]; cbn.
  - now rewrite key_eqb_refl.
  - destruct (key_eqb k' k) eqn:E; cbn; rewrite E; auto.
Qed.

Lemma dict_get_set_other k k' v d :
  k' <> k -> dict_get k' (dict_set k v d) = dict_get k' d.
Proof.
  intros Hn. induction d as [|[k0 v0] d IH]; cbn.
  - rewrite key_eqb_neq by congruence. reflexivity.
  - destruct (key_eqb k0 k) eqn:E; cbn.
    + apply key_eqb_eq in E. subst.
      rewrite key_eqb_neq by congruence. reflexivity.
    + rewrite IH. reflexivity.
Qed.

Lemma dict_set_keys_In k k' v d :
  In k' (dict_keys (dict_set k v d)) <-> k' = k \/ In k' (dict_keys d).
Proof.
  destruct (dict_get k d) as [v0|] eqn:E.
  - rewrite (dict_set_keys k v v0 d E). split; [tauto|].
    intros [->|Hin]; [|exact Hin]. apply dict_get_Some_In. eauto.
  - rewrite (dict_set_new k v d E). unfold dict_keys.
    rewrite map_app, in_app_iff. cbn. intuition congruence.
Qed.

Lemma dict_set_NoDup k v d :
  NoDup (dict_keys d) -> NoDup (dict_keys (dict_set k v d)).
Proof.
  intros Hnd. destruct (dict_get k d) as [v0|] eqn:E.
  - now rewrite (dict_set_keys k v v0 d E).
  - rewrite (dict_set_new k v d E). unfold dict_keys. rewrite map_app.
    cbn. apply dict_get_None in E.
    apply NoDup_app; repeat split; auto.
    + constructor; [tauto|constructor].
    + intros x Hx [<-|[]]. tauto.
Qed.
End DictFacts.

(** * Runs of the program *)

Lemma bind_Ok {A B} (c : M A) (k : A -> M B) (st st' : world) (b : B) :
  bind c k st = (Ok b, st') ->
  exists a st1, c st = (Ok a, st1) /\ k a st1 = (Ok b, st').
Proof.
  unfold bind. destruct (c st) as [[a|e] st1]; [eauto|discriminate].
Qed.

Lemma lift_Ok {A} (r : result A) (st st' : world) (a : A) :
  lift r st = (Ok a, st') -> r = Ok a /\ st' = st.
Proof. unfold lift. intros [= -> ->]. auto. Qed.

(** A run is known by its result once the world it ends in is named. *)
Lemma run_result {A} (c : M A) (st : world) (r : result A) :
  fst (c st) = r -> c st = (r, snd (c st)).
Proof. destruct (c st) as [r' st']. cbn. now intros ->. Qed.

Lemma same_store_refl (st : world) : same_store st st.
Proof. repeat split. Qed.

Lemma same_store_trans (a b c : world) :
  same_store a b -> same_store b c -> same_store a c.
Proof.
  unfold same_store. intros (A1 & A2 & A3 & A4 & A5) (B1 & B2 & B3 & B4 & B5).
  repeat split; congruence.
Qed.

(** [rep_from_media] touches neither the files nor the store, whatever its
    outcome. *)
Lemma rep_from_media_store (m : media) (st st' : world)
    (r : result ImageRepresentation.t) :
  rep_from_media m st = (r, st') -> same_store st st'.
Proof.
  unfold rep_from_media, bind, lift, token_bytes, ImageRepresentation.init.
  destruct (dict_getitem _ IMAGE_CONTENT_TYPES) as [ct|];
    [|intros [= _ <-]; apply same_store_refl].
  destruct (dict_getitem "width" _) as [w|];
    [|intros [= _ <-]; repeat split].
  destruct (dict_getitem "height" _) as [h|];
    [|intros [= _ <-]; repeat split].
  destruct (negb _); [intros [= _ <-]; repeat split|].
  destruct (negb _); [intros [= _ <-]; repeat split|].
  destruct (negb _); [intros [= _ <-]; repeat split|].
  unfold fresh_id, ret. intros [= _ <-]. repeat split.
Qed.

(** On success it creates one new object, which is valid and has the
    content type of the media's file type and the size of its attributes. *)
Lemma rep_from_media_Ok (m : media) (st st' : world)
    (r : ImageRepresentation.t) :
  rep_from_media m st = (Ok r, st') ->
  ImageRepresentation.oid r = next_id st
  /\ next_id st' = S (next_id st)
  /\ valid_representation r
  /\ dict_get (media_file_type m) IMAGE_CONTENT_TYPES
     = Some (ImageRepresentation.content_type r)
  /\ dict_get "width" (media_attributes m) = Some (ImageRepresentation.width r)
  /\ dict_get "height" (media_attributes m)
     = Some (ImageRepresentation.height r)
  /\ ImageRepresentation.file_key r = map (entropy st) (seq (drawn st) 16).
Proof.
  unfold rep_from_media, bind, lift, token_bytes, ImageRepresentation.init,
    dict_getitem, FILE_KEY_LENGTH.
  destruct (dict_get _ IMAGE_CONTENT_TYPES) as [ct|]; [|discriminate].
  destruct (dict_get "width" _) as [w|]; [|discriminate].
  destruct (dict_get "height" _) as [h|]; [|discriminate].
  destruct ((1 <=? w)%Z && (w <=? 16383)%Z) eqn:Ew; [|discriminate].
  destruct ((1 <=? h)%Z && (h <=? 16383)%Z) eqn:Eh; [|discriminate].
  destruct (Nat.eqb _ 16) eqn:Ek; [|discriminate].
  cbn [negb]. unfold fresh_id, ret. intros [= <- <-]. cbn.
  apply andb_true_iff in Ew, Eh. rewrite !Z.leb_le in Ew, Eh.
  apply Nat.eqb_eq in Ek.
  unfold valid_representation. cbn. repeat split; try lia; auto.
Qed.

Section MapValues.
Context {K : Type} `{Key K}.

Lemma map_values_from_store (items : list (K * media))
    (acc : dict K ImageRepresentation.t) (st st' : world)
    (r : result (dict K ImageRepresentation.t)) :
  map_values_from rep_from_media items acc st = (r, st') ->
  same_store st st'.
Proof.
  revert acc st. induction items as [|[k v] items IH]; intros acc st; cbn.
  - intros [= _ <-]. apply same_store_refl.
  - unfold bind.
    destruct (rep_from_media v st) as [[y|e] st1] eqn:E;
      apply rep_from_media_store in E.
    + intros E'. apply IH in E'. eapply same_store_trans; eauto.
    + intros [= _ <-]. exact E.
Qed.

(** On success every item got an object of its own, created in the order
    of the items. *)
Lemma map_values_from_Ok (items : list (K * media))
    (acc d : dict K ImageRepresentation.t) (st st' : world) :
  map_values_from rep_from_media items acc st = (Ok d, st') ->
  NoDup (dict_keys items) ->
  (forall k, In k (dict_keys items) -> dict_get k acc = None) ->
  exists new,
    d = acc ++ new
    /\ dict_keys new = dict_keys items
    /\ map ImageRepresentation.oid (dict_values new)
       = seq (next_id st) (length items)
    /\ next_id st' = next_id st + length items
    /\ Forall valid_representation (dict_values new).
Proof.
  revert acc st. induction items as [|[k v] items IH]; intros acc st; cbn.
  - intros [= <- <-] _ _. exists []. rewrite app_nil_r.
    repeat split; auto.
  - intros E Hnd Hacc. apply bind_Ok in E. destruct E as (y & st1 & Ey & E).
    inversion Hnd as [|? ? Hk Hnd']; subst.
    rewrite (dict_set_new k y acc) in E by (apply Hacc; now left).
    apply IH in E; [|exact Hnd'|].
    + destruct E as (new & -> & Hkeys & Hoids & Hnext & Hval).
      apply rep_from_media_Ok in Ey.
      destruct Ey as (Hoid & Hn1 & Hv & _).
      exists ((k, y) :: new). rewrite <- app_assoc. cbn.
      repeat split.
      * unfold dict_keys in *. cbn. now rewrite Hkeys.
      * unfold dict_values in *. cbn. rewrite Hoids, Hoid, Hn1. reflexivity.
      * lia.
      * unfold dict_values in *. cbn. constructor; assumption.
    + intros k' Hk'. apply dict_get_None. unfold dict_keys.
      rewrite map_app, in_app_iff. cbn. intros [Hin|[<-|[]]].
      * assert (Hnone : dict_get k' acc = None) by (apply Hacc; now right).
        apply dict_get_None in Hnone. contradiction.
      * contradiction.
Qed.
End MapValues.

(** * The links a row keeps *)

Section Lookup.
Context {K X : Type} `{Key K}.

Lemma lookup_by_from_Ok (iterable : list X) (key_func : X -> K)
    (res d : dict K X) :
  lookup_by_from iterable key_func res = Ok d ->
  NoDup (dict_keys res) ->
  NoDup (dict_keys d)
  /\ (forall k x, In (k, x) d <->
                  In (k, x) res \/ (In x iterable /\ key_func x = k)).
Proof.
  revert res. induction iterable as [|x0 rest IH]; intros res; cbn.
  - intros [= <-] Hnd. split; [exact Hnd|]. intros k x. tauto.
  - unfold dict_mem.
    destruct (dict_get (key_func x0) res) as [v|] eqn:E; [discriminate|].
    intros E' Hnd. rewrite (dict_set_new _ _ _ E) in E'.
    apply IH in E'.
    + destruct E' as [Hnd' Hin]. split; [exact Hnd'|].
      intros k x. rewrite Hin, in_app_iff. cbn. split.
      * intros [[Hr|[Heq|[]]]|[Hx Hk]].
        -- now left.
        -- injection Heq as <- <-. right. split; [now left|reflexivity].
        -- right. split; [now right|exact Hk].
      * intros [Hr|[[Heq|Hx] Hk]].
        -- left. now left.
        -- subst. left. right. now left.
        -- right. split; assumption.
    + rewrite <- (dict_set_new _ _ _ E). now apply dict_set_NoDup.
Qed.

Lemma lookup_by_get (iterable : list X) (key_func : X -> K) (d : dict K X) :
  lookup_by iterable key_func = Ok d ->
  forall k x, dict_get k d = Some x <-> In x iterable /\ key_func x = k.
Proof.
  intros E k x. apply lookup_by_from_Ok in E; [|constructor].
  destruct E as [Hnd Hin]. split.
  - intros Hg. apply dict_get_In, Hin in Hg. cbn in Hg. tauto.
  - intros Hx. apply dict_get_NoDup; [exact Hnd|]. apply Hin. tauto.
Qed.
End Lookup.

Section Subdict.
Context {K V : Type} `{Key K}.

Lemma subdict_from_other (d : dict K V) (keys : list K) (acc : dict K V) (k : K) :
  ~ In k keys -> dict_get k (fold_left (subdict_step d) keys acc) = dict_get k acc.
Proof.
  revert acc. induction keys as [|k0 keys IH]; intros acc Hn; cbn; [reflexivity|].
  rewrite IH by (cbn in Hn; tauto). unfold subdict_step.
  destruct (dict_get k0 d); [|reflexivity].
  apply dict_get_set_other. cbn in Hn. intros ->. tauto.
Qed.

Lemma subdict_from_in (d : dict K V) (keys : list K) (acc : dict K V) (k : K) :
  In k keys ->
  dict_get k (fold_left (subdict_step d) keys acc) =
  match dict_get k d with
  | Some v => Some v
  | None => dict_get k acc
  end.
Proof.
  revert acc. induction keys as [|k0 keys IH]; intros acc Hin; cbn; [contradiction|].
  destruct (key_eq_dec k0 k) as [->|Hne].
  - destruct (in_dec key_eq_dec k keys) as [Hk|Hk].
    + rewrite IH by exact Hk. unfold subdict_step.
      destruct (dict_get k d); [reflexivity|reflexivity].
    + rewrite subdict_from_other by exact Hk. unfold subdict_step.
      destruct (dict_get k d); [apply dict_get_set_same|reflexivity].
  - destruct Hin as [->|Hin]; [contradiction|].
    rewrite IH by exact Hin. unfold subdict_step at 1.
    destruct (dict_get k d) as [v|]; [reflexivity|].
    destruct (dict_get k0 d); [|reflexivity].
    apply dict_get_set_other. congruence.
Qed.

Lemma subdict_get (d : dict K V) (keys : list K) (k : K) (v : V) :
  dict_get k (subdict d keys) = Some v <-> In k keys /\ dict_get k d = Some v.
Proof.
  unfold subdict.
  destruct (in_dec key_eq_dec k keys) as [Hk|Hk].
  - rewrite subdict_from_in by exact Hk. cbn.
    destruct (dict_get k d); intuition congruence.
  - rewrite subdict_from_other by exact Hk. cbn. intuition congruence.
Qed.

Lemma subdict_NoDup (d : dict K V) (keys : list K) :
  NoDup (dict_keys (subdict d keys)).
Proof.
  unfold subdict.
  assert (Hgen : forall acc, NoDup (dict_keys acc) ->
                   NoDup (dict_keys (fold_left (subdict_step d) keys acc))).
  { induction keys as [|k0 keys IH]; intros acc Hnd; cbn; [exact Hnd|].
    apply IH. unfold subdict_step. destruct (dict_get k0 d); [|exact Hnd].
    now apply dict_set_NoDup. }
  apply Hgen. constructor.
Qed.
End Subdict.

(** The links kept are those of the row whose link type is one of the five
    known ones, each under its link type. *)
Lemma retained_links_get (row_links : list link) (links : dict string link) :
  retained_links row_links = Ok links ->
  forall lt l,
    dict_get lt links = Some l <->
    In lt known_link_types /\ In l row_links /\ link_type l = lt.
Proof.
  unfold retained_links.
  destruct (lookup_by row_links link_type) as [by_type|] eqn:E; [|discriminate].
  cbn [rbind]. intros [= <-] lt l.
  rewrite subdict_get, (lookup_by_get _ _ _ E). tauto.
Qed.

Lemma retained_links_NoDup (row_links : list link) (links : dict string link) :
  retained_links row_links = Ok links -> NoDup (dict_keys links).
Proof.
  unfold retained_links.
  destruct (lookup_by row_links link_type) as [by_type|]; [|discriminate].
  cbn [rbind]. intros [= <-]. apply subdict_NoDup.
Qed.

(** [media_by_mediaid] has one entry for each media id among the links. *)
Lemma media_fold_spec (ls : list link) (acc : dict Z media) :
  NoDup (dict_keys acc) ->
  NoDup (dict_keys
           (fold_left (fun acc l => dict_set (mediaid l) (subdict_media l) acc)
                      ls acc))
  /\ (forall k,
        In k (dict_keys
                (fold_left
                   (fun acc l => dict_set (mediaid l) (subdict_media l) acc)
                   ls acc))
        <-> In k (dict_keys acc) \/ In k (map mediaid ls))
  /\ (forall k m,
        dict_get k
          (fold_left (fun acc l => dict_set (mediaid l) (subdict_media l) acc)
                     ls acc) = Some m ->
        dict_get k acc = Some m
        \/ exists l, In l ls /\ mediaid l = k /\ m = subdict_media l).
Proof.
  revert acc. induction ls as [|l ls IH]; intros acc Hnd; cbn.
  - split; [exact Hnd|]. split; [tauto|auto].
  - destruct (IH (dict_set (mediaid l) (subdict_media l) acc))
      as (H1 & H2 & H3); [now apply dict_set_NoDup|].
    split; [exact H1|]. split.
    + intros k. rewrite H2, dict_set_keys_In. intuition.
    + intros k m Hg. apply H3 in Hg. destruct Hg as [Hg|(l' & Hl' & Hk & Hm)].
      * destruct (Z.eq_dec k (mediaid l)) as [->|Hne].
        -- rewrite dict_get_set_same in Hg. injection Hg as <-.
           right. exists l. auto.
        -- rewrite dict_get_set_other in Hg by exact Hne. auto.
      * right. exists l'. auto.
Qed.

Lemma media_by_mediaid_keys (links : dict string link) :
  NoDup (dict_keys (media_by_mediaid_of links))
  /\ (forall k, In k (dict_keys (media_by_mediaid_of links))
                <-> In k (map mediaid (dict_values links)))
  /\ (forall k m, dict_get k (media_by_mediaid_of links) = Some m ->
        exists l, In l (dict_values links) /\ mediaid l = k
                  /\ m = subdict_media l).
Proof.
  unfold media_by_mediaid_of.
  destruct (media_fold_spec (dict_values links) []) as (H1 & H2 & H3);
    [constructor|].
  split; [exact H1|]. split.
  - intros k. rewrite H2. cbn. tauto.
  - intros k m Hg. apply H3 in Hg. destruct Hg as [Hg|Hg]; [discriminate|exact Hg].
Qed.

Lemma media_by_mediaid_length (links : dict string link) :
  length (media_by_mediaid_of links) = length (distinct_mediaids links).
Proof.
  destruct (media_by_mediaid_keys links) as (Hnd & Hin & _).
  unfold distinct_mediaids.
  rewrite <- (length_map fst (media_by_mediaid_of links)).
  fold (dict_keys (media_by_mediaid_of links)).
  apply Nat.le_antisymm; apply NoDup_incl_length;
    try exact Hnd; try apply NoDup_nodup;
    intros k Hk; [apply nodup_In, Hin, Hk | apply Hin; eapply nodup_In, Hk].
Qed.

(** * Reading a file in pieces *)

Lemma firstn_length_firstn {A} (c : nat) (l : list A) :
  firstn (length (firstn c l)) l = firstn c l.
Proof.
  revert l. induction c as [|c IH]; intros [|a l]; cbn; try reflexivity.
  now rewrite IH.
Qed.

Lemma firstn_extend {A} (n c : nat) (l : list A) :
  firstn n l ++ firstn c (skipn n l)
  = firstn (n + length (firstn c (skipn n l))) l.
Proof.
  revert l. induction n as [|n IH]; intros l; cbn [firstn skipn app Nat.add].
  - symmetry. apply firstn_length_firstn.
  - destruct l as [|a l]; cbn [firstn skipn app].
    + now rewrite firstn_nil.
    + now rewrite IH.
Qed.

Lemma read_loop_all (fuel : nat) (media_file : bytes) (st : reading) :
  position st <= length media_file ->
  length media_file - position st < fuel ->
  md5_fed st = firstn (position st) media_file ->
  sha256_fed st = firstn (position st) media_file ->
  content_length st = Z.of_nat (position st) ->
  read_loop fuel media_file st =
    {| md5_fed := media_file; sha256_fed := media_file;
       content_length := Z.of_nat (length media_file);
       position := length media_file |}.
Proof.
  revert st. induction fuel as [|fuel IH]; intros st Hpos Hfuel Hm Hs Hl; [lia|].
  cbn [read_loop].
  destruct (firstn (Z.to_nat CHUNK_SIZE) (skipn (position st) media_file))
    as [|c chunk] eqn:E.
  - assert (Hlen : length (skipn (position st) media_file) = 0).
    { destruct (skipn (position st) media_file); [reflexivity|discriminate]. }
    rewrite length_skipn in Hlen.
    assert (Hp : position st = length media_file) by lia.
    destruct st as [m s l p]. cbn in *. subst p.
    rewrite firstn_all in Hm, Hs. now subst.
  - rewrite <- E.
    set (chunk' := firstn (Z.to_nat CHUNK_SIZE)
                          (skipn (position st) media_file)) in *.
    assert (Hc : 0 < length chunk') by (rewrite E; cbn; lia).
    assert (Hc' : position st + length chunk' <= length media_file).
    { subst chunk'. rewrite length_firstn, length_skipn. lia. }
    assert (Hext : firstn (position st) media_file ++ chunk'
                   = firstn (position st + length chunk') media_file).
    { subst chunk'. apply firstn_extend. }
    apply IH; cbn [position md5_fed sha256_fed content_length].
    + exact Hc'.
    + lia.
    + now rewrite Hm, Hext.
    + now rewrite Hs, Hext.
    + rewrite Hl. lia.
Qed.

(** The loop feeds the whole file to both digests and counts its length. *)
Lemma read_all_file (media_file : bytes) :
  read_all media_file =
    {| md5_fed := media_file; sha256_fed := media_file;
       content_length := Z.of_nat (length media_file);
       position := length media_file |}.
Proof.
  unfold read_all. apply read_loop_all; cbn; try reflexivity; lia.
Qed.

(** * Uploading the bytes of a media item *)

Lemma after_puts_nil (st : world) : after_puts st st [].
Proof. unfold after_puts. rewrite app_nil_r. repeat split. Qed.

Lemma after_puts_trans (a b c : world) (l1 l2 : list put_object_args) :
  after_puts a b l1 -> after_puts b c l2 -> after_puts a c (l1 ++ l2).
Proof.
  unfold after_puts. intros (A1 & A2 & A3 & A4 & A5) (B1 & B2 & B3 & B4 & B5).
  rewrite B1, A1, app_assoc. repeat split; congruence.
Qed.

Lemma same_store_after_puts (st st' : world) :
  same_store st st' -> after_puts st st' [].
Proof.
  unfold same_store, after_puts. intros (A1 & A2 & A3 & A4 & A5).
  rewrite app_nil_r. repeat split; assumption.
Qed.

(** One turn of the upload loop either raises before any call to the store,
    leaving the world as it is, or makes exactly one call, a verified one. *)
Lemma upload_run (media_by_mediaid : dict Z media) (k : Z)
    (rep : ImageRepresentation.t) (st st' : world) (r : result unit) :
  upload media_by_mediaid (k, rep) st = (r, st') ->
  (st' = st /\ exists e, r = Raise e)
  \/ (exists args,
        verified_call st media_by_mediaid k rep args
        /\ after_puts st st' [args]
        /\ r = if store_accepts st (length (put_calls st))
               then Ok tt else Raise ClientError).
Proof.
  unfold upload, bind, lift, dict_getitem, open_rb, raise.
  destruct (dict_get k media_by_mediaid) as [m|] eqn:Em;
    [|intros [= <- <-]; left; eauto].
  destruct (file_path_of (MEDIA_ROOT st) m) as [path|] eqn:Ep;
    [|intros [= <- <-]; left; eauto].
  destruct (files st path) as [content|] eqn:Ef;
    [|intros [= <- <-]; left; eauto].
  rewrite read_all_file. cbn [sha256_fed md5_fed content_length].
  destruct (String.eqb _ (media_sha256 m)) eqn:Eh; cbn [negb];
    [|intros [= <- <-]; left; eauto].
  apply String.eqb_eq in Eh.
  destruct (Py.decode_ascii _) as [md5|]; [|intros [= <- <-]; left; eauto].
  destruct (ImageContentType.media_type _) as [ct|] eqn:Ect;
    [|intros [= <- <-]; left; eauto].
  destruct (get_bucket_key rep) as [key|] eqn:Ekey;
    [|intros [= <- <-]; left; eauto].
  unfold put_object. intros E. right.
  match type of E with
  | context [put_calls st ++ [?a]] => exists a
  end.
  split; [|split].
  - exists m, path. cbn. repeat split; assumption.
  - destruct (store_accepts st _); injection E as _ <-;
      unfold after_puts; cbn; repeat split.
  - destruct (store_accepts st _); injection E as <- _; reflexivity.
Qed.

(** A file whose SHA-256 is not the expected one raises before the store is
    called. *)
Lemma upload_mismatch (media_by_mediaid : dict Z media) (k : Z)
    (rep : ImageRepresentation.t) (st : world) (m : media)
    (path content : bytes) :
  dict_get k media_by_mediaid = Some m ->
  file_path_of (MEDIA_ROOT st) m = Ok path ->
  files st path = Some content ->
  hex (Hashlib.sha256 content) <> media_sha256 m ->
  upload media_by_mediaid (k, rep) st =
    (Raise (Exception (mismatch_message (hex (Hashlib.sha256 content)) path)),
     st).
Proof.
  intros Em Ep Ef Hne.
  unfold upload, bind, lift, dict_getitem, open_rb, raise.
  rewrite Em, Ep, Ef, read_all_file. cbn [sha256_fed].
  destruct (String.eqb _ (media_sha256 m)) eqn:Eh; [|reflexivity].
  apply String.eqb_eq in Eh. contradiction.
Qed.

Lemma verified_call_world (st st' : world) (mbm : dict Z media) (k : Z)
    (rep : ImageRepresentation.t) (args : put_object_args)
    (calls : list put_object_args) :
  after_puts st st' calls ->
  verified_call st' mbm k rep args -> verified_call st mbm k rep args.
Proof.
  intros (_ & Hr & Hf & _) (m & path & H1 & H2 & H3 & H4).
  exists m, path. rewrite <- Hr, <- Hf. auto.
Qed.

(** The upload loop makes verified calls only, at most one for each item
    and, when it ends without raising, exactly one for each, in order. *)
Lemma for_each_upload (mbm : dict Z media)
    (items : list (Z * ImageRepresentation.t)) (st st' : world)
    (r : result unit) :
  for_each items (upload mbm) st = (r, st') ->
  exists calls,
    after_puts st st' calls
    /\ Forall2 (fun item args =>
                  verified_call st mbm (fst item) (snd item) args)
               (firstn (length calls) items) calls
    /\ length calls <= length items
    /\ (r = Ok tt -> length calls = length items).
Proof.
  revert st. induction items as [|[k rep] items IH]; intros st;
    cbn [for_each length].
  - unfold ret. intros [= <- <-]. exists []. split; [apply after_puts_nil|].
    split; [constructor|]. split; [cbn; lia|reflexivity].
  - unfold bind at 1.
    destruct (upload mbm (k, rep) st) as [[[]|e] st1] eqn:E;
      apply upload_run in E;
      destruct E as [[-> (e' & He)]|(args & Hv & Hp & Hr)];
      try discriminate.
    + intros E'. apply IH in E'. destruct E' as (calls & Hp' & Hf & Hl & Hok).
      exists (args :: calls).
      split; [apply (after_puts_trans st st1 st' [args] calls); assumption|].
      split; [|split; [cbn; lia|intros Ho; cbn; now rewrite Hok]].
      cbn. constructor; [exact Hv|].
      eapply Forall2_impl; [|exact Hf]. intros item a Ha.
      eapply verified_call_world; eauto.
    + intros [= <- <-]. exists []. split; [apply after_puts_nil|].
      split; [constructor|]. split; [cbn; lia|discriminate].
    + intros [= <- <-]. exists [args]. split; [exact Hp|].
      split; [|split; [cbn; lia|discriminate]].
      cbn. constructor; [exact Hv|constructor].
Qed.

(** * Resolving the roles *)

Lemma get_rep_missing (links : dict string link)
    (rbm : dict Z ImageRepresentation.t) (lt : string) :
  dict_get lt links = None ->
  get_rep links rbm lt false =
    Raise (ExceptionFrom
             (append "Required key not found in " (repr_links links))
             (KeyError (KStr lt)))
  /\ get_rep links rbm lt true = Ok None.
Proof. intros E. unfold get_rep. rewrite E. split; reflexivity. Qed.

Lemma get_rep_found (links : dict string link)
    (rbm : dict Z ImageRepresentation.t) (lt : string) (l : link)
    (r : ImageRepresentation.t) :
  dict_get lt links = Some l ->
  dict_get (mediaid l) rbm = Some r ->
  get_rep links rbm lt false = Ok r
  /\ get_rep links rbm lt true = Ok (Some r).
Proof.
  intros E Er. unfold get_rep, dict_getitem. rewrite E, Er. split; reflexivity.
Qed.

(** What [map_values(rep_from_media, media_by_mediaid)] returns: an object
    of its own for each distinct media id of the links. *)
Lemma rep_by_mediaid_spec (links : dict string link) (st st1 : world)
    (rbm : dict Z ImageRepresentation.t) :
  map_values rep_from_media (media_by_mediaid_of links) st = (Ok rbm, st1) ->
  dict_keys rbm = dict_keys (media_by_mediaid_of links)
  /\ NoDup (dict_keys rbm)
  /\ NoDup (map ImageRepresentation.oid (dict_values rbm))
  /\ length rbm = length (distinct_mediaids links)
  /\ Forall valid_representation (dict_values rbm)
  /\ same_store st st1.
Proof.
  intros E. pose proof (map_values_from_store _ _ _ _ _ E) as Hs.
  destruct (media_by_mediaid_keys links) as (Hnd & _ & _).
  apply map_values_from_Ok in E; [|exact Hnd|reflexivity].
  destruct E as (new & -> & Hk & Ho & _ & Hv). cbn [app].
  split; [exact Hk|]. split; [now rewrite Hk|].
  split; [rewrite Ho; apply seq_NoDup|].
  split; [|split; assumption].
  rewrite <- media_by_mediaid_length.
  rewrite <- (length_map fst new), <- (length_map fst (media_by_mediaid_of links)).
  unfold dict_keys in Hk. now rewrite Hk.
Qed.

Lemma rep_by_mediaid_has (links : dict string link) (st st1 : world)
    (rbm : dict Z ImageRepresentation.t) (lt : string) (l : link) :
  map_values rep_from_media (media_by_mediaid_of links) st = (Ok rbm, st1) ->
  dict_get lt links = Some l ->
  exists r, dict_get (mediaid l) rbm = Some r.
Proof.
  intros E El. apply rep_by_mediaid_spec in E. destruct E as (Hk & _).
  apply dict_get_Some_In. rewrite Hk.
  apply (proj1 (proj2 (media_by_mediaid_keys links))).
  apply in_map. apply dict_get_In in El.
  apply (in_map snd) in El. exact El.
Qed.

(** Objects found under different keys are different objects. *)
Lemma distinct_keys_distinct_objects (rbm : dict Z ImageRepresentation.t)
    (k1 k2 : Z) (o1 o2 : ImageRepresentation.t) :
  NoDup (map ImageRepresentation.oid (dict_values rbm)) ->
  dict_get k1 rbm = Some o1 -> dict_get k2 rbm = Some o2 -> k1 <> k2 ->
  ImageRepresentation.is_ o1 o2 = false.
Proof.
  intros Hnd H1 H2 Hne. apply Nat.eqb_neq. intros Ho.
  apply dict_get_In in H1, H2. apply Hne. clear Hne.
  unfold dict_values in Hnd. rewrite map_map in Hnd.
  induction rbm as [|[k o] rbm IH]; [contradiction|].
  cbn in Hnd. inversion Hnd as [|? ? Hnot Hnd']; subst.
  destruct H1 as [[= -> ->]|H1], H2 as [[= -> ->]|H2].
  - reflexivity.
  - exfalso. apply Hnot. rewrite Ho.
    apply (in_map (fun x => ImageRepresentation.oid (snd x))) in H2. exact H2.
  - exfalso. apply Hnot. rewrite <- Ho.
    apply (in_map (fun x => ImageRepresentation.oid (snd x))) in H1. exact H1.
  - auto.
Qed.

(** The steps of a run of [create_reps] that returns. *)
Lemma create_reps_Ok (row : list link) (st st' : world)
    (reps : ImageRepresentations.t) (n : nat) :
  create_reps row st = (Ok (reps, n), st') ->
  exists links rbm st1 o c tc tg tw,
    retained_links row = Ok links
    /\ map_values rep_from_media (media_by_mediaid_of links) st = (Ok rbm, st1)
    /\ get_rep links rbm "submission" false = Ok o
    /\ get_rep links rbm "cover" false = Ok c
    /\ get_rep links rbm "thumbnail-custom" true = Ok tc
    /\ get_rep links rbm "thumbnail-generated" false = Ok tg
    /\ get_rep links rbm "thumbnail-generated-webp" true = Ok tw
    /\ reps = ImageRepresentations.init o (Some c) tc (Some tg) tw
    /\ for_each rbm (upload (media_by_mediaid_of links)) st1 = (Ok tt, st')
    /\ n = length rbm.
Proof.
  unfold create_reps. intros E.
  apply bind_Ok in E. destruct E as (links & s0 & E0 & E).
  apply lift_Ok in E0. destruct E0 as [E0 ->].
  apply bind_Ok in E. destruct E as (rbm & st1 & E1 & E).
  apply bind_Ok in E. destruct E as (o & s & Eo & E).
  apply lift_Ok in Eo. destruct Eo as [Eo ->].
  apply bind_Ok in E. destruct E as (c & s & Ec & E).
  apply lift_Ok in Ec. destruct Ec as [Ec ->].
  apply bind_Ok in E. destruct E as (tc & s & Etc & E).
  apply lift_Ok in Etc. destruct Etc as [Etc ->].
  apply bind_Ok in E. destruct E as (tg & s & Etg & E).
  apply lift_Ok in Etg. destruct Etg as [Etg ->].
  apply bind_Ok in E. destruct E as (tw & s & Etw & E).
  apply lift_Ok in Etw. destruct Etw as [Etw ->].
  apply bind_Ok in E. destruct E as ([] & s & Ef & E).
  unfold ret in E. injection E as <- <- <-.
  exists links, rbm, st1, o, c, tc, tg, tw. repeat split; assumption.
Qed.

Lemma get_rep_Ok_inv (links : dict string link)
    (rbm : dict Z ImageRepresentation.t) (lt : string) (l : link) :
  dict_get lt links = Some l ->
  (forall o, get_rep links rbm lt false = Ok o ->
             dict_get (mediaid l) rbm = Some o)
  /\ (forall o, get_rep links rbm lt true = Ok o ->
                exists r, o = Some r /\ dict_get (mediaid l) rbm = Some r).
Proof.
  intros E. unfold get_rep, dict_getitem. rewrite E.
  destruct (dict_get (mediaid l) rbm) as [r|].
  - split; [intros o [= <-]; reflexivity|]. intros o [= <-]. eauto.
  - split; intros o [=].
Qed.

(** In a run that returns, the slot of every link kept holds the object made
    for the media of that link. *)
Lemma slot_of_link (row : list link) (st st' : world)
    (reps : ImageRepresentations.t) (n : nat) (links : dict string link)
    (rbm : dict Z ImageRepresentation.t) (st1 : world) :
  create_reps row st = (Ok (reps, n), st') ->
  retained_links row = Ok links ->
  map_values rep_from_media (media_by_mediaid_of links) st = (Ok rbm, st1) ->
  forall role l, dict_get role links = Some l ->
    exists o, slot reps role = Some o /\ dict_get (mediaid l) rbm = Some o.
Proof.
  intros E El Em role l Hl.
  apply create_reps_Ok in E.
  destruct E as (links' & rbm' & st1' & o & c & tc & tg & tw & El' & Em'
                 & Eo & Ec & Etc & Etg & Etw & -> & _ & _).
  rewrite El in El'. injection El' as <-.
  rewrite Em in Em'. injection Em' as <- <-.
  pose proof (proj1 (retained_links_get _ _ El role l) Hl) as (Hrole & _ & _).
  cbn in Hrole.
  destruct Hrole as [<-|[<-|[<-|[<-|[<-|[]]]]]]; cbn;
    destruct (get_rep_Ok_inv links rbm _ l Hl) as [Hreq Hopt].
  - eauto.
  - eauto.
  - destruct (Hopt tc Etc) as (r & -> & Hr). eauto.
  - eauto.
  - destruct (Hopt tw Etw) as (r & -> & Hr). eauto.
Qed.

(** * The end-to-end scenario *)

Example example_row_runs :
  fst (create_reps example_row example_world) = Ok (reps_AB, 2).
Proof. vm_compute. reflexivity. Qed.

Example example_row_uploads :
  map Key_ (put_calls (snd (create_reps example_row example_world)))
  = ["AAECAwQFBgcICQoLDA0ODw.png"; "EBESExQVFhcYGRobHB0eHw.jpg"].
Proof. vm_compute. reflexivity. Qed.

(** * One representation for each media item *)

(** C5.  When [create_reps] returns, the links kept are those of the row
    with one of the five known roles, and every link kept has its slot
    filled; two roles whose links have the same media id hold
    the very same object, two roles whose links have different media ids
    hold different objects, so there is exactly one representation for each
    distinct media id; the count returned is the number of distinct media
    ids among the links kept, and as many objects were put in the bucket. *)
Theorem one_representation_per_media (row : list link) (st st' : world)
    (reps : ImageRepresentations.t) (n : nat) :
  create_reps row st = (Ok (reps, n), st') ->
  exists links,
    retained_links row = Ok links
    /\ (forall role l,
          dict_get role links = Some l <->
          In role known_link_types /\ In l row /\ link_type l = role)
    /\ n = length (distinct_mediaids links)
    /\ (forall role l, dict_get role links = Some l ->
          exists o, slot reps role = Some o)
    /\ (forall r1 r2 l1 l2 o1 o2,
          dict_get r1 links = Some l1 -> dict_get r2 links = Some l2 ->
          slot reps r1 = Some o1 -> slot reps r2 = Some o2 ->
          (mediaid l1 = mediaid l2 ->
           o1 = o2 /\ ImageRepresentation.is_ o1 o2 = true)
          /\ (mediaid l1 <> mediaid l2 ->
              ImageRepresentation.is_ o1 o2 = false))
    /\ exists calls, put_calls st' = put_calls st ++ calls /\ length calls = n.
Proof.
  intros E. pose proof E as E'. apply create_reps_Ok in E'.
  destruct E' as (links & rbm & st1 & o & c & tc & tg & tw & El & Em
                  & _ & _ & _ & _ & _ & _ & Ef & ->).
  pose proof (slot_of_link _ _ _ _ _ _ _ _ E El Em) as Hslot.
  pose proof (rep_by_mediaid_spec _ _ _ _ Em) as (_ & _ & Hoid & Hlen & _ & Hs).
  exists links. split; [exact El|].
  split; [exact (retained_links_get row links El)|].
  split; [exact Hlen|]. split; [|split].
  - intros role l Hl. destruct (Hslot role l Hl) as (x & Hx & _). eauto.
  - intros r1 r2 l1 l2 o1 o2 H1 H2 S1 S2.
    destruct (Hslot r1 l1 H1) as (x1 & Hx1 & G1).
    destruct (Hslot r2 l2 H2) as (x2 & Hx2 & G2).
    rewrite S1 in Hx1. injection Hx1 as <-.
    rewrite S2 in Hx2. injection Hx2 as <-.
    split.
    + intros Hm. rewrite Hm in G1. rewrite G1 in G2. injection G2 as ->.
      split; [reflexivity|]. apply Nat.eqb_refl.
    + intros Hm. eapply distinct_keys_distinct_objects; eauto.
  - apply for_each_upload in Ef.
    destruct Ef as (calls & (Hp & _) & _ & _ & Hok).
    exists calls. destruct Hs as (Hs & _).
    rewrite Hp, Hs. split; [reflexivity|]. now apply Hok.
Qed.

Lemma one_representation_per_media_witness :
  exists links,
    retained_links example_row = Ok links
    /\ (forall role l,
          dict_get role links = Some l <->
          In role known_link_types /\ In l example_row /\ link_type l = role)
    /\ 2 = length (distinct_mediaids links)
    /\ (forall role l, dict_get role links = Some l ->
          exists o, slot reps_AB role = Some o)
    /\ (forall r1 r2 l1 l2 o1 o2,
          dict_get r1 links = Some l1 -> dict_get r2 links = Some l2 ->
          slot reps_AB r1 = Some o1 -> slot reps_AB r2 = Some o2 ->
          (mediaid l1 = mediaid l2 ->
           o1 = o2 /\ ImageRepresentation.is_ o1 o2 = true)
          /\ (mediaid l1 <> mediaid l2 ->
              ImageRepresentation.is_ o1 o2 = false))
    /\ exists calls,
         put_calls (snd (create_reps example_row example_world))
         = put_calls example_world ++ calls
         /\ length calls = 2.
Proof.
  apply (one_representation_per_media example_row example_world
           (snd (create_reps example_row example_world)) reps_AB 2).
  apply run_result. vm_compute. reflexivity.
Defined.

(** Two roles on one media item: one object, and a count of one. *)
Example shared_media_counts_once :
  fst (create_reps [link_M1 "submission"; link_M1 "cover";
                    link_M1 "thumbnail-generated"] example_world)
  = Ok (ImageRepresentations.init rep_A (Some rep_A) None (Some rep_A) None, 1).
Proof. vm_compute. reflexivity. Qed.

(** * What a run puts in the bucket *)

(** Whatever its outcome, a run of [create_reps] calls the store only with
    files whose SHA-256 is the one recorded for their media. *)
Lemma create_reps_puts (row : list link) (st st' : world)
    (r : result (ImageRepresentations.t * nat)) :
  create_reps row st = (r, st') ->
  exists calls,
    after_puts st st' calls
    /\ Forall (fun args =>
                 exists links k m path,
                   retained_links row = Ok links
                   /\ dict_get k (media_by_mediaid_of links) = Some m
                   /\ file_path_of (MEDIA_ROOT st) m = Ok path
                   /\ files st path = Some (Body args)
                   /\ hex (Hashlib.sha256 (Body args)) = media_sha256 m)
              calls.
Proof.
  unfold create_reps, bind at 1, lift at 1.
  destruct (retained_links row) as [links|e] eqn:El;
    [|intros [= <- <-]; exists []; split; [apply after_puts_nil|constructor]].
  unfold bind at 1.
  destruct (map_values rep_from_media (media_by_mediaid_of links) st)
    as [[rbm|e] st1] eqn:Em;
    pose proof (map_values_from_store _ _ _ _ _ Em) as Hs;
    [|intros [= <- <-]; exists [];
      split; [now apply same_store_after_puts|constructor]].
  unfold bind at 1, lift at 1.
  destruct (get_rep links rbm "submission" false) as [o|e];
    [|intros [= <- <-]; exists [];
      split; [now apply same_store_after_puts|constructor]].
  unfold bind at 1, lift at 1.
  destruct (get_rep links rbm "cover" false) as [c|e];
    [|intros [= <- <-]; exists [];
      split; [now apply same_store_after_puts|constructor]].
  unfold bind at 1, lift at 1.
  destruct (get_rep links rbm "thumbnail-custom" true) as [tc|e];
    [|intros [= <- <-]; exists [];
      split; [now apply same_store_after_puts|constructor]].
  unfold bind at 1, lift at 1.
  destruct (get_rep links rbm "thumbnail-generated" false) as [tg|e];
    [|intros [= <- <-]; exists [];
      split; [now apply same_store_after_puts|constructor]].
  unfold bind at 1, lift at 1.
  destruct (get_rep links rbm "thumbnail-generated-webp" true) as [tw|e];
    [|intros [= <- <-]; exists [];
      split; [now apply same_store_after_puts|constructor]].
  unfold bind at 1.
  destruct (for_each rbm (upload (media_by_mediaid_of links)) st1)
    as [ru st2] eqn:Ef.
  apply for_each_upload in Ef. destruct Ef as (calls & Hp & Hf & _ & _).
  intros E. assert (st' = st2) as ->.
  { destruct ru as [[]|e]; unfold ret in E; now injection E. }
  exists calls. split.
  - apply (after_puts_trans st st1 st2 [] calls);
      [now apply same_store_after_puts|exact Hp].
  - clear E. destruct Hs as (_ & Hroot & Hfiles & _).
    clear Hp. revert Hf. generalize (firstn (length calls) rbm).
    intros items Hf.
    induction Hf as [|item args items calls Hv _ IH]; [constructor|].
    constructor; [|exact IH].
    destruct Hv as (m & path & H1 & H2 & H3 & H4 & _).
    exists links, (fst item), m, path.
    rewrite <- Hroot, <- Hfiles. auto.
Qed.

Lemma Forall2_In_left {A B} (P : A -> B -> Prop) (l1 : list A) (l2 : list B)
    (x : A) :
  Forall2 P l1 l2 -> In x l1 -> exists y, In y l2 /\ P x y.
Proof.
  induction 1 as [|a b l1 l2 Hab _ IH]; intros Hin; [contradiction|].
  destruct Hin as [<-|Hin].
  - exists b. split; [now left|exact Hab].
  - destruct (IH Hin) as (y & Hy & Hxy). exists y. split; [now right|exact Hxy].
Qed.

(** * A digest that differs stops the upload *)

(** C8.  For a media item whose file has a SHA-256 other than the one its
    record expects, the turn of the upload loop raises the mismatch
    exception and leaves the world as it was: [put_object] is not called for
    it.  In any run of [create_reps], whatever its outcome, every call made
    to [put_object] has as body a file whose SHA-256 is the expected one of
    its media; and a run over a row that keeps a media item with such a file
    does not return: it raises. *)
Theorem digest_mismatch_never_uploaded :
  (forall (media_by_mediaid : dict Z media) (k : Z)
          (rep : ImageRepresentation.t) (st : world) (m : media)
          (path content : bytes),
      dict_get k media_by_mediaid = Some m ->
      file_path_of (MEDIA_ROOT st) m = Ok path ->
      files st path = Some content ->
      hex (Hashlib.sha256 content) <> media_sha256 m ->
      upload media_by_mediaid (k, rep) st =
        (Raise (Exception
                  (mismatch_message (hex (Hashlib.sha256 content)) path)),
         st))
  /\ (forall (row : list link) (st st' : world)
             (r : result (ImageRepresentations.t * nat)),
        create_reps row st = (r, st') ->
        exists calls,
          put_calls st' = put_calls st ++ calls
          /\ Forall (fun args =>
                       exists links k m path,
                         retained_links row = Ok links
                         /\ dict_get k (media_by_mediaid_of links) = Some m
                         /\ file_path_of (MEDIA_ROOT st) m = Ok path
                         /\ files st path = Some (Body args)
                         /\ hex (Hashlib.sha256 (Body args)) = media_sha256 m)
                    calls)
  /\ (forall (row : list link) (st : world) (links : dict string link)
             (k : Z) (m : media) (path content : bytes),
        retained_links row = Ok links ->
        dict_get k (media_by_mediaid_of links) = Some m ->
        file_path_of (MEDIA_ROOT st) m = Ok path ->
        files st path = Some content ->
        hex (Hashlib.sha256 content) <> media_sha256 m ->
        exists e, fst (create_reps row st) = Raise e).
Proof.
  split; [exact upload_mismatch|]. split.
  - intros row st st' r E. apply create_reps_puts in E.
    destruct E as (calls & (Hp & _) & Hf). eauto.
  - intros row st links k m path content El Em Ep Ef Hne.
    destruct (create_reps row st) as [[[reps n]|e] st'] eqn:E; [|cbn; eauto].
    exfalso. apply create_reps_Ok in E.
    destruct E as (links' & rbm & st1 & _ & _ & _ & _ & _ & El' & Emv & _ & _
                   & _ & _ & _ & _ & Efor & _).
    rewrite El in El'. injection El' as <-.
    pose proof (rep_by_mediaid_spec _ _ _ _ Emv)
      as (Hk & _ & _ & _ & _ & (_ & Hroot & Hfiles & _)).
    apply for_each_upload in Efor.
    destruct Efor as (calls & _ & Hf & _ & Hlen).
    rewrite Hlen, firstn_all in Hf by reflexivity.
    assert (Hin : In k (dict_keys rbm)).
    { rewrite Hk. apply dict_get_Some_In. eauto. }
    apply dict_get_Some_In in Hin. destruct Hin as [rep Hrep].
    apply dict_get_In in Hrep.
    destruct (Forall2_In_left _ _ _ _ Hf Hrep) as (args & _ & Hv).
    destruct Hv as (m' & path' & H1 & H2 & H3 & H4 & _). cbn [fst] in H1.
    rewrite Em in H1. injection H1 as <-.
    rewrite Hroot, Ep in H2. injection H2 as <-.
    rewrite Hfiles, Ef in H3. injection H3 as ->.
    contradiction.
Qed.

Lemma digest_mismatch_never_uploaded_witness :
  upload (media_by_mediaid_of [("cover", link_M2 "cover")]) (2%Z, rep_B)
    damaged_world =
    (Raise (Exception
              (mismatch_message (hex (Hashlib.sha256 [x61; x62; x64]))
                 (bytes_of_str
                    (append "/media/ba/78/16/" (append sha256_abc ".jpg"))))),
     damaged_world).
Proof.
  destruct digest_mismatch_never_uploaded as [H _].
  apply (H _ _ _ _ (subdict_media (link_M2 "cover"))).
  - reflexivity.
  - vm_compute. reflexivity.
  - vm_compute. reflexivity.
  - vm_compute. discriminate.
Defined.

Example damaged_file_run :
  fst (create_reps example_row damaged_world) =
    Raise (Exception
             (append "SHA-256 mismatch: got "
                (append "'a52d159f262b2c6ddb724a61840befc36eb30c88877a4030b65cbe86298449c9'"
                   (append " for b'/media/ba/78/16/"
                      (append sha256_abc ".jpg'")))))
  /\ map Key_ (put_calls (snd (create_reps example_row damaged_world)))
     = ["AAECAwQFBgcICQoLDA0ODw.png"].
Proof. split; vm_compute; reflexivity. Qed.

(** * A role that is missing *)

Lemma get_rep_required_inv (links : dict string link)
    (rbm : dict Z ImageRepresentation.t) (lt : string)
    (o : ImageRepresentation.t) :
  get_rep links rbm lt false = Ok o ->
  exists l, dict_get lt links = Some l /\ dict_get (mediaid l) rbm = Some o.
Proof.
  unfold get_rep, dict_getitem.
  destruct (dict_get lt links) as [l|]; [|discriminate].
  destruct (dict_get (mediaid l) rbm) as [r|] eqn:Er; [|discriminate].
  intros [= <-]. exists l. split; [reflexivity|exact Er].
Qed.

Lemma get_rep_optional_inv (links : dict string link)
    (rbm : dict Z ImageRepresentation.t) (lt : string)
    (o : option ImageRepresentation.t) :
  get_rep links rbm lt true = Ok o ->
  o = match dict_get lt links with
      | Some l => dict_get (mediaid l) rbm
      | None => None
      end.
Proof.
  unfold get_rep, dict_getitem.
  destruct (dict_get lt links) as [l|]; [|intros [= <-]; reflexivity].
  destruct (dict_get (mediaid l) rbm) as [r|]; [|discriminate].
  intros [= <-]. reflexivity.
Qed.

(** With the links kept and the representations made, [get_rep] of a link
    type that is present returns. *)
Lemma get_rep_present (links : dict string link) (st st1 : world)
    (rbm : dict Z ImageRepresentation.t) (lt : string) (l : link) :
  map_values rep_from_media (media_by_mediaid_of links) st = (Ok rbm, st1) ->
  dict_get lt links = Some l ->
  exists r, get_rep links rbm lt false = Ok r
            /\ get_rep links rbm lt true = Ok (Some r).
Proof.
  intros Em El. destruct (rep_by_mediaid_has _ _ _ _ _ _ Em El) as [r Hr].
  exists r. now apply (get_rep_found links rbm lt l r).
Qed.

Lemma get_rep_optional_Ok (links : dict string link) (st st1 : world)
    (rbm : dict Z ImageRepresentation.t) (lt : string) :
  map_values rep_from_media (media_by_mediaid_of links) st = (Ok rbm, st1) ->
  exists o, get_rep links rbm lt true = Ok o.
Proof.
  intros Em. destruct (dict_get lt links) as [l|] eqn:El.
  - destruct (get_rep_present _ _ _ _ _ _ Em El) as (r & _ & Hr). eauto.
  - exists None. now apply get_rep_missing.
Qed.

(** C6, the claim as stated fails: with no cover link the exception raised
    has a message that does not mention the cover; what names the role is
    the KeyError the exception is chained to. *)
Lemma missing_cover_not_in_message :
  match fst (create_reps row_without_cover example_world) with
  | Raise (ExceptionFrom msg (KeyError (KStr role))) =>
      role = "cover" /\ contains "cover" msg = false
      /\ prefix "Required key not found in {'submission': {" msg = true
  | _ => False
  end.
Proof. vm_compute. repeat split. Qed.

(** The message is made of the links kept, whatever role is missing: with
    a WebP thumbnail and no generated thumbnail, the name of the missing
    role is in the message, as part of the key of the WebP thumbnail. *)
Example missing_role_in_another_key :
  match fst (create_reps row_without_generated example_world) with
  | Raise (ExceptionFrom msg (KeyError (KStr role))) =>
      role = "thumbnail-generated"
      /\ contains "'thumbnail-generated-webp': {" msg = true
      /\ contains "'thumbnail-generated': {" msg = false
  | _ => False
  end.
Proof. vm_compute. repeat split. Qed.

(** With a media item of which no representation can be made, the error of
    that is raised, not the one of the missing role. *)
Example unusable_media_before_missing_role :
  fst (create_reps row_bitmap_without_cover example_world)
  = Raise (KeyError (KStr "bmp")).
Proof. vm_compute. reflexivity. Qed.

Lemma rep_from_media_usable (m : media) (st : world) :
  (media_usable m = true ->
   exists r st1, rep_from_media m st = (Ok r, st1))
  /\ (media_usable m = false ->
      exists e st1, rep_from_media m st = (Raise e, st1)).
Proof.
  unfold media_usable, rep_from_media, bind, lift, token_bytes,
    ImageRepresentation.init, dict_getitem, FILE_KEY_LENGTH, raise.
  destruct (dict_get _ IMAGE_CONTENT_TYPES) as [ct|];
    [|split; [discriminate|intros _; eexists _, _; reflexivity]].
  destruct (dict_get "width" _) as [w|]; [|split; [discriminate|intros _; eexists _, _; reflexivity]].
  destruct (dict_get "height" _) as [h|]; [|split; [discriminate|intros _; eexists _, _; reflexivity]].
  rewrite length_map, length_seq. cbn [Nat.eqb negb].
  destruct ((1 <=? w)%Z && (w <=? 16383)%Z); cbn [negb andb];
    [|split; [discriminate|intros _; eexists _, _; reflexivity]].
  destruct ((1 <=? h)%Z && (h <=? 16383)%Z); cbn [negb];
    [|split; [discriminate|intros _; eexists _, _; reflexivity]].
  split; [|discriminate]. intros _. unfold fresh_id, ret.
  eexists _, _; reflexivity.
Qed.

Lemma map_values_from_usable {K : Type} `{Key K} (items : list (K * media)) :
  forall (acc : dict K ImageRepresentation.t) (st : world),
    (forallb media_usable (dict_values items) = true ->
     exists d st1,
       map_values_from rep_from_media items acc st = (Ok d, st1))
    /\ (forallb media_usable (dict_values items) = false ->
        exists e st1,
          map_values_from rep_from_media items acc st = (Raise e, st1)).
Proof.
  induction items as [|[k m] items IH]; intros acc st.
  - split; [|discriminate]. intros _. cbn. unfold ret. eauto.
  - unfold dict_values in *. cbn [map snd forallb map_values_from].
    destruct (rep_from_media_usable m st) as [Hu Hn].
    destruct (media_usable m); cbn [andb].
    + destruct (Hu eq_refl) as (r & st1 & E). unfold bind. rewrite E.
      apply IH.
    + destruct (Hn eq_refl) as (e & st1 & E). unfold bind. rewrite E.
      split; [discriminate|intros _; eexists _, _; reflexivity].
Qed.

(** C6, as amended.  A link type that is absent from the links kept makes
    [get_rep] raise, unless [missing_ok] is set, an Exception whose message
    is [Required key not found in] followed by the repr of the links kept,
    the same text whatever the link type, chained to the KeyError of that
    link type; with [missing_ok] set it returns None.  In [create_reps],
    when the first of submission, cover and thumbnail-generated that is
    absent from the links kept is [lt], the run raises and uploads nothing:
    it raises that exception for [lt] when a representation can be made of
    every media item kept, which is when every item is usable, and otherwise
    the error of making the representations.  In a run that returns, the
    three are present and an absent thumbnail-custom or
    thumbnail-generated-webp leaves its slot empty. *)
Theorem missing_role (row : list link) (st : world) :
  (forall links rbm lt,
      dict_get lt links = None ->
      get_rep links rbm lt false =
        Raise (ExceptionFrom
                 (append "Required key not found in " (repr_links links))
                 (KeyError (KStr lt)))
      /\ get_rep links rbm lt true = Ok None)
  /\ (forall links rbm lt lt',
        dict_get lt links = None -> dict_get lt' links = None ->
        exists msg,
          get_rep links rbm lt false
          = Raise (ExceptionFrom msg (KeyError (KStr lt)))
          /\ get_rep links rbm lt' false
             = Raise (ExceptionFrom msg (KeyError (KStr lt'))))
  /\ (forall links,
        retained_links row = Ok links ->
        forall lt,
          (lt = "submission"
           \/ (lt = "cover" /\ dict_get "submission" links <> None)
           \/ (lt = "thumbnail-generated"
               /\ dict_get "submission" links <> None
               /\ dict_get "cover" links <> None)) ->
          dict_get lt links = None ->
          exists r st1,
            map_values rep_from_media (media_by_mediaid_of links) st = (r, st1)
            /\ ((exists rbm, r = Ok rbm)
                <-> forallb media_usable
                      (dict_values (media_by_mediaid_of links)) = true)
            /\ create_reps row st =
                 (Raise (match r with
                         | Ok _ =>
                             ExceptionFrom
                               (append "Required key not found in "
                                       (repr_links links))
                               (KeyError (KStr lt))
                         | Raise e => e
                         end), st1)
            /\ put_calls st1 = put_calls st)
  /\ (forall reps n st',
        create_reps row st = (Ok (reps, n), st') ->
        exists links,
          retained_links row = Ok links
          /\ dict_get "submission" links <> None
          /\ dict_get "cover" links <> None
          /\ dict_get "thumbnail-generated" links <> None
          /\ (dict_get "thumbnail-custom" links = None ->
              ImageRepresentations.thumbnail_custom reps = None)
          /\ (dict_get "thumbnail-generated-webp" links = None ->
              ImageRepresentations.thumbnail_generated_webp reps = None)).
Proof.
  split; [intros links rbm lt; apply get_rep_missing|].
  split; [|split].
  - intros links rbm lt lt' Hn Hn'. eexists. split.
    + exact (proj1 (get_rep_missing links rbm lt Hn)).
    + exact (proj1 (get_rep_missing links rbm lt' Hn')).
  - intros links El lt Hlt Hnone.
    destruct (map_values rep_from_media (media_by_mediaid_of links) st)
      as [r st1] eqn:Em.
    exists r, st1. split; [reflexivity|].
    destruct (map_values_from_usable (media_by_mediaid_of links) [] st)
      as [Hu Hn].
    split; [|split; [|now apply (map_values_from_store _ _ _ _ _ Em)]].
    { unfold map_values in Em. split.
      - intros (rbm & ->).
        destruct (forallb _ _); [reflexivity|].
        destruct (Hn eq_refl) as (e & st2 & E2). rewrite E2 in Em.
        discriminate Em.
      - intros Hall. destruct (Hu Hall) as (d & st2 & E2).
        rewrite E2 in Em. injection Em as <- _. eauto. }
    unfold create_reps, bind at 1, lift at 1. rewrite El.
    unfold bind at 1. rewrite Em.
    destruct r as [rbm|e]; [|reflexivity].
    destruct Hlt as [->|[[-> Hs]|(-> & Hs & Hc)]].
    + unfold bind at 1, lift at 1.
      rewrite (proj1 (get_rep_missing links rbm _ Hnone)). reflexivity.
    + destruct (dict_get "submission" links) as [ls|] eqn:Es; [|contradiction].
      destruct (get_rep_present _ _ _ _ _ _ Em Es) as (o & Ho & _).
      unfold bind at 1, lift at 1. rewrite Ho.
      unfold bind at 1, lift at 1.
      rewrite (proj1 (get_rep_missing links rbm _ Hnone)). reflexivity.
    + destruct (dict_get "submission" links) as [ls|] eqn:Es; [|contradiction].
      destruct (dict_get "cover" links) as [lc|] eqn:Ec; [|contradiction].
      destruct (get_rep_present _ _ _ _ _ _ Em Es) as (o & Ho & _).
      destruct (get_rep_present _ _ _ _ _ _ Em Ec) as (c & Hc' & _).
      destruct (get_rep_optional_Ok links _ _ _ "thumbnail-custom" Em)
        as (tc & Htc).
      unfold bind at 1, lift at 1. rewrite Ho.
      unfold bind at 1, lift at 1. rewrite Hc'.
      unfold bind at 1, lift at 1. rewrite Htc.
      unfold bind at 1, lift at 1.
      rewrite (proj1 (get_rep_missing links rbm _ Hnone)). reflexivity.
  - intros reps n st' E. apply create_reps_Ok in E.
    destruct E as (links & rbm & st1 & o & c & tc & tg & tw & El & _
                   & Eo & Ec & Etc & Etg & Etw & -> & _ & _).
    exists links. split; [exact El|].
    apply get_rep_required_inv in Eo, Ec, Etg.
    destruct Eo as (lo & Eo & _), Ec as (lc & Ec & _), Etg as (lg & Etg & _).
    rewrite Eo, Ec, Etg.
    split; [discriminate|]. split; [discriminate|]. split; [discriminate|].
    apply get_rep_optional_inv in Etc, Etw. cbn.
    split; intros Hn; rewrite Hn in *; assumption.
Qed.

Lemma missing_role_witness :
  (exists r st1,
     map_values rep_from_media
       (media_by_mediaid_of
          [("submission", link_M1 "submission");
           ("thumbnail-generated", link_M2 "thumbnail-generated")])
       example_world = (r, st1)
     /\ ((exists rbm, r = Ok rbm)
         <-> forallb media_usable
               (dict_values
                  (media_by_mediaid_of
                     [("submission", link_M1 "submission");
                      ("thumbnail-generated", link_M2 "thumbnail-generated")]))
             = true)
     /\ create_reps row_without_cover example_world =
          (Raise (match r with
                  | Ok _ =>
                      ExceptionFrom
                        (append "Required key not found in "
                           (repr_links
                              [("submission", link_M1 "submission");
                               ("thumbnail-generated",
                                link_M2 "thumbnail-generated")]))
                        (KeyError (KStr "cover"))
                  | Raise e => e
                  end), st1)
     /\ put_calls st1 = put_calls example_world)
  /\ ImageRepresentations.thumbnail_custom reps_AB = None.
Proof.
  destruct (missing_role row_without_cover example_world) as (_ & _ & H2 & _).
  destruct (missing_role example_row example_world) as (_ & _ & _ & H3).
  split.
  - apply (H2 [("submission", link_M1 "submission");
               ("thumbnail-generated", link_M2 "thumbnail-generated")]).
    + reflexivity.
    + right. left. split; [reflexivity|discriminate].
    + reflexivity.
  - destruct (H3 reps_AB 2 (snd (create_reps example_row example_world)))
      as (links & El & _ & _ & _ & Hc & _).
    + apply run_result. vm_compute. reflexivity.
    + apply Hc. vm_compute in El. injection El as <-. reflexivity.
Defined.

(** * What [create_reps] returns *)

(** C7, the claim as stated fails: what a run returns is the same for two
    rows whose mappings from media id to representation differ, so the
    mapping is no part of it; the value returned is the pair of the set and
    the count. *)
Lemma mapping_not_returned :
  fst (create_reps (row_on_media 1) example_world)
  = fst (create_reps (row_on_media 7) example_world)
  /\ fst (create_reps (row_on_media 1) example_world)
     = Ok (ImageRepresentations.init rep_A (Some rep_A) None (Some rep_A) None,
           1)
  /\ fst (rep_by_mediaid_of (row_on_media 1) example_world)
     = Ok [(1%Z, rep_A)]
  /\ fst (rep_by_mediaid_of (row_on_media 7) example_world)
     = Ok [(7%Z, rep_A)]
  /\ fst (rep_by_mediaid_of (row_on_media 1) example_world)
     <> fst (rep_by_mediaid_of (row_on_media 7) example_world).
Proof.
  repeat split; try (vm_compute; reflexivity).
  vm_compute. discriminate.
Qed.

(** C7, as amended.  When it returns, [create_reps] returns a pair: the set
    built from the representations that the mapping holds for the media of
    the submission, cover and thumbnail-generated links and, where present,
    of the thumbnail-custom and thumbnail-generated-webp links, and the
    number of entries of the mapping, which is the number of distinct media
    items; the mapping itself is not returned. *)
Theorem create_reps_returns_pair (row : list link) (st st' : world)
    (reps : ImageRepresentations.t) (n : nat) :
  create_reps row st = (Ok (reps, n), st') ->
  exists links rbm st1 lo lc lg,
    retained_links row = Ok links
    /\ rep_by_mediaid_of row st = (Ok rbm, st1)
    /\ n = length rbm
    /\ n = length (distinct_mediaids links)
    /\ dict_get "submission" links = Some lo
    /\ dict_get "cover" links = Some lc
    /\ dict_get "thumbnail-generated" links = Some lg
    /\ dict_get (mediaid lo) rbm = Some (ImageRepresentations.original reps)
    /\ dict_get (mediaid lc) rbm = Some (ImageRepresentations.cover reps)
    /\ dict_get (mediaid lg) rbm
       = Some (ImageRepresentations.thumbnail_generated reps)
    /\ ImageRepresentations.thumbnail_custom reps
       = match dict_get "thumbnail-custom" links with
         | Some l => dict_get (mediaid l) rbm
         | None => None
         end
    /\ ImageRepresentations.thumbnail_generated_webp reps
       = match dict_get "thumbnail-generated-webp" links with
         | Some l => dict_get (mediaid l) rbm
         | None => None
         end.
Proof.
  intros E. apply create_reps_Ok in E.
  destruct E as (links & rbm & st1 & o & c & tc & tg & tw & El & Em
                 & Eo & Ec & Etc & Etg & Etw & -> & _ & ->).
  apply get_rep_required_inv in Eo, Ec, Etg.
  destruct Eo as (lo & Eo & Ho), Ec as (lc & Ec & Hc), Etg as (lg & Etg & Hg).
  apply get_rep_optional_inv in Etc, Etw.
  exists links, rbm, st1, lo, lc, lg.
  split; [exact El|]. split.
  { unfold rep_by_mediaid_of, bind, lift. rewrite El. exact Em. }
  split; [reflexivity|].
  split; [now apply (rep_by_mediaid_spec links st st1 rbm)|].
  cbn. repeat split; assumption.
Qed.

Lemma create_reps_returns_pair_witness :
  exists links rbm st1 lo lc lg,
    retained_links example_row = Ok links
    /\ rep_by_mediaid_of example_row example_world = (Ok rbm, st1)
    /\ 2 = length rbm
    /\ 2 = length (distinct_mediaids links)
    /\ dict_get "submission" links = Some lo
    /\ dict_get "cover" links = Some lc
    /\ dict_get "thumbnail-generated" links = Some lg
    /\ dict_get (mediaid lo) rbm = Some (ImageRepresentations.original reps_AB)
    /\ dict_get (mediaid lc) rbm = Some (ImageRepresentations.cover reps_AB)
    /\ dict_get (mediaid lg) rbm
       = Some (ImageRepresentations.thumbnail_generated reps_AB)
    /\ ImageRepresentations.thumbnail_custom reps_AB
       = match dict_get "thumbnail-custom" links with
         | Some l => dict_get (mediaid l) rbm
         | None => None
         end
    /\ ImageRepresentations.thumbnail_generated_webp reps_AB
       = match dict_get "thumbnail-generated-webp" links with
         | Some l => dict_get (mediaid l) rbm
         | None => None
         end.
Proof.
  apply (create_reps_returns_pair example_row example_world
           (snd (create_reps example_row example_world)) reps_AB 2).
  apply run_result. vm_compute. reflexivity.
Defined.


(** * Further properties: the helpers on dictionaries *)

Section LookupBy.
Context {K X : Type} `{Key K}.

Lemma keyed_keys (key_func : X -> K) (l : list X) :
  dict_keys (keyed key_func l) = map key_func l.
Proof. unfold dict_keys, keyed. rewrite map_map. reflexivity. Qed.

Lemma lookup_by_from_unique (key_func : X -> K) (rest pre : list X) :
  NoDup (map key_func (pre ++ rest)) ->
  lookup_by_from rest key_func (keyed key_func pre)
  = Ok (keyed key_func (pre ++ rest)).
Proof.
  revert pre. induction rest as [|x rest IH]; intros pre Hnd; cbn.
  - now rewrite app_nil_r.
  - unfold dict_mem.
    destruct (dict_get (key_func x) (keyed key_func pre)) as [v|] eqn:E.
    + exfalso. assert (Hin : In (key_func x) (map key_func pre)).
      { rewrite <- keyed_keys. apply dict_get_Some_In. eauto. }
      rewrite map_app in Hnd. cbn in Hnd.
      apply NoDup_remove_2 in Hnd. apply Hnd. apply in_or_app. now left.
    + rewrite (dict_set_new _ _ _ E).
      replace (keyed key_func pre ++ [(key_func x, x)])
        with (keyed key_func (pre ++ [x]))
        by (unfold keyed; now rewrite map_app).
      rewrite IH by (rewrite <- app_assoc; exact Hnd).
      now rewrite <- app_assoc.
Qed.

Lemma lookup_by_from_repeated (key_func : X -> K) (rest pre : list X) :
  NoDup (map key_func pre) ->
  ~ NoDup (map key_func (pre ++ rest)) ->
  exists l1 x l2 y l3,
    pre ++ rest = l1 ++ x :: l2 ++ y :: l3
    /\ key_func x = key_func y
    /\ lookup_by_from rest key_func (keyed key_func pre)
       = Raise (ValueError (append "Unexpected duplicate key "
                                   (key_repr (key_func y)))).
Proof.
  revert pre. induction rest as [|y rest IH]; intros pre Hpre Hnd.
  - rewrite app_nil_r in Hnd. contradiction.
  - cbn [lookup_by_from]. unfold dict_mem.
    destruct (dict_get (key_func y) (keyed key_func pre)) as [v|] eqn:E.
    + assert (Hin : In (key_func y) (map key_func pre)).
      { rewrite <- keyed_keys. apply dict_get_Some_In. eauto. }
      apply in_map_iff in Hin. destruct Hin as (x & Hx & Hin).
      apply in_split in Hin. destruct Hin as (l1 & l2 & ->).
      exists l1, x, l2, y, rest. rewrite <- app_assoc. cbn. auto.
    + rewrite (dict_set_new _ _ _ E).
      replace (keyed key_func pre ++ [(key_func y, y)])
        with (keyed key_func (pre ++ [y]))
        by (unfold keyed; now rewrite map_app).
      assert (Hn : ~ In (key_func y) (map key_func pre)).
      { rewrite <- keyed_keys. now apply dict_get_None. }
      destruct (IH (pre ++ [y])) as (l1 & x & l2 & z & l3 & E1 & E2 & E3).
      * rewrite map_app. cbn. apply NoDup_app; repeat split; auto.
        -- constructor; [tauto|constructor].
        -- intros k Hk [<-|[]]. contradiction.
      * now rewrite <- app_assoc.
      * exists l1, x, l2, z, l3. rewrite <- app_assoc in E1. auto.
Qed.

(** X1.  [lookup_by] returns when no two items have the same key, and then
    the dictionary holds every item under its key, in the order of the
    items; otherwise it raises a ValueError naming, by its repr, a key that
    two items of the input have. *)
Theorem lookup_by_unique_keys (iterable : list X) (key_func : X -> K) :
  (NoDup (map key_func iterable) ->
   lookup_by iterable key_func = Ok (keyed key_func iterable))
  /\ (~ NoDup (map key_func iterable) ->
      exists l1 x l2 y l3,
        iterable = l1 ++ x :: l2 ++ y :: l3
        /\ key_func x = key_func y
        /\ lookup_by iterable key_func
           = Raise (ValueError (append "Unexpected duplicate key "
                                       (key_repr (key_func y))))).
Proof.
  split; intros Hnd.
  - apply (lookup_by_from_unique key_func iterable []). exact Hnd.
  - apply (lookup_by_from_repeated key_func iterable []); [constructor|exact Hnd].
Qed.
End LookupBy.

Lemma lookup_by_unique_keys_witness :
  lookup_by example_row link_type = Ok (keyed link_type example_row).
Proof.
  apply (lookup_by_unique_keys example_row link_type).
  cbn. repeat constructor; cbn; intuition discriminate.
Defined.

Section SubdictOrder.
Context {K V : Type} `{Key K}.

Lemma subdict_from_ext (d d' : dict K V) (keys : list K) (acc : dict K V) :
  (forall k, In k keys -> dict_get k d = dict_get k d') ->
  fold_left (subdict_step d) keys acc = fold_left (subdict_step d') keys acc.
Proof.
  revert acc. induction keys as [|k keys IH]; intros acc Hext; [reflexivity|].
  cbn. unfold subdict_step at 2 4. rewrite (Hext k) by now left.
  apply IH. intros k' Hk'. apply Hext. now right.
Qed.

Lemma subdict_from_order (d : dict K V) (keys : list K) (acc : dict K V) :
  NoDup keys ->
  (forall k, In k keys -> dict_get k acc = None) ->
  fold_left (subdict_step d) keys acc
  = acc ++ flat_map (fun k => match dict_get k d with
                              | Some v => [(k, v)]
                              | None => []
                              end) keys.
Proof.
  revert acc. induction keys as [|k keys IH]; intros acc Hnd Hacc; cbn.
  - now rewrite app_nil_r.
  - inversion Hnd as [|? ? Hk Hnd']; subst.
    unfold subdict_step at 2. destruct (dict_get k d) as [v|].
    + rewrite (dict_set_new k v acc) by (apply Hacc; now left).
      rewrite IH; [now rewrite <- app_assoc|exact Hnd'|].
      intros k' Hk'. apply dict_get_None. unfold dict_keys.
      rewrite map_app, in_app_iff. cbn. intros [Hin|[<-|[]]].
      * assert (Hn : dict_get k' acc = None) by (apply Hacc; now right).
        apply dict_get_None in Hn. contradiction.
      * contradiction.
    + apply IH; [exact Hnd'|]. intros k' Hk'. apply Hacc. now right.
Qed.

(** X2.  [subdict(d, keys)], for keys given once each, holds the keys that
    are in [d], with their values in [d], in the order of [keys] and not in
    that of [d]; a key that is not in [d] is left out without an error. *)
Theorem subdict_in_key_order (d : dict K V) (keys : list K) :
  NoDup keys ->
  subdict d keys
  = flat_map (fun k => match dict_get k d with
                       | Some v => [(k, v)]
                       | None => []
                       end) keys.
Proof.
  intros Hnd. unfold subdict.
  rewrite subdict_from_order; [reflexivity|exact Hnd|reflexivity].
Qed.
End SubdictOrder.

Lemma subdict_in_key_order_witness :
  subdict [("b", 2%Z); ("a", 1%Z)] ["a"; "c"; "b"] = [("a", 1%Z); ("b", 2%Z)].
Proof.
  change [("a", 1%Z); ("b", 2%Z)]
    with (flat_map (fun k => match dict_get k [("b", 2%Z); ("a", 1%Z)] with
                             | Some v => [(k, v)]
                             | None => []
                             end) ["a"; "c"; "b"]).
  apply (subdict_in_key_order [("b", 2%Z); ("a", 1%Z)] ["a"; "c"; "b"]).
  repeat constructor; cbn; intuition discriminate.
Defined.

(** * Further properties: the links of a row *)

Lemma keyed_get {K X} `{Key K} (key_func : X -> K) (l : list X) (k : K) (x : X) :
  NoDup (map key_func l) ->
  dict_get k (keyed key_func l) = Some x <-> In x l /\ key_func x = k.
Proof.
  intros Hnd. split.
  - intros Hg. apply dict_get_In in Hg. unfold keyed in Hg.
    apply in_map_iff in Hg. destruct Hg as (y & [= <- <-] & Hy). auto.
  - intros [Hx <-]. apply dict_get_NoDup.
    + now rewrite keyed_keys.
    + unfold keyed. apply in_map_iff. eauto.
Qed.

Lemma known_link_In (l : link) :
  known_link l = true <-> In (link_type l) known_link_types.
Proof.
  unfold known_link. rewrite existsb_exists. split.
  - intros (k & Hk & E). apply String.eqb_eq in E. now rewrite E.
  - intros Hin. exists (link_type l). split; [exact Hin|apply String.eqb_refl].
Qed.

(** Rows with the same links of known roles keep the same links. *)
Lemma retained_links_agree (row row' : list link) :
  NoDup (map link_type row) -> NoDup (map link_type row') ->
  (forall l, known_link l = true -> (In l row <-> In l row')) ->
  retained_links row = retained_links row'.
Proof.
  intros Hnd Hnd' Hsame. unfold retained_links, lookup_by.
  rewrite (lookup_by_from_unique link_type row []) by exact Hnd.
  rewrite (lookup_by_from_unique link_type row' []) by exact Hnd'.
  cbn [rbind app]. f_equal. unfold subdict. apply subdict_from_ext.
  intros k Hk.
  destruct (dict_get k (keyed link_type row)) as [x|] eqn:E.
  - symmetry. apply (keyed_get link_type row k x Hnd) in E.
    destruct E as [Hx <-]. apply (keyed_get link_type row' _ x Hnd').
    split; [|reflexivity]. apply Hsame; [now apply known_link_In|exact Hx].
  - destruct (dict_get k (keyed link_type row')) as [x|] eqn:E'; [|reflexivity].
    apply (keyed_get link_type row' k x Hnd') in E'. destruct E' as [Hx <-].
    assert (Some x = None) as [=].
    rewrite <- E. symmetry. apply (keyed_get link_type row _ x Hnd).
    split; [|reflexivity]. apply Hsame; [now apply known_link_In|exact Hx].
Qed.

Lemma create_reps_agree (row row' : list link) (st : world) :
  retained_links row = retained_links row' ->
  create_reps row st = create_reps row' st.
Proof. intros E. unfold create_reps. now rewrite E. Qed.

(** X3.  The order of the links in a row does not matter: two rows with the
    same links in another order, no link type coming twice, give the same
    outcome of [create_reps], the same representations with the same keys,
    and leave the same world, so the same uploads in the same order. *)
Theorem create_reps_any_order (row row' : list link) (st : world) :
  NoDup (map link_type row) ->
  Permutation row row' ->
  create_reps row st = create_reps row' st.
Proof.
  intros Hnd Hp. apply create_reps_agree. apply retained_links_agree.
  - exact Hnd.
  - eapply Permutation_NoDup; [|exact Hnd]. now apply Permutation_map.
  - intros l _. split; apply Permutation_in; [exact Hp|now apply Permutation_sym].
Qed.

Lemma create_reps_any_order_witness :
  create_reps example_row example_world
  = create_reps [link_M2 "thumbnail-generated"; link_M1 "cover";
                 link_M1 "submission"] example_world.
Proof.
  apply create_reps_any_order.
  - cbn. repeat constructor; cbn; intuition discriminate.
  - apply (Permutation_rev example_row).
Defined.

(** Dropping the links of unknown roles keeps the link types distinct. *)
Lemma known_links_distinct (row : list link) :
  NoDup (map link_type row) -> NoDup (map link_type (filter known_link row)).
Proof.
  induction row as [|x row IH]; cbn [map filter]; [auto|].
  intros Hnd. inversion Hnd as [|? ? Hn Hnd']; subst.
  destruct (known_link x); cbn [map]; [|auto].
  constructor; [|auto]. intros Hin. apply Hn.
  apply in_map_iff in Hin. destruct Hin as (y & Hy & Hin).
  apply filter_In in Hin. apply in_map_iff. exists y. tauto.
Qed.

(** X4.  Links of roles other than the five known ones are ignored: when no
    link type comes twice, a row gives the same outcome and leaves the same
    world as the row without its links of unknown roles. *)
Theorem unknown_roles_ignored (row : list link) (st : world) :
  NoDup (map link_type row) ->
  create_reps row st = create_reps (filter known_link row) st.
Proof.
  intros Hnd. apply create_reps_agree. apply retained_links_agree.
  - exact Hnd.
  - now apply known_links_distinct.
  - intros l Hl. rewrite filter_In. tauto.
Qed.

Lemma unknown_roles_ignored_witness :
  create_reps (link_M2 "banner" :: example_row) example_world
  = create_reps example_row example_world.
Proof.
  apply (unknown_roles_ignored (link_M2 "banner" :: example_row)).
  cbn. repeat constructor; cbn; intuition discriminate.
Defined.

(** X5.  A row in which a link type comes twice is refused before anything
    is created or uploaded, also when that link type is none of the known
    ones: [create_reps] raises the ValueError of [lookup_by] for a link type
    of two links of the row, and the world is unchanged. *)
Theorem repeated_role_refused (row : list link) (st : world) :
  ~ NoDup (map link_type row) ->
  exists l1 x l2 y l3,
    row = l1 ++ x :: l2 ++ y :: l3
    /\ link_type x = link_type y
    /\ create_reps row st
       = (Raise (ValueError (append "Unexpected duplicate key "
                                    (Py.repr_str (link_type y)))), st).
Proof.
  intros Hnd.
  destruct (lookup_by_from_repeated link_type row [])
    as (l1 & x & l2 & y & l3 & E1 & E2 & E3); [constructor|exact Hnd|].
  exists l1, x, l2, y, l3. split; [exact E1|]. split; [exact E2|].
  change (keyed link_type []) with (@nil (string * link)) in E3.
  unfold create_reps, bind, lift, retained_links, lookup_by.
  rewrite E3. reflexivity.
Qed.

Lemma repeated_role_refused_witness :
  exists l1 x l2 y l3,
    row_with_repeated_unknown = l1 ++ x :: l2 ++ y :: l3
    /\ link_type x = link_type y
    /\ create_reps row_with_repeated_unknown example_world
       = (Raise (ValueError (append "Unexpected duplicate key "
                                    (Py.repr_str (link_type y)))),
          example_world).
Proof.
  apply (repeated_role_refused row_with_repeated_unknown example_world).
  cbn. intros Hnd.
  repeat match goal with
         | H : NoDup (_ :: _) |- _ => inversion H; clear H; subst
         end.
  cbn in *. tauto.
Defined.

(** * Further properties: creating the representations *)

(** X6.  Nothing is uploaded before every representation is created and
    every required role is resolved: a run of [create_reps] that has called
    [put_object] at all, whatever its outcome, has kept the links of the
    row, has made a valid representation for every media item of them and
    has found the submission, cover and thumbnail-generated links.  So a
    row with a role that comes twice or is missing, a file type that is not
    known or a size out of range leaves no object in the bucket. *)
Theorem uploads_after_resolution (row : list link) (st st' : world)
    (r : result (ImageRepresentations.t * nat)) :
  create_reps row st = (r, st') ->
  put_calls st' <> put_calls st ->
  exists links rbm st1,
    retained_links row = Ok links
    /\ map_values rep_from_media (media_by_mediaid_of links) st = (Ok rbm, st1)
    /\ dict_get "submission" links <> None
    /\ dict_get "cover" links <> None
    /\ dict_get "thumbnail-generated" links <> None
    /\ Forall valid_representation (dict_values rbm).
Proof.
  unfold create_reps, bind at 1, lift at 1.
  destruct (retained_links row) as [links|e] eqn:El;
    [|intros [= _ <-] Hp; contradiction].
  unfold bind at 1.
  destruct (map_values rep_from_media (media_by_mediaid_of links) st)
    as [[rbm|e] st1] eqn:Em;
    pose proof (map_values_from_store _ _ _ _ _ Em) as (Hs & _);
    [|intros [= _ <-] Hp; contradiction].
  unfold bind at 1, lift at 1.
  destruct (get_rep links rbm "submission" false) as [o|e] eqn:Eo;
    [|intros [= _ <-] Hp; contradiction].
  unfold bind at 1, lift at 1.
  destruct (get_rep links rbm "cover" false) as [c|e] eqn:Ec;
    [|intros [= _ <-] Hp; contradiction].
  unfold bind at 1, lift at 1.
  destruct (get_rep links rbm "thumbnail-custom" true) as [tc|e];
    [|intros [= _ <-] Hp; contradiction].
  unfold bind at 1, lift at 1.
  destruct (get_rep links rbm "thumbnail-generated" false) as [tg|e] eqn:Eg;
    [|intros [= _ <-] Hp; contradiction].
  intros _ _. exists links, rbm, st1.
  apply get_rep_required_inv in Eo, Ec, Eg.
  destruct Eo as (lo & Eo & _), Ec as (lc & Ec & _), Eg as (lg & Eg & _).
  rewrite Eo, Ec, Eg.
  split; [first [reflexivity|assumption]|].
  split; [first [reflexivity|assumption]|].
  split; [discriminate|]. split; [discriminate|]. split; [discriminate|].
  now apply (rep_by_mediaid_spec links st st1 rbm).
Qed.

Lemma uploads_after_resolution_witness :
  exists links rbm st1,
    retained_links example_row = Ok links
    /\ map_values rep_from_media (media_by_mediaid_of links) damaged_world
       = (Ok rbm, st1)
    /\ dict_get "submission" links <> None
    /\ dict_get "cover" links <> None
    /\ dict_get "thumbnail-generated" links <> None
    /\ Forall valid_representation (dict_values rbm).
Proof.
  apply (uploads_after_resolution example_row damaged_world
           (snd (create_reps example_row damaged_world))
           (fst (create_reps example_row damaged_world))).
  - apply surjective_pairing.
  - vm_compute. discriminate.
Defined.

(** What [rep_from_media] does to the world when it returns. *)
Lemma rep_from_media_world (m : media) (st st' : world)
    (r : ImageRepresentation.t) :
  rep_from_media m st = (Ok r, st') ->
  drawn st' = drawn st + 16 /\ entropy st' = entropy st.
Proof.
  unfold rep_from_media, bind, lift, token_bytes, ImageRepresentation.init,
    dict_getitem, FILE_KEY_LENGTH.
  destruct (dict_get _ IMAGE_CONTENT_TYPES) as [ct|]; [|discriminate].
  destruct (dict_get "width" _) as [w|]; [|discriminate].
  destruct (dict_get "height" _) as [h|]; [|discriminate].
  destruct (negb _); [discriminate|].
  destruct (negb _); [discriminate|].
  destruct (negb _); [discriminate|].
  unfold fresh_id, ret. intros [= _ <-]. cbn. auto.
Qed.

Lemma map_values_from_keys {K : Type} `{Key K} (items : list (K * media))
    (acc d : dict K ImageRepresentation.t) (st st' : world) :
  map_values_from rep_from_media items acc st = (Ok d, st') ->
  NoDup (dict_keys items) ->
  (forall k, In k (dict_keys items) -> dict_get k acc = None) ->
  exists new,
    d = acc ++ new
    /\ length new = length items
    /\ drawn st' = drawn st + 16 * length items
    /\ (forall i k r, nth_error new i = Some (k, r) ->
          ImageRepresentation.file_key r
          = map (entropy st) (seq (drawn st + 16 * i) 16)
          /\ ImageRepresentation.oid r = next_id st + i).
Proof.
  revert acc st. induction items as [|[k v] items IH]; intros acc st;
    cbn [map_values_from].
  - unfold ret. intros [= <- <-] _ _. exists []. rewrite app_nil_r.
    split; [reflexivity|]. split; [reflexivity|].
    split; [cbn [length]; lia|].
    intros [|i] k r; discriminate.
  - intros E Hnd Hacc. apply bind_Ok in E. destruct E as (y & st1 & Ey & E).
    unfold dict_keys in Hnd. cbn [map fst] in Hnd.
    inversion Hnd as [|? ? Hk Hnd']; subst.
    rewrite (dict_set_new k y acc) in E by (apply Hacc; now left).
    apply IH in E; [|exact Hnd'|].
    + destruct E as (new & -> & Hlen & Hdr & Hnth).
      pose proof (rep_from_media_world _ _ _ _ Ey) as (Hd1 & He1).
      apply rep_from_media_Ok in Ey.
      destruct Ey as (Hoid & Hn1 & _ & _ & _ & _ & Hkey).
      exists ((k, y) :: new). rewrite <- app_assoc.
      split; [reflexivity|]. split; [cbn [length]; now rewrite Hlen|].
      split; [cbn [length]; lia|].
      intros i k' r' Hi. destruct i as [|i].
      * change (Some (k, y) = Some (k', r')) in Hi. injection Hi as <- <-.
        rewrite Hkey, Hoid. split; [|lia].
        replace (drawn st + 16 * 0) with (drawn st) by lia. reflexivity.
      * change (nth_error new i = Some (k', r')) in Hi.
        apply Hnth in Hi. destruct Hi as [Hf Ho].
        rewrite Hf, Ho, He1, Hd1, Hn1. split; [|lia].
        replace (drawn st + 16 + 16 * i) with (drawn st + 16 * S i) by lia.
        reflexivity.
    + intros k' Hk'. apply dict_get_None. unfold dict_keys.
      rewrite map_app, in_app_iff. cbn. intros [Hin|[<-|[]]].
      * assert (Hnone : dict_get k' acc = None) by (apply Hacc; now right).
        apply dict_get_None in Hnone. contradiction.
      * contradiction.
Qed.

(** X7.  Every representation gets a key of its own from the entropy
    source: when the representations of a row are made, the one of the
    [i]-th distinct media item, in the order of the roles, has as its key
    the 16 bytes drawn at the positions [16 i] to [16 i + 15] after the
    start and is the [i]-th object created, so no drawn byte serves two
    keys, and 16 bytes are drawn for each. *)
Theorem keys_are_drawn_apart (row : list link) (st st1 : world)
    (rbm : dict Z ImageRepresentation.t) :
  rep_by_mediaid_of row st = (Ok rbm, st1) ->
  drawn st1 = drawn st + 16 * length rbm
  /\ (forall i k r, nth_error rbm i = Some (k, r) ->
        ImageRepresentation.file_key r
        = map (entropy st) (seq (drawn st + 16 * i) 16)
        /\ ImageRepresentation.oid r = next_id st + i).
Proof.
  unfold rep_by_mediaid_of. intros E.
  apply bind_Ok in E. destruct E as (links & s0 & E0 & E).
  apply lift_Ok in E0. destruct E0 as [_ ->].
  destruct (media_by_mediaid_keys links) as (Hnd & _ & _).
  apply map_values_from_keys in E; [|exact Hnd|reflexivity].
  destruct E as (new & -> & Hlen & Hdr & Hnth). cbn [app].
  split; [now rewrite Hlen|exact Hnth].
Qed.

Lemma keys_are_drawn_apart_witness :
  drawn (snd (rep_by_mediaid_of example_row example_world))
  = drawn example_world + 16 * length [(1%Z, rep_A); (2%Z, rep_B)]
  /\ (forall i k r, nth_error [(1%Z, rep_A); (2%Z, rep_B)] i = Some (k, r) ->
        ImageRepresentation.file_key r
        = map (entropy example_world) (seq (drawn example_world + 16 * i) 16)
        /\ ImageRepresentation.oid r = next_id example_world + i).
Proof.
  apply (keys_are_drawn_apart example_row).
  apply run_result. vm_compute. reflexivity.
Defined.

(** X8.  The three tables agree: a file type that [IMAGE_CONTENT_TYPES]
    knows is stored under the extension made of a dot and that file type,
    its content type has a media type that begins with [image/], neither
    lookup in the tuples raises, and two content types never share an
    ordinal, an extension or a media type. *)
Theorem content_type_tables_agree :
  (forall ft ct,
      dict_get ft IMAGE_CONTENT_TYPES = Some ct ->
      ImageContentType.extension ct = Ok (append "." ft)
      /\ exists mt, ImageContentType.media_type ct = Ok mt
                    /\ prefix "image/" mt = true)
  /\ (forall ct, exists ft, dict_get ft IMAGE_CONTENT_TYPES = Some ct)
  /\ (forall a b,
        ImageContentType.value a = ImageContentType.value b
        \/ ImageContentType.extension a = ImageContentType.extension b
        \/ ImageContentType.media_type a = ImageContentType.media_type b ->
        a = b).
Proof.
  split; [|split].
  - intros ft ct Hg. apply dict_get_In in Hg. cbn in Hg.
    destruct Hg as [[= <- <-]|[[= <- <-]|[[= <- <-]|[[= <- <-]|[]]]]];
      (split; [reflexivity|eexists; split; reflexivity]).
  - intros []; [exists "png"|exists "jpg"|exists "gif"|exists "webp"]; reflexivity.
  - intros [] [] [E|[E|E]]; try reflexivity; discriminate E.
Qed.


(** * Further properties: the encoding *)

Lemma app_same_length {A} (a a' b b' : list A) :
  length a = length a' -> a ++ b = a' ++ b' -> a = a' /\ b = b'.
Proof.
  revert a'. induction a as [|x a IH]; intros [|x' a'] Hl E; try discriminate.
  - auto.
  - cbn in Hl, E. injection E as -> E. injection Hl as Hl.
    destruct (IH a' Hl E) as [-> ->]. auto.
Qed.

Lemma rep_bytes_fields (r : ImageRepresentation.t) :
  valid_representation r ->
  exists ct wh wl hh hl,
    rep_bytes r = ct :: ImageRepresentation.file_key r ++ [wh; wl; hh; hl]
    /\ Z.of_N (Byte.to_N ct)
       = ImageContentType.value (ImageRepresentation.content_type r)
    /\ (Z.of_N (Byte.to_N wh) * 256 + Z.of_N (Byte.to_N wl))%Z
       = ImageRepresentation.width r
    /\ (Z.of_N (Byte.to_N hh) * 256 + Z.of_N (Byte.to_N hl))%Z
       = ImageRepresentation.height r.
Proof.
  intros (Hw & Hh & Hk).
  destruct (struct_pack_HH_big_endian (ImageRepresentation.width r)
              (ImageRepresentation.height r))
    as (wh & wl & hh & hl & E & Vw & Vh); [lia|lia|].
  eexists _, wh, wl, hh, hl. split; [|split; [|split; assumption]].
  - unfold rep_bytes, ImageRepresentation.serialize_to.
    rewrite content_type_byte, E. cbn [rbind app]. reflexivity.
  - destruct (ImageRepresentation.content_type r); reflexivity.
Qed.

(** X9.  The 21 bytes of a valid representation determine it, its identity
    apart: two valid representations that are written as the same bytes
    have the same content type, the same key, the same width and the same
    height, so nothing of a representation is lost in its encoding. *)
Theorem representation_encoding_injective (r r' : ImageRepresentation.t) :
  valid_representation r -> valid_representation r' ->
  rep_bytes r = rep_bytes r' ->
  ImageRepresentation.content_type r = ImageRepresentation.content_type r'
  /\ ImageRepresentation.file_key r = ImageRepresentation.file_key r'
  /\ ImageRepresentation.width r = ImageRepresentation.width r'
  /\ ImageRepresentation.height r = ImageRepresentation.height r'.
Proof.
  intros Hv Hv' E.
  destruct (rep_bytes_fields r Hv) as (c & wh & wl & hh & hl & E1 & Vc & Vw & Vh).
  destruct (rep_bytes_fields r' Hv')
    as (c' & wh' & wl' & hh' & hl' & E1' & Vc' & Vw' & Vh').
  rewrite E1, E1' in E. injection E as -> E.
  destruct Hv as (_ & _ & Hk), Hv' as (_ & _ & Hk').
  apply app_same_length in E; [|congruence].
  destruct E as [Ek E]. injection E as -> -> -> ->.
  split; [|split; [exact Ek|split; congruence]].
  rewrite Vc in Vc'.
  destruct (ImageRepresentation.content_type r),
    (ImageRepresentation.content_type r'); try reflexivity; discriminate Vc'.
Qed.

Lemma representation_encoding_injective_witness :
  ImageRepresentation.content_type rep_A
  = ImageRepresentation.content_type
      {| ImageRepresentation.oid := 5;
         ImageRepresentation.content_type := ImageContentType.PNG;
         ImageRepresentation.file_key := ImageRepresentation.file_key rep_A;
         ImageRepresentation.width := 800;
         ImageRepresentation.height := 600 |}
  /\ ImageRepresentation.file_key rep_A = ImageRepresentation.file_key rep_A
  /\ ImageRepresentation.width rep_A = 800%Z
  /\ ImageRepresentation.height rep_A = 600%Z.
Proof.
  apply (representation_encoding_injective rep_A
           {| ImageRepresentation.oid := 5;
              ImageRepresentation.content_type := ImageContentType.PNG;
              ImageRepresentation.file_key := ImageRepresentation.file_key rep_A;
              ImageRepresentation.width := 800;
              ImageRepresentation.height := 600 |}).
  - unfold valid_representation; cbn; lia.
  - unfold valid_representation; cbn; lia.
  - reflexivity.
Defined.

(** The bytes of a set of valid representations, part by part. *)
Lemma serialize_set_parts (rs : ImageRepresentations.t) (f : bytes) :
  valid_representations rs ->
  ImageRepresentations.serialize_to rs f =
    Ok (f ++ [byte_of_Z (ImageRepresentations.included_mask rs)]
          ++ rep_bytes (ImageRepresentations.original rs)
          ++ (if ImageRepresentation.is_ (ImageRepresentations.cover rs)
                                         (ImageRepresentations.original rs)
              then [] else rep_bytes (ImageRepresentations.cover rs))
          ++ (if ImageRepresentation.is_
                   (ImageRepresentations.thumbnail_generated rs)
                   (ImageRepresentations.cover rs)
              then []
              else rep_bytes (ImageRepresentations.thumbnail_generated rs))
          ++ opt_rep_bytes (ImageRepresentations.thumbnail_custom rs)
          ++ opt_rep_bytes (ImageRepresentations.thumbnail_generated_webp rs)).
Proof.
  intros (Ho & Hc & Hg & Htc & Htw).
  unfold ImageRepresentations.serialize_to.
  rewrite bytes_of_ints_one by (pose proof (included_mask_range rs); lia).
  cbn [rbind].
  rewrite (proj1 (serialize_rep_bytes _ _ Ho)). cbn [rbind].
  destruct (ImageRepresentation.is_ (ImageRepresentations.cover rs) _);
    cbn [negb];
    [|rewrite (proj1 (serialize_rep_bytes _ _ Hc))]; cbn [rbind];
    (destruct (ImageRepresentation.is_
                 (ImageRepresentations.thumbnail_generated rs) _);
     cbn [negb];
     [|rewrite (proj1 (serialize_rep_bytes _ _ Hg))]; cbn [rbind];
     (destruct (ImageRepresentations.thumbnail_custom rs) as [tc|];
      [rewrite (proj1 (serialize_rep_bytes tc _ (Htc tc eq_refl)))|];
      cbn [rbind];
      (destruct (ImageRepresentations.thumbnail_generated_webp rs) as [tw|];
       [rewrite (proj1 (serialize_rep_bytes tw _ (Htw tw eq_refl)))|];
       cbn [rbind opt_rep_bytes];
       rewrite <- ?app_assoc, ?app_nil_r; cbn [app]; reflexivity))).
Qed.

Lemma serialized_set_parts_length (rs : ImageRepresentations.t) :
  valid_representations rs ->
  let out :=
    [byte_of_Z (ImageRepresentations.included_mask rs)]
      ++ rep_bytes (ImageRepresentations.original rs)
      ++ (if ImageRepresentation.is_ (ImageRepresentations.cover rs)
                                     (ImageRepresentations.original rs)
          then [] else rep_bytes (ImageRepresentations.cover rs))
      ++ (if ImageRepresentation.is_
               (ImageRepresentations.thumbnail_generated rs)
               (ImageRepresentations.cover rs)
          then []
          else rep_bytes (ImageRepresentations.thumbnail_generated rs))
      ++ opt_rep_bytes (ImageRepresentations.thumbnail_custom rs)
      ++ opt_rep_bytes (ImageRepresentations.thumbnail_generated_webp rs) in
  length out = 22 + 21 * included_count rs /\ 22 <= length out <= 106.
Proof.
  intros Hv out. subst out.
  destruct Hv as (Ho & Hc & Hg & Htc & Htw).
  pose proof (proj2 (serialize_rep_bytes _ [] Ho)) as Lo.
  pose proof (proj2 (serialize_rep_bytes _ [] Hc)) as Lc.
  pose proof (proj2 (serialize_rep_bytes _ [] Hg)) as Lg.
  unfold included_count.
  rewrite !length_app, Lo. cbn [length].
  assert (Ltc : length (opt_rep_bytes (ImageRepresentations.thumbnail_custom rs))
                = 21 * Nat.b2n (ImageRepresentations.is_not_None
                                  (ImageRepresentations.thumbnail_custom rs))).
  { destruct (ImageRepresentations.thumbnail_custom rs) as [c|]; [|reflexivity].
    cbn [opt_rep_bytes]. now rewrite (proj2 (serialize_rep_bytes c [] (Htc c eq_refl))). }
  assert (Ltw : length (opt_rep_bytes
                          (ImageRepresentations.thumbnail_generated_webp rs))
                = 21 * Nat.b2n (ImageRepresentations.is_not_None
                                  (ImageRepresentations.thumbnail_generated_webp rs))).
  { destruct (ImageRepresentations.thumbnail_generated_webp rs) as [c|];
      [|reflexivity].
    cbn [opt_rep_bytes]. now rewrite (proj2 (serialize_rep_bytes c [] (Htw c eq_refl))). }
  rewrite Ltc, Ltw.
  destruct (ImageRepresentation.is_ (ImageRepresentations.cover rs) _),
    (ImageRepresentation.is_ (ImageRepresentations.thumbnail_generated rs) _),
    (ImageRepresentations.is_not_None (ImageRepresentations.thumbnail_custom rs)),
    (ImageRepresentations.is_not_None
       (ImageRepresentations.thumbnail_generated_webp rs));
    cbn [negb Nat.b2n length]; rewrite ?Lc, ?Lg; lia.
Qed.

(** X10.  Serializing a set of valid representations never fails and
    appends 22 bytes, the mask and the original, and 21 more for each of
    the cover and the generated thumbnail that is another object than the
    slot it defaults to, and for each optional slot that is filled: from 22
    bytes to 106. *)
Theorem serialized_set_length (rs : ImageRepresentations.t) (f : bytes) :
  valid_representations rs ->
  exists out,
    ImageRepresentations.serialize_to rs f = Ok (f ++ out)
    /\ length out = 22 + 21 * included_count rs
    /\ 22 <= length out <= 106.
Proof.
  intros Hv. rewrite (serialize_set_parts rs f Hv).
  eexists. split; [reflexivity|].
  exact (serialized_set_parts_length rs Hv).
Qed.

Lemma serialized_set_length_witness :
  exists out,
    ImageRepresentations.serialize_to reps_AB [] = Ok ([] ++ out)
    /\ length out = 22 + 21 * included_count reps_AB
    /\ 22 <= length out <= 106.
Proof.
  apply (serialized_set_length reps_AB []).
  unfold valid_representations, valid_representation; cbn.
  repeat split; try lia; intros; discriminate.
Defined.

(** X11.  Two calls of the constructor give two objects, equal or not in
    their fields: a representation made after another one is not that one
    for [is], so a set with the first as original and the second as cover
    has bit 0 of its mask set and writes both. *)
Theorem constructed_twice_distinct (ct ct' : ImageContentType.t)
    (fk fk' : bytes) (w h w' h' : Z) (st st1 st1' st2 : world)
    (a b : ImageRepresentation.t)
    (tc tg tw : option ImageRepresentation.t) :
  ImageRepresentation.init ct fk w h st = (Ok a, st1) ->
  next_id st1 <= next_id st1' ->
  ImageRepresentation.init ct' fk' w' h' st1' = (Ok b, st2) ->
  ImageRepresentation.is_ a b = false
  /\ ImageRepresentation.is_ b a = false
  /\ Z.testbit (ImageRepresentations.included_mask
                  (ImageRepresentations.init a (Some b) tc tg tw)) 0 = true.
Proof.
  unfold ImageRepresentation.init.
  destruct (negb _); [discriminate|]. destruct (negb _); [discriminate|].
  destruct (negb _); [discriminate|].
  unfold bind, fresh_id, ret. intros [= <- <-]. cbn [next_id]. intros Hle.
  destruct (negb _); [discriminate|]. destruct (negb _); [discriminate|].
  destruct (negb _); [discriminate|].
  intros [= <- _].
  assert (Hab : ImageRepresentation.is_
                  {| ImageRepresentation.oid := next_id st;
                     ImageRepresentation.content_type := ct;
                     ImageRepresentation.file_key := fk;
                     ImageRepresentation.width := w;
                     ImageRepresentation.height := h |}
                  {| ImageRepresentation.oid := next_id st1';
                     ImageRepresentation.content_type := ct';
                     ImageRepresentation.file_key := fk';
                     ImageRepresentation.width := w';
                     ImageRepresentation.height := h' |} = false).
  { apply Nat.eqb_neq. cbn. lia. }
  assert (Hba : ImageRepresentation.is_
                  {| ImageRepresentation.oid := next_id st1';
                     ImageRepresentation.content_type := ct';
                     ImageRepresentation.file_key := fk';
                     ImageRepresentation.width := w';
                     ImageRepresentation.height := h' |}
                  {| ImageRepresentation.oid := next_id st;
                     ImageRepresentation.content_type := ct;
                     ImageRepresentation.file_key := fk;
                     ImageRepresentation.width := w;
                     ImageRepresentation.height := h |} = false).
  { apply Nat.eqb_neq. cbn. lia. }
  split; [exact Hab|]. split; [exact Hba|].
  rewrite included_mask_cases.
  unfold ImageRepresentations.init.
  cbn [ImageRepresentations.cover ImageRepresentations.original].
  rewrite Hba. cbn [negb Z.b2z].
  destruct (negb _), (ImageRepresentations.is_not_None _),
    (ImageRepresentations.is_not_None _); reflexivity.
Qed.

Lemma constructed_twice_distinct_witness :
  ImageRepresentation.is_ rep_A
    {| ImageRepresentation.oid := 1;
       ImageRepresentation.content_type := ImageContentType.PNG;
       ImageRepresentation.file_key := ImageRepresentation.file_key rep_A;
       ImageRepresentation.width := 800;
       ImageRepresentation.height := 600 |} = false
  /\ ImageRepresentation.is_
       {| ImageRepresentation.oid := 1;
          ImageRepresentation.content_type := ImageContentType.PNG;
          ImageRepresentation.file_key := ImageRepresentation.file_key rep_A;
          ImageRepresentation.width := 800;
          ImageRepresentation.height := 600 |} rep_A = false
  /\ Z.testbit
       (ImageRepresentations.included_mask
          (ImageRepresentations.init rep_A
             (Some {| ImageRepresentation.oid := 1;
                      ImageRepresentation.content_type := ImageContentType.PNG;
                      ImageRepresentation.file_key :=
                        ImageRepresentation.file_key rep_A;
                      ImageRepresentation.width := 800;
                      ImageRepresentation.height := 600 |})
             None None None)) 0 = true.
Proof.
  apply (constructed_twice_distinct ImageContentType.PNG ImageContentType.PNG
           (ImageRepresentation.file_key rep_A)
           (ImageRepresentation.file_key rep_A) 800 600 800 600
           example_world
           {| MEDIA_ROOT := MEDIA_ROOT example_world;
              files := files example_world;
              entropy := entropy example_world;
              drawn := drawn example_world;
              next_id := 1;
              store_accepts := store_accepts example_world;
              put_calls := put_calls example_world |}
           {| MEDIA_ROOT := MEDIA_ROOT example_world;
              files := files example_world;
              entropy := entropy example_world;
              drawn := drawn example_world;
              next_id := 1;
              store_accepts := store_accepts example_world;
              put_calls := put_calls example_world |}
           {| MEDIA_ROOT := MEDIA_ROOT example_world;
              files := files example_world;
              entropy := entropy example_world;
              drawn := drawn example_world;
              next_id := 2;
              store_accepts := store_accepts example_world;
              put_calls := put_calls example_world |}).
  - reflexivity.
  - cbn. lia.
  - reflexivity.
Defined.


(** * Further properties: the file of a media item *)

Lemma codes_append (s1 s2 : string) :
  codes (append s1 s2) = codes s1 ++ codes s2.
Proof.
  unfold codes. induction s1 as [|c s1 IH]; [reflexivity|].
  cbn [append list_ascii_of_string map app]. now rewrite IH.
Qed.

Lemma bytes_of_str_append (s1 s2 : string) :
  bytes_of_str (append s1 s2) = bytes_of_str s1 ++ bytes_of_str s2.
Proof. unfold bytes_of_str. now rewrite codes_append, map_app. Qed.

Lemma codes_length (s : string) : length (codes s) = String.length s.
Proof.
  unfold codes. induction s as [|c s IH]; [reflexivity|].
  cbn [list_ascii_of_string map length String.length]. now rewrite IH.
Qed.

Lemma forallb_substring (P : N -> bool) (s : string) :
  forall i n,
    forallb P (codes s) = true -> forallb P (codes (substring i n s)) = true.
Proof.
  unfold codes. induction s as [|c s IH]; intros i n Hs.
  - destruct i, n; reflexivity.
  - cbn [list_ascii_of_string map forallb] in Hs.
    apply andb_prop in Hs. destruct Hs as [Hc Hs].
    destruct i as [|i].
    + destruct n as [|n]; [reflexivity|].
      cbn [substring list_ascii_of_string map forallb].
      rewrite Hc. exact (IH 0 n Hs).
    + cbn [substring]. exact (IH i n Hs).
Qed.

Lemma substring_length (s : string) :
  forall i n, i + n <= String.length s ->
              String.length (substring i n s) = n.
Proof.
  induction s as [|c s IH]; intros i n Hl.
  - cbn in Hl. assert (i = 0) by lia. assert (n = 0) by lia. now subst.
  - cbn [String.length] in Hl. destruct i as [|i].
    + destruct n as [|n]; [reflexivity|].
      cbn [substring String.length]. rewrite (IH 0 n) by lia. reflexivity.
    + cbn [substring]. apply IH. lia.
Qed.

Lemma byte_not_sep (n : N) :
  (n < 256)%N -> n <> 47%N -> Byte.eqb (byte_of_N n) x2f = false.
Proof.
  intros Hn Hne. destruct (Byte.eqb (byte_of_N n) x2f) eqn:E; [|reflexivity].
  apply byte_eqb_eq in E. apply (f_equal Byte.to_N) in E.
  rewrite to_N_byte_of_N in E by exact Hn. cbn in E. contradiction.
Qed.

Lemma plain_name_ascii (s : string) : plain_name s = true -> ascii_only s = true.
Proof.
  unfold plain_name, ascii_only. induction (codes s) as [|c l IH];
    [reflexivity|].
  cbn [forallb]. intros Hc. apply andb_prop in Hc. destruct Hc as [Hc Hl].
  apply andb_prop in Hc. destruct Hc as [Hc _]. rewrite Hc. exact (IH Hl).
Qed.

(** A plain name that is not empty has no separator at either end. *)
Lemma plain_name_ends (s : string) :
  plain_name s = true -> s <> EmptyString ->
  Py.startswith_sep (bytes_of_str s) = false
  /\ Py.endswith_sep (bytes_of_str s) = false
  /\ bytes_of_str s <> [].
Proof.
  unfold plain_name, bytes_of_str. intros Hp Hne.
  assert (Hl : codes s <> []).
  { destruct s; [contradiction|]. discriminate. }
  assert (Hall : forall b, In b (map byte_of_N (codes s)) ->
                           Byte.eqb b x2f = false).
  { intros b Hb. apply in_map_iff in Hb. destruct Hb as (c & <- & Hc).
    rewrite forallb_forall in Hp. specialize (Hp c Hc).
    apply andb_prop in Hp. destruct Hp as [H1 H2].
    apply N.ltb_lt in H1. apply negb_true_iff, N.eqb_neq in H2.
    apply byte_not_sep; [lia|exact H2]. }
  split; [|split].
  - destruct (codes s) as [|c l]; [contradiction|].
    cbn [map Py.startswith_sep]. apply Hall. now left.
  - unfold Py.endswith_sep.
    destruct (rev (map byte_of_N (codes s))) as [|b l] eqn:E; [reflexivity|].
    cbn [Py.startswith_sep]. apply Hall. apply in_rev. rewrite E. now left.
  - destruct (codes s); [contradiction|discriminate].
Qed.

Lemma endswith_sep_app (path comp : bytes) :
  comp <> [] -> Py.endswith_sep (path ++ comp) = Py.endswith_sep comp.
Proof.
  intros Hne. unfold Py.endswith_sep. rewrite rev_app_distr.
  destruct (rev comp) as [|b l] eqn:E.
  - apply (f_equal (@rev byte)) in E. rewrite rev_involutive in E.
    contradiction.
  - reflexivity.
Qed.

Lemma path_join_snoc (a : bytes) (p : list bytes) (b : bytes) :
  Py.path_join a (p ++ [b]) = Py.path_join (Py.path_join a p) [b].
Proof. unfold Py.path_join. now rewrite fold_left_app. Qed.

Lemma app_not_nil {A} (a b : list A) : a <> [] -> a ++ b <> [].
Proof. destruct a; [contradiction|discriminate]. Qed.

(** One more component that does not begin with the separator. *)
Lemma path_join_one (path b : bytes) :
  path <> [] -> Py.startswith_sep b = false ->
  Py.path_join path [b] = path ++ sep_after path ++ b.
Proof.
  intros Hne Hb. unfold Py.path_join, sep_after. cbn [fold_left].
  rewrite Hb. destruct path as [|c path]; [contradiction|].
  destruct (Py.endswith_sep (c :: path)); reflexivity.
Qed.

Lemma sep_after_plain (path b : bytes) :
  b <> [] -> Py.endswith_sep b = false -> sep_after (path ++ b) = [x2f].
Proof.
  intros Hne Hb. unfold sep_after. rewrite endswith_sep_app by exact Hne.
  now rewrite Hb.
Qed.

(** X12.  The file of a media item is looked for three directories deep
    under the media root, in the directories named by the first, the second
    and the third pair of characters of its sha256, under the name made of
    the sha256, a dot and the file type; this for a sha256 of six characters
    or more, all ASCII and none a slash, and an ASCII file type. When the
    sha256 or the file type has a character that is not ASCII, no path is
    made and UnicodeEncodeError is raised. *)
Theorem media_file_path (root : bytes) (m : media) :
  (root <> [] -> plain_name (media_sha256 m) = true ->
   6 <= String.length (media_sha256 m) ->
   ascii_only (media_file_type m) = true ->
   file_path_of root m =
     Ok (root ++ sep_after root
           ++ bytes_of_str (Py.slice 0 2 (media_sha256 m)) ++ [x2f]
           ++ bytes_of_str (Py.slice 2 4 (media_sha256 m)) ++ [x2f]
           ++ bytes_of_str (Py.slice 4 6 (media_sha256 m)) ++ [x2f]
           ++ bytes_of_str (media_sha256 m) ++ [x2e]
           ++ bytes_of_str (media_file_type m)))
  /\ (ascii_only (media_sha256 m) = false
      \/ ascii_only (media_file_type m) = false ->
      file_path_of root m = Raise UnicodeEncodeError).
Proof.
  split.
  - intros Hroot Hp Hlen Hft.
    set (s := media_sha256 m) in *.
    assert (Hs : forall i, i + 2 <= 6 ->
                 plain_name (Py.slice i (i + 2) s) = true
                 /\ Py.slice i (i + 2) s <> EmptyString).
    { intros i Hi. unfold Py.slice. replace (i + 2 - i) with 2 by lia. split.
      - apply forallb_substring. exact Hp.
      - intros E. apply (f_equal String.length) in E.
        rewrite substring_length in E by lia. discriminate E. }
    destruct (Hs 0 ltac:(lia)) as [P1 N1].
    destruct (Hs 2 ltac:(lia)) as [P2 N2].
    destruct (Hs 4 ltac:(lia)) as [P3 N3].
    cbn [Nat.add] in P1, N1, P2, N2, P3, N3.
    destruct (plain_name_ends _ P1 N1) as (S1 & E1 & B1).
    destruct (plain_name_ends _ P2 N2) as (S2 & E2 & B2).
    destruct (plain_name_ends _ P3 N3) as (S3 & E3 & B3).
    assert (N4 : s <> EmptyString).
    { intros E. rewrite E in Hlen. cbn in Hlen. lia. }
    destruct (plain_name_ends _ Hp N4) as (S4 & _ & B4).
    unfold file_path_of. fold s. unfold Py.encode_ascii.
    fold (ascii_only (Py.slice 0 2 s)). fold (ascii_only (Py.slice 2 4 s)).
    fold (ascii_only (Py.slice 4 6 s)).
    rewrite (plain_name_ascii _ P1), (plain_name_ascii _ P2),
      (plain_name_ascii _ P3).
    cbn [rbind].
    assert (A4 : forallb (fun c => (c <? 128)%N)
                   (codes (append s (append "." (media_file_type m)))) = true).
    { rewrite !codes_append, !forallb_app.
      fold (ascii_only s). fold (ascii_only (media_file_type m)).
      rewrite (plain_name_ascii _ Hp), Hft. reflexivity. }
    rewrite A4. cbn [rbind]. f_equal.
    rewrite !bytes_of_str_append.
    change (bytes_of_str ".") with [x2e].
    change [bytes_of_str (Py.slice 0 2 s); bytes_of_str (Py.slice 2 4 s);
            bytes_of_str (Py.slice 4 6 s);
            bytes_of_str s ++ [x2e] ++ bytes_of_str (media_file_type m)]
      with (((([] ++ [bytes_of_str (Py.slice 0 2 s)])
                ++ [bytes_of_str (Py.slice 2 4 s)])
               ++ [bytes_of_str (Py.slice 4 6 s)])
              ++ [bytes_of_str s ++ [x2e] ++ bytes_of_str (media_file_type m)]).
    rewrite !path_join_snoc.
    change (Py.path_join root []) with root.
    set (p1 := bytes_of_str (Py.slice 0 2 s)) in *.
    set (p2 := bytes_of_str (Py.slice 2 4 s)) in *.
    set (p3 := bytes_of_str (Py.slice 4 6 s)) in *.
    set (p4 := bytes_of_str s ++ [x2e] ++ bytes_of_str (media_file_type m)).
    assert (S4' : Py.startswith_sep p4 = false).
    { unfold p4. destruct (bytes_of_str s) as [|b l]; [contradiction|exact S4]. }
    pose proof (path_join_one root p1 Hroot S1) as J1.
    set (q1 := Py.path_join root [p1]) in *.
    assert (Q1 : q1 <> []) by (rewrite J1; now apply app_not_nil).
    assert (T1 : sep_after q1 = [x2f]).
    { rewrite J1, app_assoc. now apply sep_after_plain. }
    pose proof (path_join_one q1 p2 Q1 S2) as J2. rewrite T1 in J2.
    set (q2 := Py.path_join q1 [p2]) in *.
    assert (Q2 : q2 <> []) by (rewrite J2; now apply app_not_nil).
    assert (T2 : sep_after q2 = [x2f]).
    { rewrite J2, app_assoc. now apply sep_after_plain. }
    pose proof (path_join_one q2 p3 Q2 S3) as J3. rewrite T2 in J3.
    set (q3 := Py.path_join q2 [p3]) in *.
    assert (Q3 : q3 <> []) by (rewrite J3; now apply app_not_nil).
    assert (T3 : sep_after q3 = [x2f]).
    { rewrite J3, app_assoc. now apply sep_after_plain. }
    rewrite (path_join_one q3 p4 Q3 S4'), T3, J3, J2, J1.
    unfold p4. rewrite <- !app_assoc. reflexivity.
  - intros Hbad.
    assert (A4 : forallb (fun c => (c <? 128)%N)
                   (codes (append (media_sha256 m)
                                  (append "." (media_file_type m)))) = false).
    { rewrite !codes_append, !forallb_app.
      fold (ascii_only (media_sha256 m)). fold (ascii_only (media_file_type m)).
      destruct Hbad as [-> | ->]; [reflexivity|].
      rewrite ?andb_false_r. reflexivity. }
    unfold file_path_of, Py.encode_ascii. rewrite A4.
    destruct (forallb _ (codes (Py.slice 0 2 _))); [|reflexivity].
    destruct (forallb _ (codes (Py.slice 2 4 _))); [|reflexivity].
    destruct (forallb _ (codes (Py.slice 4 6 _))); reflexivity.
Qed.

Lemma media_file_path_witness :
  file_path_of (bytes_of_str "/media") (subdict_media (link_M1 "submission"))
  = Ok (bytes_of_str
          (append "/media/e3/b0/c4/" (append sha256_empty ".png"))).
Proof.
  rewrite (proj1 (media_file_path (bytes_of_str "/media")
                    (subdict_media (link_M1 "submission")))).
  - reflexivity.
  - discriminate.
  - reflexivity.
  - vm_compute. lia.
  - reflexivity.
Defined.


(** * Further properties: the calls to the store *)

Lemma md5_step_length (m st : list N) (i : nat) :
  length st = 4 -> length (Hashlib.md5_step m st i) = 4.
Proof.
  destruct st as [|a [|b [|c [|d [|e st]]]]]; try discriminate.
  intros _. reflexivity.
Qed.

Lemma md5_block_length (st : list N) (block : bytes) :
  length st = 4 -> length (Hashlib.md5_block st block) = 4.
Proof.
  intros Hl. unfold Hashlib.md5_block.
  rewrite length_map, length_combine, Hl.
  assert (Hf : forall l st0, length st0 = 4 ->
            length (fold_left (Hashlib.md5_step
                                 (map Hashlib.le_to_N (chunks 4 block))) l st0)
            = 4).
  { induction l as [|i l IH]; intros st0 H0; [exact H0|].
    cbn [fold_left]. apply IH. now apply md5_step_length. }
  rewrite (Hf _ st Hl). reflexivity.
Qed.

(** An MD5 digest has 16 bytes. *)
Lemma md5_length (msg : bytes) : length (Hashlib.md5 msg) = 16.
Proof.
  unfold Hashlib.md5.
  assert (Hf : forall blocks st, length st = 4 ->
            length (fold_left Hashlib.md5_block blocks st) = 4).
  { induction blocks as [|b blocks IH]; intros st Hl; [exact Hl|].
    cbn [fold_left]. apply IH. now apply md5_block_length. }
  specialize (Hf (chunks 64 (Hashlib.md5_pad msg)) Hashlib.md5_A0 eq_refl).
  destruct (fold_left _ _ _) as [|a [|b [|c [|d [|e st]]]]]; try discriminate.
  reflexivity.
Qed.

Lemma b64encode_16 (s : bytes) :
  length s = 16 -> length (Py.b64encode s) = 24.
Proof.
  intros Hl.
  do 17 (destruct s as [|? s]; try discriminate Hl).
  reflexivity.
Qed.

Lemma media_type_known (ct : ImageContentType.t) (s : string) :
  ImageContentType.media_type ct = Ok s -> In s _IMAGE_MEDIA_TYPES.
Proof.
  destruct ct; intros [= <-]; cbn; auto.
Qed.

Lemma upload_headers (mbm : dict Z media) (item : Z * ImageRepresentation.t)
    (st st' : world) (r : result unit) :
  upload mbm item st = (r, st') ->
  exists calls,
    put_calls st' = put_calls st ++ calls /\ Forall call_headers calls.
Proof.
  destruct item as [k rep].
  unfold upload, bind, lift, dict_getitem, open_rb, raise.
  destruct (dict_get k mbm) as [m|];
    [|intros [= _ <-]; exists []; now rewrite app_nil_r].
  destruct (file_path_of (MEDIA_ROOT st) m) as [path|];
    [|intros [= _ <-]; exists []; now rewrite app_nil_r].
  destruct (files st path) as [content|];
    [|intros [= _ <-]; exists []; now rewrite app_nil_r].
  rewrite read_all_file. cbn [sha256_fed md5_fed content_length].
  destruct (negb _); [intros [= _ <-]; exists []; now rewrite app_nil_r|].
  destruct (Py.decode_ascii _) as [md5|] eqn:Ed;
    [|intros [= _ <-]; exists []; now rewrite app_nil_r].
  destruct (ImageContentType.media_type _) as [ct|] eqn:Ect;
    [|intros [= _ <-]; exists []; now rewrite app_nil_r].
  destruct (get_bucket_key rep) as [key|];
    [|intros [= _ <-]; exists []; now rewrite app_nil_r].
  unfold put_object. intros E.
  match type of E with
  | context [put_calls st ++ [?a]] => exists [a]
  end.
  split; [destruct (store_accepts st _); injection E as _ <-; reflexivity|].
  constructor; [|constructor].
  unfold call_headers.
  cbn [CacheControl ContentMD5 ContentLength ContentType Body].
  split; [reflexivity|]. split; [exact Ed|].
  split; [|split; [reflexivity|exact (media_type_known _ _ Ect)]].
  unfold Py.decode_ascii in Ed. destruct (forallb _ _); [|discriminate].
  injection Ed as <-.
  rewrite str_of_bytes_length. apply b64encode_16, md5_length.
Qed.

Lemma for_each_headers (mbm : dict Z media)
    (items : list (Z * ImageRepresentation.t)) :
  forall (st st' : world) (r : result unit),
    for_each items (upload mbm) st = (r, st') ->
    exists calls,
      put_calls st' = put_calls st ++ calls /\ Forall call_headers calls.
Proof.
  induction items as [|item items IH]; intros st st' r; cbn [for_each].
  - unfold ret. intros [= _ <-]. exists []. now rewrite app_nil_r.
  - unfold bind at 1.
    destruct (upload mbm item st) as [[[]|e] st1] eqn:E;
      apply upload_headers in E; destruct E as (c1 & E1 & F1).
    + intros E'. apply IH in E'. destruct E' as (c2 & E2 & F2).
      exists (c1 ++ c2). rewrite E2, E1, app_assoc.
      split; [reflexivity|]. apply Forall_app. auto.
    + intros [= _ <-]. eauto.
Qed.

(** A run of [create_reps] either ends before its loop of uploads, with an
    error and the store as it was, or is the loop run over the
    representations made. *)
Lemma create_reps_run (row : list link) (st st' : world)
    (r : result (ImageRepresentations.t * nat)) :
  create_reps row st = (r, st') ->
  (same_store st st' /\ exists e, r = Raise e)
  \/ exists links rbm st1 ru,
       retained_links row = Ok links
       /\ map_values rep_from_media (media_by_mediaid_of links) st
          = (Ok rbm, st1)
       /\ for_each rbm (upload (media_by_mediaid_of links)) st1 = (ru, st').
Proof.
  unfold create_reps, bind at 1, lift at 1.
  destruct (retained_links row) as [links|e] eqn:El;
    [|intros [= <- <-]; left; split; [apply same_store_refl|eauto]].
  unfold bind at 1.
  destruct (map_values rep_from_media (media_by_mediaid_of links) st)
    as [[rbm|e] st1] eqn:Em;
    pose proof (map_values_from_store _ _ _ _ _ Em) as Hs;
    [|intros [= <- <-]; left; split; [exact Hs|eauto]].
  do 5 (unfold bind at 1, lift at 1;
        destruct (get_rep links rbm _ _) as [?|?];
        [|intros [= <- <-]; left; split; [exact Hs|eauto]]).
  unfold bind at 1.
  destruct (for_each rbm (upload (media_by_mediaid_of links)) st1)
    as [ru st2] eqn:Ef.
  intros E. assert (st' = st2) as ->.
  { destruct ru as [[]|e]; unfold ret in E; now injection E. }
  right. exists links, rbm, st1, ru. auto.
Qed.

(** X13.  Whatever the outcome of [create_reps], each call of [put_object]
    it has made declares its body immutable and cacheable for a year, gives
    as Content-MD5 the 24 characters of the base64 of the MD5 digest of the
    whole body, as Content-Length the number of bytes of the body, and as
    Content-Type one of the four image media types. *)
Theorem uploads_declare_their_body (row : list link) (st st' : world)
    (r : result (ImageRepresentations.t * nat)) :
  create_reps row st = (r, st') ->
  exists calls,
    put_calls st' = put_calls st ++ calls /\ Forall call_headers calls.
Proof.
  intros E. apply create_reps_run in E.
  destruct E as [[(Hs & _) _]|(links & rbm & st1 & ru & _ & Em & Ef)].
  - exists []. rewrite app_nil_r. auto.
  - apply map_values_from_store in Em. destruct Em as (Hp & _).
    apply for_each_headers in Ef. destruct Ef as (calls & E & F).
    exists calls. rewrite E, Hp. auto.
Qed.

Lemma uploads_declare_their_body_witness :
  exists calls,
    put_calls (snd (create_reps example_row example_world))
    = put_calls example_world ++ calls
    /\ Forall call_headers calls.
Proof.
  apply (uploads_declare_their_body example_row example_world
           (snd (create_reps example_row example_world))
           (fst (create_reps example_row example_world))).
  apply surjective_pairing.
Defined.

(** * Further properties: from a row to the bytes of its set *)

(** Two roles get the same object exactly when their links name the same
    media item. *)
Lemma same_media_same_object (rbm : dict Z ImageRepresentation.t)
    (k1 k2 : Z) (o1 o2 : ImageRepresentation.t) :
  NoDup (map ImageRepresentation.oid (dict_values rbm)) ->
  dict_get k1 rbm = Some o1 -> dict_get k2 rbm = Some o2 ->
  ImageRepresentation.is_ o1 o2 = (k1 =? k2)%Z.
Proof.
  intros Hn H1 H2. destruct (Z.eqb_spec k1 k2) as [->|Hne].
  - rewrite H1 in H2. injection H2 as ->. apply Nat.eqb_refl.
  - eapply distinct_keys_distinct_objects; eauto.
Qed.

Lemma dict_get_value {V} (k : Z) (v : V) (d : dict Z V) :
  dict_get k d = Some v -> In v (dict_values d).
Proof.
  intros Hg. apply dict_get_In in Hg.
  unfold dict_values. apply in_map_iff. exists (k, v). auto.
Qed.

(** X14.  The set that [create_reps] returns can always be serialized, and
    its mask tells how the links of the row share their media: bit 0 is set
    exactly when the cover link names another media item than the submission
    link, bit 1 exactly when the generated thumbnail names another one than
    the cover, bits 2 and 5 exactly when the row has a custom thumbnail and
    a WebP thumbnail. *)
Theorem created_set_serializes (row : list link) (st st' : world)
    (reps : ImageRepresentations.t) (n : nat) :
  create_reps row st = (Ok (reps, n), st') ->
  exists links lo lc lg out,
    retained_links row = Ok links
    /\ dict_get "submission" links = Some lo
    /\ dict_get "cover" links = Some lc
    /\ dict_get "thumbnail-generated" links = Some lg
    /\ ImageRepresentations.included_mask reps
       = (Z.b2z (negb (mediaid lc =? mediaid lo))
          + 2 * Z.b2z (negb (mediaid lg =? mediaid lc))
          + 4 * Z.b2z (ImageRepresentations.is_not_None
                         (dict_get "thumbnail-custom" links))
          + 32 * Z.b2z (ImageRepresentations.is_not_None
                          (dict_get "thumbnail-generated-webp" links)))%Z
    /\ ImageRepresentations.serialize_to reps [] = Ok out
    /\ length out = 22 + 21 * included_count reps.
Proof.
  intros E. apply create_reps_Ok in E.
  destruct E as (links & rbm & st1 & o & c & tc & tg & tw
                 & El & Em & Eo & Ec & Etc & Etg & Etw & -> & _ & _).
  destruct (rep_by_mediaid_spec _ _ _ _ Em) as (_ & _ & Hoid & _ & Hval & _).
  apply get_rep_required_inv in Eo, Ec, Etg.
  destruct Eo as (lo & Lo & Go), Ec as (lc & Lc & Gc), Etg as (lg & Lg & Gg).
  apply get_rep_optional_inv in Etc, Etw.
  assert (Htc : ImageRepresentations.is_not_None tc
                = ImageRepresentations.is_not_None
                    (dict_get "thumbnail-custom" links)
                /\ forall r, tc = Some r -> valid_representation r).
  { subst tc. destruct (dict_get "thumbnail-custom" links) as [l|] eqn:Ll.
    - destruct (rep_by_mediaid_has _ _ _ _ _ l Em Ll) as (r & Gr).
      rewrite Gr. split; [reflexivity|].
      intros r' [= <-]. rewrite Forall_forall in Hval.
      apply Hval. eapply dict_get_value; eauto.
    - split; [reflexivity|discriminate]. }
  assert (Htw : ImageRepresentations.is_not_None tw
                = ImageRepresentations.is_not_None
                    (dict_get "thumbnail-generated-webp" links)
                /\ forall r, tw = Some r -> valid_representation r).
  { subst tw.
    destruct (dict_get "thumbnail-generated-webp" links) as [l|] eqn:Ll.
    - destruct (rep_by_mediaid_has _ _ _ _ _ l Em Ll) as (r & Gr).
      rewrite Gr. split; [reflexivity|].
      intros r' [= <-]. rewrite Forall_forall in Hval.
      apply Hval. eapply dict_get_value; eauto.
    - split; [reflexivity|discriminate]. }
  destruct Htc as [Htc Vtc], Htw as [Htw Vtw].
  rewrite Forall_forall in Hval.
  assert (Hv : valid_representations
                 (ImageRepresentations.init o (Some c) tc (Some tg) tw)).
  { unfold valid_representations, ImageRepresentations.init.
    cbn [ImageRepresentations.original ImageRepresentations.cover
         ImageRepresentations.thumbnail_generated
         ImageRepresentations.thumbnail_custom
         ImageRepresentations.thumbnail_generated_webp].
    split; [apply Hval; eapply dict_get_value; eauto|].
    split; [apply Hval; eapply dict_get_value; eauto|].
    split; [apply Hval; eapply dict_get_value; eauto|].
    split; assumption. }
  exists links, lo, lc, lg.
  rewrite (serialize_set_parts _ [] Hv). eexists.
  split; [exact El|]. split; [exact Lo|]. split; [exact Lc|].
  split; [exact Lg|]. split; [|split; [reflexivity|]].
  - rewrite included_mask_cases. unfold ImageRepresentations.init.
    cbn [ImageRepresentations.original ImageRepresentations.cover
         ImageRepresentations.thumbnail_generated
         ImageRepresentations.thumbnail_custom
         ImageRepresentations.thumbnail_generated_webp].
    rewrite (same_media_same_object rbm _ _ c o Hoid Gc Go),
      (same_media_same_object rbm _ _ tg c Hoid Gg Gc), Htc, Htw.
    reflexivity.
  - destruct (serialized_set_parts_length _ Hv) as [L _]. exact L.
Qed.

Lemma created_set_serializes_witness :
  exists links lo lc lg out,
    retained_links example_row = Ok links
    /\ dict_get "submission" links = Some lo
    /\ dict_get "cover" links = Some lc
    /\ dict_get "thumbnail-generated" links = Some lg
    /\ ImageRepresentations.included_mask
         (ImageRepresentations.init rep_A (Some rep_A) None (Some rep_B) None)
       = (Z.b2z (negb (mediaid lc =? mediaid lo))
          + 2 * Z.b2z (negb (mediaid lg =? mediaid lc))
          + 4 * Z.b2z (ImageRepresentations.is_not_None
                         (dict_get "thumbnail-custom" links))
          + 32 * Z.b2z (ImageRepresentations.is_not_None
                          (dict_get "thumbnail-generated-webp" links)))%Z
    /\ ImageRepresentations.serialize_to
         (ImageRepresentations.init rep_A (Some rep_A) None (Some rep_B) None)
         [] = Ok out
    /\ length out
       = 22 + 21 * included_count
                     (ImageRepresentations.init rep_A (Some rep_A) None
                        (Some rep_B) None).
Proof.
  apply (created_set_serializes example_row example_world
           (snd (create_reps example_row example_world))
           (ImageRepresentations.init rep_A (Some rep_A) None (Some rep_B) None)
           2).
  apply run_result. vm_compute. reflexivity.
Defined.

(** * Further properties: the media items of a row *)

Lemma media_by_mediaid_both (links : dict string link) :
  dict_keys (media_by_mediaid_of links)
  = rev (nodup Z.eq_dec (rev (map mediaid (dict_values links))))
  /\ forall k,
       dict_get k (media_by_mediaid_of links)
       = option_map subdict_media
           (find (fun l => (mediaid l =? k)%Z) (rev (dict_values links))).
Proof.
  unfold media_by_mediaid_of.
  induction (dict_values links) as [|x ls [IHk IHv]] using rev_ind.
  - split; [reflexivity|]. intros k. reflexivity.
  - rewrite fold_left_app. cbn [fold_left].
    set (D := fold_left
                (fun acc l => dict_set (mediaid l) (subdict_media l) acc)
                ls []) in *.
    split.
    + rewrite map_app, rev_app_distr. cbn [map rev app nodup].
      destruct (in_dec Z.eq_dec (mediaid x) (rev (map mediaid ls)))
        as [Hin|Hnin].
      * assert (Hk : In (mediaid x) (dict_keys D)).
        { rewrite IHk. apply -> in_rev. now apply nodup_In. }
        apply dict_get_Some_In in Hk. destruct Hk as (v0 & Hv0).
        rewrite (dict_set_keys _ _ _ _ Hv0). exact IHk.
      * assert (Hk : ~ In (mediaid x) (dict_keys D)).
        { rewrite IHk. intros Hin. apply in_rev in Hin.
          apply nodup_In in Hin. contradiction. }
        apply dict_get_None in Hk. rewrite (dict_set_new _ _ _ Hk).
        unfold dict_keys in *. rewrite map_app, IHk. reflexivity.
    + intros k. rewrite rev_app_distr. cbn [rev app find].
      destruct (Z.eqb_spec (mediaid x) k) as [->|Hne].
      * apply dict_get_set_same.
      * rewrite dict_get_set_other by congruence. apply IHv.
Qed.

Lemma media_by_mediaid_order (links : dict string link) :
  dict_keys (media_by_mediaid_of links)
  = rev (nodup Z.eq_dec (rev (map mediaid (dict_values links)))).
Proof. exact (proj1 (media_by_mediaid_both links)). Qed.

(** X15.  In the mapping from media ids to media records that [create_reps]
    builds, the ids come in the order in which the links first name them,
    each once, and an id named by several links gets the record of the last
    of them. *)
Theorem media_by_mediaid_contents (links : dict string link) :
  dict_keys (media_by_mediaid_of links)
  = rev (nodup Z.eq_dec (rev (map mediaid (dict_values links))))
  /\ forall k,
       dict_get k (media_by_mediaid_of links)
       = option_map subdict_media
           (find (fun l => (mediaid l =? k)%Z) (rev (dict_values links))).
Proof. exact (media_by_mediaid_both links). Qed.

(** X16.  When the links of a row are kept and a representation is made of
    each media item, the calls of [put_object] that the run of [create_reps]
    makes are for the media items in the order in which the links first
    name them, one call each, under the name made from the representation
    of the item and with the file of the item as body: a run that returns
    has made one for every item, a run that raises has made them for the
    first items only and leaves these uploaded.  When the links are not
    kept or a representation cannot be made, the run raises and has called
    [put_object] not at all. *)
Theorem uploads_in_media_order (row : list link) (st st' : world)
    (r : result (ImageRepresentations.t * nat)) :
  create_reps row st = (r, st') ->
  exists calls,
    put_calls st' = put_calls st ++ calls
    /\ match retained_links row, fst (rep_by_mediaid_of row st) with
       | Ok links, Ok rbm =>
           dict_keys rbm
           = rev (nodup Z.eq_dec (rev (map mediaid (dict_values links))))
           /\ Forall2 (fun item args =>
                         verified_call st (media_by_mediaid_of links)
                           (fst item) (snd item) args)
                      (firstn (length calls) rbm) calls
           /\ length calls <= length rbm
           /\ ((exists v, r = Ok v) -> length calls = length rbm)
       | _, _ => calls = [] /\ exists e, r = Raise e
       end.
Proof.
  intros E. pose proof (create_reps_run _ _ _ _ E) as Hrun.
  destruct Hrun as [[(Hs & _) (e & ->)]
                   |(links & rbm & st1 & ru & El & Em & Ef)].
  - exists []. rewrite app_nil_r. split; [exact Hs|].
    destruct (retained_links row) as [links|e0] eqn:El; [|eauto].
    unfold rep_by_mediaid_of, bind, lift. rewrite El.
    destruct (map_values rep_from_media (media_by_mediaid_of links) st)
      as [[rbm|e1] st1] eqn:Em; cbn [fst]; [|eauto].
    split; [|split; [constructor|split; [cbn; lia|]]].
    + destruct (rep_by_mediaid_spec _ _ _ _ Em) as (-> & _).
      apply media_by_mediaid_order.
    + intros (v & Hv). discriminate Hv.
  - pose proof (map_values_from_store _ _ _ _ _ Em) as Hs.
    pose proof (for_each_upload _ _ _ _ _ Ef)
      as (calls & Hp & Hf & Hle & Hok).
    exists calls. split; [destruct Hp as (-> & _), Hs as (-> & _); reflexivity|].
    rewrite El. unfold rep_by_mediaid_of, bind, lift. rewrite El, Em.
    cbn [fst].
    split; [|split; [|split; [exact Hle|]]].
    + destruct (rep_by_mediaid_spec _ _ _ _ Em) as (-> & _).
      apply media_by_mediaid_order.
    + eapply Forall2_impl; [|exact Hf]. intros item a Ha.
      eapply verified_call_world; [|exact Ha].
      apply same_store_after_puts. exact Hs.
    + intros (v & ->). apply Hok.
      unfold create_reps, bind, lift in E. rewrite El, Em in E.
      do 5 (destruct (get_rep links rbm _ _) as [?|?]; [|discriminate E]).
      rewrite Ef in E. destruct ru as [[]|e]; [reflexivity|discriminate E].
Qed.

Lemma uploads_in_media_order_witness :
  exists calls,
    put_calls (snd (create_reps example_row damaged_world))
    = put_calls damaged_world ++ calls
    /\ match retained_links example_row,
             fst (rep_by_mediaid_of example_row damaged_world) with
       | Ok links, Ok rbm =>
           dict_keys rbm
           = rev (nodup Z.eq_dec (rev (map mediaid (dict_values links))))
           /\ Forall2 (fun item args =>
                         verified_call damaged_world
                           (media_by_mediaid_of links)
                           (fst item) (snd item) args)
                      (firstn (length calls) rbm) calls
           /\ length calls <= length rbm
           /\ ((exists v, fst (create_reps example_row damaged_world) = Ok v)
               -> length calls = length rbm)
       | _, _ =>
           calls = []
           /\ exists e, fst (create_reps example_row damaged_world) = Raise e
       end.
Proof.
  apply (uploads_in_media_order example_row damaged_world
           (snd (create_reps example_row damaged_world))
           (fst (create_reps example_row damaged_world))).
  apply surjective_pairing.
Defined.

(** The run of the example: both files uploaded, in the order of their
    media ids 1 and 2, as the links first name them. *)
Example example_row_upload_order :
  fst (create_reps example_row example_world) = Ok (reps_AB, 2)
  /\ map Body (put_calls (snd (create_reps example_row example_world)))
     = [[]; [x61; x62; x63]]
  /\ map Key_ (put_calls (snd (create_reps example_row example_world)))
     = ["AAECAwQFBgcICQoLDA0ODw.png"; "EBESExQVFhcYGRobHB0eHw.jpg"].
Proof. vm_compute. repeat split. Qed.

(** * Further properties: media that cannot be represented *)

(** X17.  The representations of a row are made exactly when every media
    item kept for it is usable: a file type among png, jpg, gif and webp,
    and a width and a height between 1 and 16383. With one item that is not,
    [create_reps] raises and nothing is uploaded, not even the files of the
    usable items. *)
Theorem unusable_media_refused (row : list link) (st : world)
    (links : dict string link) :
  retained_links row = Ok links ->
  ((exists rbm st1, rep_by_mediaid_of row st = (Ok rbm, st1))
   <-> forallb media_usable (dict_values (media_by_mediaid_of links)) = true)
  /\ (forallb media_usable (dict_values (media_by_mediaid_of links)) = false ->
      exists e st',
        create_reps row st = (Raise e, st')
        /\ put_calls st' = put_calls st).
Proof.
  intros El.
  destruct (map_values_from_usable (media_by_mediaid_of links) [] st)
    as [Hu Hn].
  assert (Er : rep_by_mediaid_of row st
               = map_values rep_from_media (media_by_mediaid_of links) st).
  { unfold rep_by_mediaid_of, bind, lift. now rewrite El. }
  split; [split|].
  - intros (rbm & st1 & E). rewrite Er in E.
    destruct (forallb _ _); [reflexivity|].
    destruct (Hn eq_refl) as (e & st2 & E2).
    unfold map_values in E. rewrite E2 in E. discriminate E.
  - intros Hall. rewrite Er. exact (Hu Hall).
  - intros Hbad. destruct (Hn Hbad) as (e & st1 & E).
    exists e, st1. split.
    + unfold create_reps, bind, lift. rewrite El.
      unfold map_values. rewrite E. reflexivity.
    + apply map_values_from_store in E. destruct E as (E & _). exact E.
Qed.

Lemma unusable_media_refused_witness :
  ((exists rbm st1,
      rep_by_mediaid_of row_with_bitmap example_world = (Ok rbm, st1))
   <-> forallb media_usable
         (dict_values
            (media_by_mediaid_of
               [("submission", link_M1 "submission");
                ("cover", link_M1 "cover");
                ("thumbnail-generated",
                 {| link_type := "thumbnail-generated"; mediaid := 2;
                    sha256 := sha256_abc; file_type := "bmp";
                    attributes := [("width", 200%Z); ("height", 150%Z)] |})]))
       = true)
  /\ (forallb media_usable
         (dict_values
            (media_by_mediaid_of
               [("submission", link_M1 "submission");
                ("cover", link_M1 "cover");
                ("thumbnail-generated",
                 {| link_type := "thumbnail-generated"; mediaid := 2;
                    sha256 := sha256_abc; file_type := "bmp";
                    attributes := [("width", 200%Z); ("height", 150%Z)] |})]))
       = false ->
      exists e st',
        create_reps row_with_bitmap example_world = (Raise e, st')
        /\ put_calls st' = put_calls example_world).
Proof.
  apply (unusable_media_refused row_with_bitmap example_world).
  reflexivity.
Defined.


(** * Further properties: object names do not collide *)

Lemma byte_to_N_inj (a b : byte) : Byte.to_N a = Byte.to_N b -> a = b.
Proof.
  intros E. apply (f_equal Byte.of_N) in E. rewrite !Byte.of_to_N in E.
  now injection E.
Qed.

Lemma byte_to_N_small (a : byte) : (Byte.to_N a < 256)%N.
Proof. pose proof (Byte.to_N_bounded a). lia. Qed.

(** A number below [2 ^ 24] is known by its four sextets. *)
Lemma sextets_of_N_inj (n n' : N) :
  N.shiftr n 18 = N.shiftr n' 18 ->
  N.land (N.shiftr n 12) 63 = N.land (N.shiftr n' 12) 63 ->
  N.land (N.shiftr n 6) 63 = N.land (N.shiftr n' 6) 63 ->
  N.land n 63 = N.land n' 63 ->
  n = n'.
Proof.
  intros E1 E2 E3 E4. apply N.bits_inj. intros i.
  destruct (N.lt_ge_cases i 6) as [Hi|Hi].
  - apply (f_equal (fun x => N.testbit x i)) in E4.
    change 63%N with (N.ones 6) in E4.
    rewrite !N.land_spec, N.ones_spec_low, !andb_true_r in E4 by exact Hi.
    exact E4.
  - destruct (N.lt_ge_cases i 12) as [Hj|Hj].
    + apply (f_equal (fun x => N.testbit x (i - 6))) in E3.
      change 63%N with (N.ones 6) in E3.
      rewrite !N.land_spec, N.ones_spec_low, !andb_true_r, !N.shiftr_spec' in E3
        by lia.
      replace (i - 6 + 6)%N with i in E3 by lia. exact E3.
    + destruct (N.lt_ge_cases i 18) as [Hk|Hk].
      * apply (f_equal (fun x => N.testbit x (i - 12))) in E2.
        change 63%N with (N.ones 6) in E2.
        rewrite !N.land_spec, N.ones_spec_low, !andb_true_r, !N.shiftr_spec'
          in E2 by lia.
        replace (i - 12 + 12)%N with i in E2 by lia. exact E2.
      * apply (f_equal (fun x => N.testbit x (i - 18))) in E1.
        rewrite !N.shiftr_spec' in E1.
        replace (i - 18 + 18)%N with i in E1 by lia. exact E1.
Qed.

Lemma sextets3_inj (a b c a' b' c' : byte) :
  Py.sextets3 a b c = Py.sextets3 a' b' c' -> a = a' /\ b = b' /\ c = c'.
Proof.
  unfold Py.sextets3. intros E0.
  pose proof (f_equal (fun l => nth 0 l 0%N) E0) as E1.
  pose proof (f_equal (fun l => nth 1 l 0%N) E0) as E2.
  pose proof (f_equal (fun l => nth 2 l 0%N) E0) as E3.
  pose proof (f_equal (fun l => nth 3 l 0%N) E0) as E4.
  cbv beta zeta in E1, E2, E3, E4. cbn [nth] in E1, E2, E3, E4.
  pose proof (sextets_of_N_inj _ _ E1 E2 E3 E4) as En.
  pose proof (byte_to_N_small a). pose proof (byte_to_N_small b).
  pose proof (byte_to_N_small c). pose proof (byte_to_N_small a').
  pose proof (byte_to_N_small b'). pose proof (byte_to_N_small c').
  repeat split; apply byte_to_N_inj; lia.
Qed.

(** The bits of a number from the sixth on, when those from the twelfth on
    and the six before them are known. *)
Lemma shiftr_6_more (n n' k : N) :
  N.shiftr n (k + 6) = N.shiftr n' (k + 6) ->
  N.land (N.shiftr n k) 63 = N.land (N.shiftr n' k) 63 ->
  N.shiftr n k = N.shiftr n' k.
Proof.
  intros E1 E2. apply N.bits_inj. intros i.
  destruct (N.lt_ge_cases i 6) as [Hi|Hi].
  - apply (f_equal (fun x => N.testbit x i)) in E2.
    change 63%N with (N.ones 6) in E2.
    rewrite !N.land_spec, N.ones_spec_low, !andb_true_r in E2 by exact Hi.
    exact E2.
  - apply (f_equal (fun x => N.testbit x (i - 6))) in E1.
    rewrite !N.shiftr_spec' in E1 |- *.
    replace (i - 6 + (k + 6))%N with (i + k)%N in E1 by lia. exact E1.
Qed.

Lemma sextets2_inj (a b a' b' : byte) :
  firstn 3 (Py.sextets3 a b x00) = firstn 3 (Py.sextets3 a' b' x00) ->
  a = a' /\ b = b'.
Proof.
  unfold Py.sextets3. cbn [firstn]. change (Byte.to_N x00) with 0%N.
  intros E0.
  pose proof (f_equal (fun l => nth 0 l 0%N) E0) as E1.
  pose proof (f_equal (fun l => nth 1 l 0%N) E0) as E2.
  pose proof (f_equal (fun l => nth 2 l 0%N) E0) as E3.
  cbv beta zeta in E1, E2, E3. cbn [nth] in E1, E2, E3.
  pose proof (shiftr_6_more _ _ 12 E1 E2) as E12.
  pose proof (shiftr_6_more _ _ 6 E12 E3) as E6.
  pose proof (byte_to_N_small a). pose proof (byte_to_N_small b).
  pose proof (byte_to_N_small a'). pose proof (byte_to_N_small b').
  assert (Hd : forall x y,
             (N.shiftr (x * 65536 + y * 256 + 0) 6 = x * 1024 + y * 4)%N).
  { intros x y. rewrite N.shiftr_div_pow2. change (2 ^ 6)%N with 64%N.
    replace (x * 65536 + y * 256 + 0)%N
      with ((x * 1024 + y * 4) * 64)%N by lia.
    apply N.div_mul. discriminate. }
  assert (E : (Byte.to_N a * 1024 + Byte.to_N b * 4
               = Byte.to_N a' * 1024 + Byte.to_N b' * 4)%N).
  { rewrite <- !Hd. exact E6. }
  split; apply byte_to_N_inj; lia.
Qed.

Lemma sextets1_inj (a a' : byte) :
  firstn 2 (Py.sextets3 a x00 x00) = firstn 2 (Py.sextets3 a' x00 x00) -> a = a'.
Proof.
  unfold Py.sextets3. cbn [firstn]. change (Byte.to_N x00) with 0%N.
  intros E0.
  pose proof (f_equal (fun l => nth 0 l 0%N) E0) as E1.
  pose proof (f_equal (fun l => nth 1 l 0%N) E0) as E2.
  cbv beta zeta in E1, E2. cbn [nth] in E1, E2.
  pose proof (shiftr_6_more _ _ 12 E1 E2) as E12.
  pose proof (byte_to_N_small a). pose proof (byte_to_N_small a').
  assert (Hd : forall x, (N.shiftr (x * 65536 + 0 * 256 + 0) 12 = x * 16)%N).
  { intros x. rewrite N.shiftr_div_pow2. change (2 ^ 12)%N with 4096%N.
    replace (x * 65536 + 0 * 256 + 0)%N with (x * 16 * 4096)%N by lia.
    apply N.div_mul. discriminate. }
  assert (E : (Byte.to_N a * 16 = Byte.to_N a' * 16)%N).
  { rewrite <- !Hd. exact E12. }
  apply byte_to_N_inj. lia.
Qed.

(** The 64 characters of the alphabet are distinct. *)
Lemma urlsafe_char_inj (n m : N) :
  (n < 64)%N -> (m < 64)%N ->
  Py.b64_char urlsafe_alphabet n = Py.b64_char urlsafe_alphabet m -> n = m.
Proof.
  intros Hn Hm E.
  assert (Hall : forallb
            (fun i => forallb
               (fun j => implb (Byte.eqb (Py.b64_char urlsafe_alphabet i)
                                         (Py.b64_char urlsafe_alphabet j))
                               (i =? j)%N)
               (map N.of_nat (seq 0 64)))
            (map N.of_nat (seq 0 64)) = true) by (vm_compute; reflexivity).
  rewrite forallb_forall in Hall.
  assert (Hin : forall k, (k < 64)%N -> In k (map N.of_nat (seq 0 64))).
  { intros k Hk. apply in_map_iff. exists (N.to_nat k).
    split; [lia|]. apply in_seq. lia. }
  specialize (Hall n (Hin n Hn)). rewrite forallb_forall in Hall.
  specialize (Hall m (Hin m Hm)). rewrite E in Hall.
  replace (Byte.eqb _ _) with true in Hall
    by (symmetry; apply Byte.byte_dec_lb; reflexivity).
  now apply N.eqb_eq.
Qed.

Lemma map_char_inj (l l' : list N) :
  Forall (fun n => (n < 64)%N) l -> Forall (fun n => (n < 64)%N) l' ->
  map (Py.b64_char urlsafe_alphabet) l = map (Py.b64_char urlsafe_alphabet) l' ->
  l = l'.
Proof.
  intros Hl. revert l'. induction Hl as [|n l Hn Hl IH]; intros [|n' l'] Hl' E;
    try discriminate; [reflexivity|].
  inversion Hl' as [|? ? Hn' Hl'']; subst.
  cbn [map] in E. injection E as E1 E2.
  f_equal; [now apply urlsafe_char_inj|now apply IH].
Qed.

Lemma firstn_small {A} (P : A -> Prop) (k : nat) (l : list A) :
  Forall P l -> Forall P (firstn k l).
Proof.
  intros H. revert k. induction H; intros [|k]; cbn; constructor; auto.
Qed.

(** Byte strings of one length have different encodings. *)
Lemma no_padding_inj (s : bytes) :
  forall s', length s = length s' ->
    urlsafe_base64_no_padding s = urlsafe_base64_no_padding s' -> s = s'.
Proof.
  induction s as [|a|a b|a b c s IH] using list_ind3;
    intros s' Hl E.
  - destruct s'; [reflexivity|discriminate].
  - destruct s' as [|a' [|? ?]]; try discriminate.
    cbn [urlsafe_base64_no_padding] in E.
    apply map_char_inj in E;
      [|apply firstn_small, sextets3_small..].
    now rewrite (sextets1_inj _ _ E).
  - destruct s' as [|a' [|b' [|? ?]]]; try discriminate.
    cbn [urlsafe_base64_no_padding] in E.
    apply map_char_inj in E;
      [|apply firstn_small, sextets3_small..].
    now destruct (sextets2_inj _ _ _ _ E) as [-> ->].
  - destruct s' as [|a' [|b' [|c' s']]]; try discriminate.
    cbn [urlsafe_base64_no_padding] in E.
    assert (E4 : map (Py.b64_char urlsafe_alphabet) (Py.sextets3 a b c)
                 = map (Py.b64_char urlsafe_alphabet) (Py.sextets3 a' b' c')
                 /\ urlsafe_base64_no_padding s = urlsafe_base64_no_padding s').
    { apply app_same_length; [reflexivity|exact E]. }
    destruct E4 as [E4 E5].
    apply map_char_inj in E4; [|apply sextets3_small..].
    destruct (sextets3_inj _ _ _ _ _ _ E4) as (-> & -> & ->).
    f_equal. f_equal. f_equal. apply IH; [|exact E5].
    cbn [length] in Hl. lia.
Qed.

Lemma str_of_bytes_inj (b b' : bytes) :
  str_of_bytes b = str_of_bytes b' -> b = b'.
Proof.
  unfold str_of_bytes. intros E.
  apply (f_equal list_ascii_of_string) in E.
  rewrite !list_ascii_of_string_of_list_ascii in E.
  revert b' E. induction b as [|c b IH]; intros [|c' b'] E; try discriminate;
    [reflexivity|].
  cbn [map] in E. injection E as E1 E2.
  f_equal; [|now apply IH].
  apply byte_to_N_inj. unfold ascii_of_code in E1.
  apply (f_equal N_of_ascii) in E1.
  rewrite !N_ascii_embedding in E1
    by (pose proof (byte_to_N_small c); pose proof (byte_to_N_small c'); lia).
  exact E1.
Qed.

Lemma append_same_length (s1 s2 e1 e2 : string) :
  String.length s1 = String.length s2 ->
  append s1 e1 = append s2 e2 -> s1 = s2 /\ e1 = e2.
Proof.
  revert s2. induction s1 as [|c s1 IH]; intros [|c' s2] Hl E;
    try discriminate.
  - auto.
  - cbn in Hl, E. injection E as -> E. injection Hl as Hl.
    destruct (IH s2 Hl E) as [-> ->]. auto.
Qed.

(** The name of the object of a representation, written out. *)
Lemma get_bucket_key_Ok (rep : ImageRepresentation.t) :
  get_bucket_key rep =
    Ok (append
          (str_of_bytes
             (urlsafe_base64_no_padding (ImageRepresentation.file_key rep)))
          (match ImageRepresentation.content_type rep with
           | ImageContentType.PNG => ".png"
           | ImageContentType.JPEG => ".jpg"
           | ImageContentType.GIF_STATIC => ".gif"
           | ImageContentType.WEBP_STATIC => ".webp"
           end)).
Proof.
  pose proof (no_padding_chars (ImageRepresentation.file_key rep)) as Hch.
  unfold get_bucket_key.
  destruct (urlsafe_b64encode_padding (ImageRepresentation.file_key rep))
    as [k ->].
  rewrite rstrip_padding
    by (eapply Forall_impl; [|exact Hch]; cbn; tauto).
  unfold Py.decode_ascii.
  replace (forallb _ _) with true.
  2:{ symmetry. apply forallb_forall. intros c Hc.
      rewrite Forall_forall in Hch. apply N.ltb_lt. now apply Hch. }
  cbn [rbind].
  destruct (ImageRepresentation.content_type rep); reflexivity.
Qed.

(** X18.  Two representations whose keys have the same length, as all
    constructed ones have, are stored under the same object name only if
    they have the same file key and the same content type: no object of the
    bucket is overwritten by the upload of a representation with another
    key. *)
Theorem object_names_distinct (r r' : ImageRepresentation.t) :
  length (ImageRepresentation.file_key r)
  = length (ImageRepresentation.file_key r') ->
  get_bucket_key r = get_bucket_key r' ->
  ImageRepresentation.file_key r = ImageRepresentation.file_key r'
  /\ ImageRepresentation.content_type r = ImageRepresentation.content_type r'.
Proof.
  intros Hl E. rewrite !get_bucket_key_Ok in E. injection E as E.
  apply append_same_length in E.
  - destruct E as [Ek Ee]. split.
    + apply str_of_bytes_inj in Ek. now apply no_padding_inj.
    + destruct (ImageRepresentation.content_type r),
        (ImageRepresentation.content_type r');
        try reflexivity; discriminate Ee.
  - rewrite !str_of_bytes_length, !no_padding_length, Hl. reflexivity.
Qed.

Lemma object_names_distinct_witness :
  ImageRepresentation.file_key rep_A
  = ImageRepresentation.file_key
      {| ImageRepresentation.oid := 7;
         ImageRepresentation.content_type := ImageContentType.PNG;
         ImageRepresentation.file_key := ImageRepresentation.file_key rep_A;
         ImageRepresentation.width := 1;
         ImageRepresentation.height := 1 |}
  /\ ImageRepresentation.content_type rep_A
     = ImageRepresentation.content_type
         {| ImageRepresentation.oid := 7;
            ImageRepresentation.content_type := ImageContentType.PNG;
            ImageRepresentation.file_key := ImageRepresentation.file_key rep_A;
            ImageRepresentation.width := 1;
            ImageRepresentation.height := 1 |}.
Proof.
  apply (object_names_distinct rep_A
           {| ImageRepresentation.oid := 7;
              ImageRepresentation.content_type := ImageContentType.PNG;
              ImageRepresentation.file_key := ImageRepresentation.file_key rep_A;
              ImageRepresentation.width := 1;
              ImageRepresentation.height := 1 |}).
  - reflexivity.
  - vm_compute. reflexivity.
Defined.
